(** * vllm/worker/worker.py: the per-device execution worker

    A shallow embedding of [Worker._prepare_inputs], [Worker.execute_model],
    [Worker.profile_num_available_blocks], [Worker.init_cache_engine] with
    its shared-memory check, and the padding helpers, with the properties of
    batch assembly, paged-cache addressing, capacity profiling and
    cache-operation ordering stated over the embedding.

    Conventions.
    - Python integers are [Z]; [//] and [%] on integers are floor division and
      the matching remainder, which is what [Z.div] and [Z.modulo] compute for
      a non-zero divisor.  A zero divisor raises.
    - Python lists are [list]; indexing and slicing follow Python, negative
      indices included.
    - A [dict] is an association list in insertion order: the order of
      [keys()] decides which sequence a prefill group uses and the order in
      which decode sequences enter the batch.
    - Exceptions are an error monad [result]; the first exception wins.
    - Floating-point quantities of the profiler are exact rationals [Q];
      the floats of the shared-memory check are binary64 numbers, with the
      operations of [SpecFloat].
    - [torch.tensor] keeps the list it is given; the DeepSpeed ragged-batch
      calls are recorded as the descriptors handed to them. *)

From Stdlib Require Import ZArith List Lia Bool String QArith Qround.
From Stdlib Require Import DecimalString.
From Stdlib Require Floats.SpecFloat.
Import ListNotations.
Open Scope Z_scope.

(* ================================================================== *)
(** ** Python primitives *)
(* ================================================================== *)

Module Py.

Inductive exn : Type :=
| IndexError
| KeyError
| TypeError
| ZeroDivisionError
| AssertionError
| ValueError.

Inductive result (A : Type) : Type :=
| Ok (a : A)
| Raise (e : exn).
Arguments Ok {A} a.
Arguments Raise {A} e.

Definition bind {A B} (m : result A) (k : A -> result B) : result B :=
  match m with
  | Ok a => k a
  | Raise e => Raise e
  end.

(** [assert c] *)
Definition assert_that (c : bool) : result unit :=
  if c then Ok tt else Raise AssertionError.

(** [len(l)] *)
Definition len {A} (l : list A) : Z := Z.of_nat (List.length l).

(** [l[i]]: a negative index counts from the end; out of range raises. *)
Definition getitem {A} (l : list A) (i : Z) : result A :=
  let j := if i <? 0 then i + len l else i in
  if j <? 0 then Raise IndexError
  else match nth_error l (Z.to_nat j) with
       | Some x => Ok x
       | None => Raise IndexError
       end.

(** Normalisation of one slice bound against a list of length [n]. *)
Definition clamp_bound (n i : Z) : Z :=
  let j := if i <? 0 then i + n else i in
  Z.max 0 (Z.min n j).

(** [l[lo:hi]] *)
Definition slice {A} (l : list A) (lo hi : Z) : list A :=
  let a := clamp_bound (len l) lo in
  let b := clamp_bound (len l) hi in
  firstn (Z.to_nat (b - a)) (skipn (Z.to_nat a) l).

(** [l[:hi]] *)
Definition slice_to {A} (l : list A) (hi : Z) : list A := slice l 0 hi.

(** [l[lo:]] *)
Definition slice_from {A} (l : list A) (lo : Z) : list A :=
  slice l lo (len l).

(** [range(n)], as a list *)
Definition range (n : Z) : list Z :=
  map Z.of_nat (seq 0 (Z.to_nat n)).

(** [[x] * n]: empty when [n <= 0] *)
Definition replicate {A} (x : A) (n : Z) : list A := repeat x (Z.to_nat n).

(** [a // b] on integers *)
Definition floordiv (a b : Z) : result Z :=
  if b =? 0 then Raise ZeroDivisionError else Ok (a / b).

(** [a % b] on integers *)
Definition modulo (a b : Z) : result Z :=
  if b =? 0 then Raise ZeroDivisionError else Ok (a mod b).

(** [int(b)] for a boolean, as in [n + (i < r)] *)
Definition int_of_bool (b : bool) : Z := if b then 1 else 0.

(** [str(n)] for an integer *)
Definition str (n : Z) : string := NilZero.string_of_int (Z.to_int n).

(** A [dict] with integer keys. *)
Definition dict (V : Type) : Type := list (Z * V).

(** [d.keys()] *)
Definition keys {V} (d : dict V) : list Z := map fst d.

Fixpoint lookup {V} (d : dict V) (k : Z) : option V :=
  match d with
  | [] => None
  | (k', v) :: d' => if k' =? k then Some v else lookup d' k
  end.

(** [d[k]] *)
Definition dict_get {V} (d : dict V) (k : Z) : result V :=
  match lookup d k with
  | Some v => Ok v
  | None => Raise KeyError
  end.

(** [k in d] *)
Definition contains {V} (d : dict V) (k : Z) : bool :=
  match lookup d k with
  | Some _ => true
  | None => false
  end.

(** [d[k] = v]: an existing key keeps its place. *)
Fixpoint dict_set {V} (d : dict V) (k : Z) (v : V) : dict V :=
  match d with
  | [] => [(k, v)]
  | (k', v') :: d' =>
      if k' =? k then (k', v) :: d' else (k', v') :: dict_set d' k v
  end.

(** [d.update(d')] *)
Definition update {V} (d d' : dict V) : dict V :=
  fold_left (fun acc kv => dict_set acc (fst kv) (snd kv)) d' d.

(** The association list is a dictionary: no key occurs twice. *)
Definition is_dict {V} (d : dict V) : Prop := NoDup (keys d).

(** A [for] loop that collects one value per element; it stops at the
    first exception. *)
Fixpoint for_each {A B} (f : A -> result B) (l : list A) : result (list B) :=
  match l with
  | [] => Ok []
  | x :: l' =>
      bind (f x) (fun y => bind (for_each f l') (fun ys => Ok (y :: ys)))
  end.

(** A [for] loop that threads an accumulator through its body. *)
Fixpoint for_fold {A S} (f : S -> A -> result S) (s : S) (l : list A)
  : result S :=
  match l with
  | [] => Ok s
  | x :: l' => bind (f s x) (fun s' => for_fold f s' l')
  end.

End Py.

Import Py.

Notation "x <- m ;; k" := (Py.bind m (fun x => k))
  (at level 61, m at next level, right associativity).
Notation "m ;;; k" := (Py.bind m (fun _ => k))
  (at level 61, right associativity).

(* ================================================================== *)
(** ** Data model *)
(* ================================================================== *)

(** [vllm.sequence.SequenceData], read through [get_token_ids()],
    [get_len()], [is_generating()] and the two in-flight counters. *)
Record SequenceData : Type := mkSequenceData {
  token_ids : list Z;
  inflight_length : Z;
  running_inflight_tokens : Z;
  generating : bool;
}.

Definition get_token_ids (sd : SequenceData) : list Z := token_ids sd.
Definition get_len (sd : SequenceData) : Z := len (token_ids sd).
Definition is_generating (sd : SequenceData) : bool := generating sd.

(** [SamplingParams(top_p=..., top_k=...)] *)
Record SamplingParams : Type := mkSamplingParams {
  top_p : Q;
  top_k : Z;
}.

Definition BlockTable : Type := list Z.

(** [vllm.sequence.SequenceGroupMetadata] *)
Record SequenceGroupMetadata : Type := mkSequenceGroupMetadata {
  request_id : string;
  is_prompt : bool;
  only_swap : bool;
  seq_data : dict SequenceData;
  sampling_params : SamplingParams;
  block_tables : option (dict BlockTable);
}.

(** The fields of [Worker] that batch assembly and execution read.
    [block_size] and [sliding_window] are [None] until [init_cache_engine]. *)
Record Worker : Type := mkWorker {
  block_size : option Z;
  sliding_window : option Z;
  cache_events : list Z;
}.

(** One sequence registered in the ragged batch (lines 364-372):
    in-flight tokens, seen tokens and the KV block ids. *)
Record SeqDescriptor : Type := mkSeqDescriptor {
  desc_index : Z;
  desc_in_flight_tokens : Z;
  desc_seen_tokens : Z;
  desc_kv_ids : list Z;
}.

(** [InputMetadata(...)] as built at lines 378-390. *)
Record InputMetadata : Type := mkInputMetadata {
  im_seq_groups : list (list Z * SamplingParams);
  im_seq_data : dict SequenceData;
  im_prompt_lens : list Z;
  im_slot_mapping : list Z;
  im_context_lens : list Z;
  im_max_context_len : Z;
  im_block_tables : list (list Z);
  im_running_query_lens : list Z;
  im_atoms : list SeqDescriptor;
  im_is_generating_new_token : list bool;
  im_sliding_window : option Z;
}.

(** The triple returned by [_prepare_inputs] when there is input. *)
Record Batch : Type := mkBatch {
  tokens_tensor : list Z;
  positions_tensor : list Z;
  input_metadata : InputMetadata;
}.

(** The local lists of [_prepare_inputs] that the two passes extend. *)
Record Locals : Type := mkLocals {
  seq_groups : list (list Z * SamplingParams);
  input_tokens : list Z;
  input_positions : list Z;
  slot_mapping : list Z;
  is_generating_new_token : list bool;
  prompt_lens : list Z;
  max_context_len : Z;
  max_num_blocks_per_seq : Z;
  context_lens : list Z;
  generation_block_tables : list (list Z);
  running_query_lens : list Z;
}.

Definition init_locals : Locals :=
  mkLocals [] [] [] [] [] [] 0 0 [] [] [].

(* ================================================================== *)
(** ** Padding helpers (lines 491-496) *)
(* ================================================================== *)

(** [x + [0] * ((-len(x)) % multiple_of)] *)
Definition _pad_to_alignment (x : list Z) (multiple_of : Z) : result (list Z) :=
  r <- Py.modulo (- len x) multiple_of ;;
  Ok (x ++ replicate 0 r).

(** [x + [0] * (max_len - len(x))] *)
Definition _pad_to_max (x : list Z) (max_len : Z) : list Z :=
  x ++ replicate 0 (max_len - len x).

(* ================================================================== *)
(** ** Slot addressing (lines 259-261 and 313-315) *)
(* ================================================================== *)

(** [a // self.block_size] and [a % self.block_size]: [None] is a type
    error. *)
Definition floordiv_block_size (w : Worker) (a : Z) : result Z :=
  match block_size w with
  | None => Raise TypeError
  | Some b => Py.floordiv a b
  end.

Definition modulo_block_size (w : Worker) (a : Z) : result Z :=
  match block_size w with
  | None => Raise TypeError
  | Some b => Py.modulo a b
  end.

Definition times_block_size (w : Worker) (a : Z) : result Z :=
  match block_size w with
  | None => Raise TypeError
  | Some b => Ok (a * b)
  end.

(** The body shared by the two slot-mapping loops. *)
Definition slot_of (w : Worker) (block_table : BlockTable) (position : Z)
  : result Z :=
  idx <- floordiv_block_size w position ;;
  block_number <- getitem block_table idx ;;
  block_offset <- modulo_block_size w position ;;
  base <- times_block_size w block_number ;;
  Ok (base + block_offset).

(** [for i in range(prompt_len): ... slot_mapping.append(slot)] *)
Definition prefill_slots (w : Worker) (block_table : BlockTable)
  (prompt_len : Z) : result (list Z) :=
  for_each (slot_of w block_table) (range prompt_len).

(** [for position in positions: ... slot_mapping.append(slot)] *)
Definition decode_slots (w : Worker) (block_table : BlockTable)
  (positions : list Z) : result (list Z) :=
  for_each (slot_of w block_table) positions.

(* ================================================================== *)
(** ** Batch assembly: [Worker._prepare_inputs] (lines 213-392) *)
(* ================================================================== *)

(** [seq_groups.append((seq_ids, sampling_params))] *)
Definition push_seq_group (st : Locals) (ids : list Z) (sp : SamplingParams)
  : Locals :=
  mkLocals (seq_groups st ++ [(ids, sp)]) (input_tokens st)
    (input_positions st) (slot_mapping st) (is_generating_new_token st)
    (prompt_lens st) (max_context_len st) (max_num_blocks_per_seq st)
    (context_lens st) (generation_block_tables st) (running_query_lens st).

(** Lines 242-248 of the prefill pass. *)
Definition push_prompt (st : Locals) (prompt_len : Z) (gen : bool)
  (prompt_tokens : list Z) : Locals :=
  mkLocals (seq_groups st) (input_tokens st ++ prompt_tokens)
    (input_positions st ++ range (len prompt_tokens)) (slot_mapping st)
    (is_generating_new_token st ++ [gen]) (prompt_lens st ++ [prompt_len])
    (max_context_len st) (max_num_blocks_per_seq st) (context_lens st)
    (generation_block_tables st) (running_query_lens st).

(** [slot_mapping.extend(slots)], or the same appends one at a time. *)
Definition push_slots (st : Locals) (slots : list Z) : Locals :=
  mkLocals (seq_groups st) (input_tokens st) (input_positions st)
    (slot_mapping st ++ slots) (is_generating_new_token st) (prompt_lens st)
    (max_context_len st) (max_num_blocks_per_seq st) (context_lens st)
    (generation_block_tables st) (running_query_lens st).

(** Lines 290-310 of the decode pass. *)
Definition push_decode (st : Locals) (toks : list Z) (qs : Z) (gen : bool)
  (last_token_ctx_len : Z) (positions : list Z) (last_hist : Z)
  (block_table : BlockTable) : Locals :=
  mkLocals (seq_groups st) (input_tokens st ++ toks)
    (input_positions st ++ positions) (slot_mapping st)
    (is_generating_new_token st ++ [gen]) (prompt_lens st)
    (Z.max (max_context_len st) last_hist)
    (Z.max (max_num_blocks_per_seq st) (len block_table))
    (context_lens st ++ [last_token_ctx_len]) (generation_block_tables st)
    (running_query_lens st ++ [qs]).

(** [generation_block_tables.append(t)] *)
Definition push_block_table (st : Locals) (t : list Z) : Locals :=
  mkLocals (seq_groups st) (input_tokens st) (input_positions st)
    (slot_mapping st) (is_generating_new_token st) (prompt_lens st)
    (max_context_len st) (max_num_blocks_per_seq st) (context_lens st)
    (generation_block_tables st ++ [t]) (running_query_lens st).

(** One iteration of the prefill loop (lines 228-262). *)
Definition prefill_group (w : Worker) (st : Locals)
  (g : SequenceGroupMetadata) : result Locals :=
  if negb (is_prompt g) || only_swap g then Ok st
  else
    let seq_ids := keys (seq_data g) in
    let st := push_seq_group st seq_ids (sampling_params g) in
    seq_id <- getitem seq_ids 0 ;;
    sdata <- dict_get (seq_data g) seq_id ;;
    let prompt_len := running_inflight_tokens sdata in
    let prompt_tokens := slice_to (get_token_ids sdata) prompt_len in
    let st := push_prompt st prompt_len (is_generating sdata) prompt_tokens in
    match block_tables g with
    | None => Ok (push_slots st (replicate 0 prompt_len))
    | Some tables =>
        block_table <- dict_get tables seq_id ;;
        slots <- prefill_slots w block_table prompt_len ;;
        Ok (push_slots st slots)
    end.

Definition prefill_pass (w : Worker) (st : Locals)
  (seq_group_metadata_list : list SequenceGroupMetadata) : result Locals :=
  for_fold (prefill_group w) st seq_group_metadata_list.

(** [hists], before the sliding-window clamp, and [positions]
    (lines 294-300). *)
Definition decode_hists (sdata : SequenceData) : list Z :=
  let qs_to_forward := running_inflight_tokens sdata in
  let start_idx := get_len sdata - inflight_length sdata in
  let last_token_ctx_len := start_idx + qs_to_forward in
  map (fun i => i + last_token_ctx_len - qs_to_forward + 1)
      (range qs_to_forward).

Definition decode_positions (sdata : SequenceData) : list Z :=
  map (fun h => h - 1) (decode_hists sdata).

(** Lines 301-302: [hists = [min(l, self.sliding_window) for l in hists]]. *)
Definition clamp_hists (w : Worker) (hists : list Z) : list Z :=
  match sliding_window w with
  | Some sw => map (fun l => Z.min l sw) hists
  | None => hists
  end.

(** [seq_group_metadata.block_tables[seq_id]]: subscripting [None] is a
    type error. *)
Definition block_table_of (g : SequenceGroupMetadata) (seq_id : Z)
  : result BlockTable :=
  match block_tables g with
  | None => Raise TypeError
  | Some tables => dict_get tables seq_id
  end.

Definition is_none {A} (o : option A) : bool :=
  match o with
  | None => true
  | Some _ => false
  end.

(** One iteration of the inner decode loop (lines 285-324). *)
Definition decode_seq (w : Worker) (g : SequenceGroupMetadata) (st : Locals)
  (seq_id : Z) : result Locals :=
  sdata <- dict_get (seq_data g) seq_id ;;
  let qs_to_forward := running_inflight_tokens sdata in
  let start_idx := get_len sdata - inflight_length sdata in
  let toks :=
    slice (get_token_ids sdata) start_idx (start_idx + qs_to_forward) in
  let last_token_ctx_len := start_idx + qs_to_forward in
  let positions := decode_positions sdata in
  let hists := clamp_hists w (decode_hists sdata) in
  block_table <- block_table_of g seq_id ;;
  last_hist <- getitem hists (-1) ;;
  let st := push_decode st toks qs_to_forward (is_generating sdata)
              last_token_ctx_len positions last_hist block_table in
  slots <- decode_slots w block_table positions ;;
  let st := push_slots st slots in
  assert_that (is_none (sliding_window w)) ;;;
  match sliding_window w with
  | Some sw =>
      sliding_window_blocks <- floordiv_block_size w sw ;;
      Ok (push_block_table st
            (slice_from block_table (- sliding_window_blocks)))
  | None => Ok (push_block_table st block_table)
  end.

(** One iteration of the outer decode loop (lines 277-324). *)
Definition decode_group (w : Worker) (st : Locals)
  (g : SequenceGroupMetadata) : result Locals :=
  if is_prompt g || only_swap g then Ok st
  else
    let seq_ids := keys (seq_data g) in
    let st := push_seq_group st seq_ids (sampling_params g) in
    for_fold (decode_seq w g) st seq_ids.

Definition decode_pass (w : Worker) (st : Locals)
  (seq_group_metadata_list : list SequenceGroupMetadata) : result Locals :=
  for_fold (decode_group w) st seq_group_metadata_list.

(** Both passes, lines 219-324. *)
Definition collect (w : Worker)
  (seq_group_metadata_list : list SequenceGroupMetadata) : result Locals :=
  st <- prefill_pass w init_locals seq_group_metadata_list ;;
  decode_pass w st seq_group_metadata_list.

(** One iteration of the loop at lines 354-359. *)
Definition merge_seq_data (acc : dict SequenceData)
  (g : SequenceGroupMetadata) : result (dict SequenceData) :=
  if only_swap g then Ok acc
  else
    for_fold (fun (_ : unit) k => assert_that (negb (contains acc k))) tt
      (keys (seq_data g)) ;;;
    Ok (update acc (seq_data g)).

(** Lines 363-372: the sequences inserted in the ragged batch. *)
Definition descriptors (st : Locals) : list SeqDescriptor :=
  let zipped :=
    combine (combine (running_query_lens st) (context_lens st))
            (generation_block_tables st) in
  map (fun '(i, ((qs, ctx), kv_ids)) =>
         mkSeqDescriptor (Z.of_nat i) qs (ctx - qs) kv_ids)
      (combine (seq 0 (List.length zipped)) zipped).

(** Lines 325-392, once both passes are done. *)
Definition finish (w : Worker)
  (seq_group_metadata_list : list SequenceGroupMetadata) (st : Locals)
  : result (option Batch) :=
  match input_tokens st with
  | [] => Ok None
  | _ :: _ =>
      padded_tokens <- _pad_to_alignment (input_tokens st) 8 ;;
      padded_positions <- _pad_to_alignment (input_positions st) 8 ;;
      let padded_block_tables :=
        map (fun t => _pad_to_max t (max_num_blocks_per_seq st))
            (generation_block_tables st) in
      merged <- for_fold merge_seq_data [] seq_group_metadata_list ;;
      let atoms :=
        match running_query_lens st with
        | [] => []
        | _ :: _ => descriptors st
        end in
      assert_that (len (is_generating_new_token st) =? len (seq_groups st)) ;;;
      Ok (Some (mkBatch padded_tokens padded_positions
                  (mkInputMetadata (seq_groups st) merged (prompt_lens st)
                     (slot_mapping st) (context_lens st) (max_context_len st)
                     padded_block_tables (running_query_lens st) atoms
                     (is_generating_new_token st) (sliding_window w))))
  end.

Definition _prepare_inputs (w : Worker)
  (seq_group_metadata_list : list SequenceGroupMetadata)
  : result (option Batch) :=
  match seq_group_metadata_list with
  | [] => Ok None
  | _ :: _ =>
      st <- collect w seq_group_metadata_list ;;
      finish w seq_group_metadata_list st
  end.

(* ================================================================== *)
(** ** One step: [Worker.execute_model] (lines 395-457) *)
(* ================================================================== *)

(** What a step does to the cache engine, the completion events and the
    model, in program order. *)
Inductive Effect : Type :=
| SwapOut (blocks : dict Z)
| SwapIn (blocks : dict Z)
| Copy (blocks : dict (list Z))
| WaitEvent (event : Z)
| ModelCall (batch : Batch) (events : option (list Z))
            (overlap_swap_in overlap_swap_out : dict Z).

(** What [execute_model] returns: the empty dictionary, or whatever the
    model call recorded in the trace produced. *)
Inductive SamplerOutput : Type :=
| EmptyOutput
| ModelOutput.

(** Truth value of a dictionary or a list. *)
Definition truthy {A} (l : list A) : bool :=
  match l with
  | [] => false
  | _ :: _ => true
  end.

(** The branch taken when there is no input (lines 432-444). *)
Definition no_input_branch (w : Worker) (issued_cache_op : bool)
  (events : option (list Z)) (blocks_to_swap_in blocks_to_swap_out : dict Z)
  : list Effect :=
  let out_ops :=
    if truthy blocks_to_swap_out then [SwapOut blocks_to_swap_out] else [] in
  let issued_cache_op := issued_cache_op || truthy blocks_to_swap_out in
  let in_ops :=
    if truthy blocks_to_swap_in then [SwapIn blocks_to_swap_in] else [] in
  let issued_cache_op := issued_cache_op || truthy blocks_to_swap_in in
  let events := if issued_cache_op then Some (cache_events w) else events in
  let waits :=
    match events with
    | Some evs => map WaitEvent evs
    | None => []
    end in
  out_ops ++ in_ops ++ waits.

(** The effects of a step, and its result or exception. *)
Definition execute_model (w : Worker)
  (seq_group_metadata_list : list SequenceGroupMetadata)
  (blocks_to_swap_in blocks_to_swap_out : dict Z)
  (blocks_to_copy : dict (list Z)) : list Effect * result SamplerOutput :=
  let issued_cache_op := false in
  let overlap_blocks_swap_in := blocks_to_swap_in in
  let overlap_blocks_swap_out := blocks_to_swap_out in
  if truthy blocks_to_copy then ([], Raise ValueError)
  else
    let events : option (list Z) :=
      if issued_cache_op then Some (cache_events w) else None in
    match _prepare_inputs w seq_group_metadata_list with
    | Raise e => ([], Raise e)
    | Ok None =>
        (no_input_branch w issued_cache_op events blocks_to_swap_in
           blocks_to_swap_out,
         Ok EmptyOutput)
    | Ok (Some batch) =>
        ([ModelCall batch events overlap_blocks_swap_in
            overlap_blocks_swap_out],
         Ok ModelOutput)
    end.

(* ================================================================== *)
(** ** Capacity profiling: [Worker.profile_num_available_blocks]
       (lines 98-164) *)
(* ================================================================== *)

Record SchedulerConfig : Type := mkSchedulerConfig {
  max_num_batched_tokens : Z;
  max_num_seqs : Z;
}.

(** Modelled from the spec: the constructor [SequenceData(prompt)] of
    [vllm.sequence], which is not among the sources.  A new sequence has
    seen none of its tokens, so all of them are in flight, and it is still
    consuming its prompt. *)
Definition new_SequenceData (prompt_token_ids : list Z) : SequenceData :=
  mkSequenceData prompt_token_ids (len prompt_token_ids) 0 false.

(** [seq_data.running_inflight_tokens = n] *)
Definition set_running_inflight_tokens (sd : SequenceData) (n : Z)
  : SequenceData :=
  mkSequenceData (token_ids sd) (inflight_length sd) n (generating sd).

(** One iteration of the loop at lines 119-131.  The group is built without
    [only_swap], which is then false. *)
Definition profile_group (sampling : SamplingParams)
  (max_num_batched_tokens max_num_seqs group_id : Z)
  : result SequenceGroupMetadata :=
  q <- Py.floordiv max_num_batched_tokens max_num_seqs ;;
  r <- Py.modulo max_num_batched_tokens max_num_seqs ;;
  let seq_len := q + int_of_bool (group_id <? r) in
  let seq_data := new_SequenceData (replicate 0 seq_len) in
  let seq_data :=
    set_running_inflight_tokens seq_data (inflight_length seq_data) in
  Ok (mkSequenceGroupMetadata (str group_id) true false
        [(group_id, seq_data)] sampling None).

(** Lines 114-131. *)
Definition profile_seqs (vocab_size : Z) (cfg : SchedulerConfig)
  : result (list SequenceGroupMetadata) :=
  let sampling := mkSamplingParams (99 # 100) (vocab_size - 1) in
  for_each
    (profile_group sampling (max_num_batched_tokens cfg) (max_num_seqs cfg))
    (range (max_num_seqs cfg)).

(** [x // y] for a float [x] and an integer [y], then [int(...)], in exact
    arithmetic: the float is the rational that it stands for, and the
    quotient is not rounded before its floor is taken. *)
Definition float_floordiv (x : Q) (y : Z) : result Z :=
  if y =? 0 then Raise ZeroDivisionError
  else Ok (Qfloor (x / inject_Z y)).

(** Lines 147-158, from the measured peak and total memory. *)
Definition num_available_blocks (peak_memory total_gpu_memory
  cache_block_size : Z) (gpu_memory_utilization : Q) (cpu_swap_space : Z)
  : result (Z * Z) :=
  num_gpu_blocks <-
    float_floordiv
      (inject_Z total_gpu_memory * gpu_memory_utilization
       - inject_Z peak_memory)%Q
      cache_block_size ;;
  num_cpu_blocks <- Py.floordiv cpu_swap_space cache_block_size ;;
  let num_gpu_blocks := Z.max num_gpu_blocks 0 in
  let num_cpu_blocks := Z.max num_cpu_blocks 0 in
  Ok (num_gpu_blocks, num_cpu_blocks).

(** The profiler.  [peak_memory] and [total_gpu_memory] are what the device
    reports after the forward pass, [get_cache_block_size] is the cache
    sizing function of the cache engine. *)
Definition profile_num_available_blocks (w : Worker) (cfg : SchedulerConfig)
  (vocab_size peak_memory total_gpu_memory : Z)
  (get_cache_block_size : Z -> Z)
  (block_size : Z) (gpu_memory_utilization : Q) (cpu_swap_space : Z)
  : result (Z * Z) :=
  seqs <- profile_seqs vocab_size cfg ;;
  _ <- _prepare_inputs w seqs ;;
  num_available_blocks peak_memory total_gpu_memory
    (get_cache_block_size block_size) gpu_memory_utilization cpu_swap_space.

(** The worker as [__init__] leaves it, before [init_cache_engine]. *)
Definition fresh_worker : Worker := mkWorker None None [].

(* ================================================================== *)
(** ** Specification-side definitions *)
(* ================================================================== *)

(** The contract of the block address translator, in the words of the
    specification:
    [block_table[position / block_size] * block_size + position mod block_size]. *)
Definition spec_slot (logical_position : Z) (block_table : BlockTable)
  (block_size : Z) : Z :=
  nth (Z.to_nat (logical_position / block_size)) block_table 0 * block_size
  + logical_position mod block_size.

(** Groups that take part in the prefill pass, and in the decode pass. *)
Definition is_prefill (g : SequenceGroupMetadata) : bool :=
  is_prompt g && negb (only_swap g).

Definition is_decode (g : SequenceGroupMetadata) : bool :=
  negb (is_prompt g) && negb (only_swap g).

(** The in-flight prompt tokens of a prefill group: those of its sequence. *)
Definition inflight_prompt_tokens (g : SequenceGroupMetadata) : list Z :=
  match seq_data g with
  | [] => []
  | (_, sd) :: _ => slice_to (token_ids sd) (running_inflight_tokens sd)
  end.

(** The in-flight tokens of a decode sequence: [running_inflight_tokens]
    tokens, from where the tokens already seen end. *)
Definition inflight_decode_tokens (sd : SequenceData) : list Z :=
  let seen := len (token_ids sd) - inflight_length sd in
  slice (token_ids sd) seen (seen + running_inflight_tokens sd).

(** The decode sequences of a step, group by group, each group in key
    order. *)
Definition decode_sequences (gs : list SequenceGroupMetadata)
  : list SequenceData :=
  flat_map (fun g => map snd (seq_data g)) (filter is_decode gs).

(** What the unpadded position array is specified to be: the positions of a
    prompt count from 0, those of a decode sequence continue from the tokens
    already seen. *)
Definition expected_positions (gs : list SequenceGroupMetadata) : list Z :=
  flat_map (fun g => range (len (inflight_prompt_tokens g)))
    (filter is_prefill gs)
  ++ flat_map decode_positions (decode_sequences gs).

(** [st'] is [st] with tokens, positions and slots appended. *)
Definition extends (st st' : Locals) (toks poss slots : list Z) : Prop :=
  input_tokens st' = input_tokens st ++ toks
  /\ input_positions st' = input_positions st ++ poss
  /\ slot_mapping st' = slot_mapping st ++ slots.

(** What the unpadded token array is specified to be. *)
Definition expected_tokens (gs : list SequenceGroupMetadata) : list Z :=
  flat_map inflight_prompt_tokens (filter is_prefill gs)
  ++ flat_map inflight_decode_tokens (decode_sequences gs).

(** The counters of a [SequenceData] are consistent: the tokens forwarded in
    this step are among the in-flight ones, which are among all tokens. *)
Definition consistent (sd : SequenceData) : Prop :=
  0 <= running_inflight_tokens sd
  /\ running_inflight_tokens sd <= inflight_length sd
  /\ inflight_length sd <= len (token_ids sd).

(** A group as the scheduler builds it: [seq_data] is a dictionary of
    consistent sequences. *)
Definition well_formed (g : SequenceGroupMetadata) : Prop :=
  is_dict (seq_data g) /\ Forall consistent (map snd (seq_data g)).

(** Some sequence id occurs in the [seq_data] of two distinct groups that are
    not swap-only. *)
Definition shares_seq_id (gs : list SequenceGroupMetadata) : Prop :=
  exists i j gi gj k,
    (i < j)%nat
    /\ nth_error gs i = Some gi /\ nth_error gs j = Some gj
    /\ only_swap gi = false /\ only_swap gj = false
    /\ In k (keys (seq_data gi)) /\ In k (keys (seq_data gj)).

(** A group that brings no input token to the step: it is swap-only, or it
    is a prompt group whose sequence forwards no token in this step and
    whose block table, if block tables are set, is present. *)
Definition brings_no_token (g : SequenceGroupMetadata) : Prop :=
  only_swap g = true
  \/ (is_prompt g = true
      /\ exists id sd rest,
           seq_data g = (id, sd) :: rest
           /\ running_inflight_tokens sd = 0
           /\ (block_tables g = None
               \/ exists tables t,
                    block_tables g = Some tables /\ lookup tables id = Some t)).

(** The trace of a step without input: the swap-out if there are blocks to
    swap out, the swap-in if there are blocks to swap in, and, when one of
    them was issued, a wait on every event of the cache engine. *)
Definition swaps_then_waits (w : Worker)
  (blocks_to_swap_in blocks_to_swap_out : dict Z) : list Effect :=
  (if truthy blocks_to_swap_out then [SwapOut blocks_to_swap_out] else [])
  ++ (if truthy blocks_to_swap_in then [SwapIn blocks_to_swap_in] else [])
  ++ (if truthy blocks_to_swap_out || truthy blocks_to_swap_in
      then map WaitEvent (cache_events w) else []).


(** The worker with its sliding window removed. *)
Definition without_sliding_window (w : Worker) : Worker :=
  mkWorker (block_size w) None (cache_events w).

(** The prompt lengths of the sequences of a list of groups. *)
Definition prompt_lengths (gs : list SequenceGroupMetadata) : list Z :=
  flat_map (fun g => map (fun kv => len (token_ids (snd kv))) (seq_data g)) gs.

Definition sumZ (l : list Z) : Z := fold_right Z.add 0 l.

Definition is_model_call (e : Effect) : bool :=
  match e with
  | ModelCall _ _ _ _ => true
  | _ => false
  end.

(** The group that iteration [group_id] builds when [max_num_seqs] is not
    zero. *)
Definition profile_group_of (vocab_size total n group_id : Z)
  : SequenceGroupMetadata :=
  let seq_len := total / n + int_of_bool (group_id <? total mod n) in
  mkSequenceGroupMetadata (str group_id) true false
    [(group_id,
      mkSequenceData (replicate 0 seq_len) (len (replicate 0 seq_len))
        (len (replicate 0 seq_len)) false)]
    (mkSamplingParams (99 # 100) (vocab_size - 1)) None.

(* ================================================================== *)
(** ** Scenarios *)
(* ================================================================== *)

Module Scenario.

Definition sampling : SamplingParams := mkSamplingParams 1 (-1).

(** A worker with block size 4, no sliding window, two cache events. *)
Definition worker4 : Worker := mkWorker (Some 4) None [0; 1].

(** The same worker with a sliding window of 2 tokens. *)
Definition worker4_window2 : Worker := mkWorker (Some 4) (Some 2) [0; 1].

(** A sequence whose [n] last tokens are in flight, all of them forwarded
    in this step. *)
Definition sequence (tokens : list Z) (n : Z) (gen : bool) : SequenceData :=
  mkSequenceData tokens n n gen.

(** Scenario A: a prompt of 5 tokens, block size 4, block table [[7]]. *)
Definition prompt5 : SequenceData := sequence [11; 12; 13; 14; 15] 5 false.

Definition group_A : SequenceGroupMetadata :=
  mkSequenceGroupMetadata "A" true false [(1, prompt5)] sampling
    (Some [(1, [7])]).

(** The same prompt with the second block allocated. *)
Definition group_A2 : SequenceGroupMetadata :=
  mkSequenceGroupMetadata "A" true false [(1, prompt5)] sampling
    (Some [(1, [7; 2])]).

(** A prompt of 4 tokens in one block. *)
Definition prompt4 : SequenceData := sequence [11; 12; 13; 14] 4 false.

Definition group_P4 : SequenceGroupMetadata :=
  mkSequenceGroupMetadata "P" true false [(1, prompt4)] sampling
    (Some [(1, [7])]).

(** A decode sequence: 6 tokens, the last one in flight. *)
Definition decode6 : SequenceData := sequence [21; 22; 23; 24; 25; 26] 1 true.

Definition group_D : SequenceGroupMetadata :=
  mkSequenceGroupMetadata "D" false false [(2, decode6)] sampling
    (Some [(2, [3; 4])]).

(** A decode sequence with nothing to forward in this step. *)
Definition idle6 : SequenceData :=
  mkSequenceData [21; 22; 23; 24; 25; 26] 1 0 true.

Definition group_idle : SequenceGroupMetadata :=
  mkSequenceGroupMetadata "I" false false [(2, idle6)] sampling
    (Some [(2, [3; 4])]).



(** Two prompt groups that carry the same sequence id, none of whose
    tokens is forwarded in this step. *)
Definition waiting : SequenceData := mkSequenceData [11; 12] 2 0 false.

Definition group_W1 : SequenceGroupMetadata :=
  mkSequenceGroupMetadata "W1" true false [(1, waiting)] sampling
    (Some [(1, [7])]).

Definition group_W2 : SequenceGroupMetadata :=
  mkSequenceGroupMetadata "W2" true false [(1, waiting)] sampling
    (Some [(1, [8])]).

(** The same id in a prompt group and in a decode group. *)
Definition group_D1 : SequenceGroupMetadata :=
  mkSequenceGroupMetadata "D1" false false [(1, decode6)] sampling
    (Some [(1, [3; 4])]).

(** A step that lists a decode group before a prompt group. *)
Definition mixed_step : list SequenceGroupMetadata := [group_D; group_A2].

(** The step of a profiler with two sequences of three tokens. *)
Definition profile_sequence : SequenceData := sequence [0; 0; 0] 3 false.

Definition profile_step : list SequenceGroupMetadata :=
  [mkSequenceGroupMetadata "0" true false [(0, profile_sequence)] sampling None;
   mkSequenceGroupMetadata "1" true false [(1, profile_sequence)] sampling None].

(** A group that only swaps in this step. *)
Definition group_swap : SequenceGroupMetadata :=
  mkSequenceGroupMetadata "S" false true [(9, decode6)] sampling
    (Some [(9, [5; 6])]).

(** Scenario C: 4 sequences, 10 batched tokens. *)
Definition config_C : SchedulerConfig := mkSchedulerConfig 10 4.

End Scenario.

(* ================================================================== *)
(** ** Start-up: [prepare_deepspeed_kernel], [init_cache_engine] and
       [_check_if_can_support_max_seq_len] *)
(* ================================================================== *)

Module Init.

(** The exceptions of the start-up code: those of [Py], [RuntimeError] and
    [OverflowError]. *)
Inductive exn : Type :=
| Raised (e : Py.exn)
| RuntimeError
| OverflowError.

Inductive result (A : Type) : Type :=
| Done (a : A)
| Fail (e : exn).
Arguments Done {A} a.
Arguments Fail {A} e.

Definition bind {A B} (m : result A) (k : A -> result B) : result B :=
  match m with
  | Done a => k a
  | Fail e => Fail e
  end.

(** [assert c] *)
Definition assert_that (c : bool) : result unit :=
  if c then Done tt else Fail (Raised AssertionError).

(** [CacheConfig], the two fields that [init_cache_engine] reads. *)
Record CacheConfig : Type := mkCacheConfig {
  cc_block_size : Z;
  cc_sliding_window : option Z;
}.

(** A Python [float] is an IEEE 754 binary64 number: 53 bits of precision,
    infinities at exponent 1024, every operation rounded to nearest, ties
    to even. *)
Definition float : Type := SpecFloat.spec_float.

Definition prec : Z := 53.
Definition emax : Z := 1024.

(** An integer as an operand that has not been rounded. *)
Definition exact (z : Z) : float :=
  match z with
  | Z0 => SpecFloat.S754_zero false
  | Zpos p => SpecFloat.S754_finite false p 0
  | Zneg p => SpecFloat.S754_finite true p 0
  end.

(** Where Python checks the result of a conversion or of a division, one
    too large for a float raises. *)
Definition finite (x : float) : result float :=
  match x with
  | SpecFloat.S754_infinity _ => Fail OverflowError
  | _ => Done x
  end.

(** [a / b] on integers: Python rounds the quotient of the two integers
    once, and does not divide their conversions; [SFdiv] computes it from
    operands that carry the integers themselves.  A quotient too large for a
    float raises. *)
Definition truediv (a b : Z) : result float :=
  if b =? 0 then Fail (Raised ZeroDivisionError)
  else finite (SpecFloat.SFdiv prec emax (exact a) (exact b)).

(** The conversion of the integer operand of a float operation. *)
Definition float_of_int (n : Z) : result float :=
  finite (SpecFloat.binary_normalize prec emax n 0 false).

(** [x * n] for a float [x] and an integer [n]; the product itself
    overflows to an infinity without raising. *)
Definition mul_int (x : float) (n : Z) : result float :=
  bind (float_of_int n) (fun y => Done (SpecFloat.SFmul prec emax x y)).

(** [x > n] for a float [x] and an integer [n]: the two values are compared
    as they are, without rounding [n]. *)
Definition gt_int (x : float) (n : Z) : bool :=
  match x with
  | SpecFloat.S754_nan => false
  | SpecFloat.S754_infinity s => negb s
  | SpecFloat.S754_zero _ => 0 >? n
  | SpecFloat.S754_finite s m e =>
      let v := if s then Zneg m else Zpos m in
      if 0 <=? e then v * 2 ^ e >? n else v >? n * 2 ^ (- e)
  end.

(** [torch.finfo(torch.float).bits // 8] *)
Definition float32_bytes : Z := 32 / 8.

(** [((max_seq_len + block_size - 1) / block_size) * block_size]: a true
    division, then a float multiplication. *)
Definition padded_max_seq_len (max_seq_len block_size : Z) : result float :=
  bind (truediv (max_seq_len + block_size - 1) block_size) (fun q =>
  mul_int q block_size).

(** Lines 499-516.  [max_shared_mem] is what
    [get_max_shared_memory_bytes()] returns.  [required_shared_mem] only
    feeds the message of the exception, and its float addition and
    multiplication raise nothing. *)
Definition _check_if_can_support_max_seq_len (max_shared_mem : Z)
  (max_seq_len block_size : Z) : result unit :=
  bind (padded_max_seq_len max_seq_len block_size) (fun padded =>
  bind (mul_int padded float32_bytes) (fun bytes =>
  if gt_int bytes max_shared_mem then Fail RuntimeError else Done tt)).

(** [self.block_size == self.kv_block_size]: [kv_block_size] is [None]
    until [init_model]. *)
Definition same_block_size (block_size : Z) (kv_block_size : option Z) : bool :=
  match kv_block_size with
  | Some k => block_size =? k
  | None => false
  end.

(** Lines 200-204. *)
Definition checked_max_seq_len (max_model_len : Z) (sliding_window : option Z)
  : Z :=
  match sliding_window with
  | None => max_model_len
  | Some sw => Z.min max_model_len sw
  end.

(** Lines 194-210: the worker that [init_cache_engine] leaves when it
    returns.  [kv_block_size] is the worker's field set by [init_model],
    [max_model_len] is [scheduler_config.max_model_len], and [cache_engine]
    is what the constructor [CacheEngine(...)] does: it raises, or builds an
    engine with the given events. *)
Definition init_cache_engine (kv_block_size : option Z)
  (max_model_len max_shared_mem : Z) (cache_engine : result (list Z))
  (cache_config : CacheConfig) : result Worker :=
  let block_size := cc_block_size cache_config in
  bind (assert_that (same_block_size block_size kv_block_size)) (fun _ =>
  let sliding_window := cc_sliding_window cache_config in
  let max_seq_len := checked_max_seq_len max_model_len sliding_window in
  bind (_check_if_can_support_max_seq_len max_shared_mem max_seq_len
          block_size) (fun _ =>
  bind cache_engine (fun events =>
  Done (mkWorker (Some block_size) sliding_window events)))).

End Init.

(** Line 190 of [prepare_deepspeed_kernel]:
    [max_num_seqs * ((max_model_len + q_block_size - 1) // q_block_size)]. *)
Definition max_atoms (max_num_seqs max_model_len q_block_size : Z)
  : result Z :=
  per_seq <- Py.floordiv (max_model_len + q_block_size - 1) q_block_size ;;
  Ok (max_num_seqs * per_seq).

(* ================================================================== *)
(** ** Specification-side definitions for the metadata of a batch *)
(* ================================================================== *)

(** The context length of a decode sequence: the tokens seen and the tokens
    forwarded. *)
Definition context_len (sd : SequenceData) : Z :=
  get_len sd - inflight_length sd + running_inflight_tokens sd.

(** [max] over a list, from [init]. *)
Definition max_from (init : Z) (l : list Z) : Z := fold_left Z.max l init.

(** The block table of a sequence of a group, if it has one. *)
Definition table_of (g : SequenceGroupMetadata) (id : Z) : list BlockTable :=
  match block_tables g with
  | None => []
  | Some tables => match lookup tables id with
                   | Some t => [t]
                   | None => []
                   end
  end.

(** The block tables of the decode sequences of a step, in order. *)
Definition decode_block_tables (gs : list SequenceGroupMetadata)
  : list BlockTable :=
  flat_map (fun g => flat_map (table_of g) (keys (seq_data g)))
    (filter is_decode gs).

(** The prompt length that a prefill group forwards. *)
Definition forwarded_prompt_len (g : SequenceGroupMetadata) : Z :=
  match seq_data g with
  | [] => 0
  | (_, sd) :: _ => running_inflight_tokens sd
  end.

(** The generating flag of the sequence of a prefill group. *)
Definition prompt_generating (g : SequenceGroupMetadata) : bool :=
  match seq_data g with
  | [] => false
  | (_, sd) :: _ => generating sd
  end.

(** The entry of a group in [seq_groups]. *)
Definition seq_group_of (g : SequenceGroupMetadata)
  : list Z * SamplingParams :=
  (keys (seq_data g), sampling_params g).

(** What a run of decode iterations over the sequences [sds] with the block
    tables [tables] does to the lists and maxima of the decode pass. *)
Definition decode_appends (st st' : Locals) (sds : list SequenceData)
  (tables : list BlockTable) : Prop :=
  context_lens st' = context_lens st ++ map context_len sds
  /\ running_query_lens st'
     = running_query_lens st ++ map running_inflight_tokens sds
  /\ generation_block_tables st' = generation_block_tables st ++ tables
  /\ max_context_len st'
     = max_from (max_context_len st) (map context_len sds)
  /\ max_num_blocks_per_seq st'
     = max_from (max_num_blocks_per_seq st) (map len tables)
  /\ is_generating_new_token st'
     = is_generating_new_token st ++ map generating sds
  /\ prompt_lens st' = prompt_lens st.

(** What a run of prefill iterations over the prefill groups [gs] does to
    the lists that describe groups; the lists and maxima of the decode pass
    are left as they are. *)
Definition prefill_appends (st st' : Locals)
  (gs : list SequenceGroupMetadata) : Prop :=
  seq_groups st' = seq_groups st ++ map seq_group_of gs
  /\ prompt_lens st' = prompt_lens st ++ map forwarded_prompt_len gs
  /\ is_generating_new_token st'
     = is_generating_new_token st ++ map prompt_generating gs
  /\ context_lens st' = context_lens st
  /\ running_query_lens st' = running_query_lens st
  /\ generation_block_tables st' = generation_block_tables st
  /\ max_context_len st' = max_context_len st
  /\ max_num_blocks_per_seq st' = max_num_blocks_per_seq st.

(** The groups that are not swap-only. *)
Definition computing (g : SequenceGroupMetadata) : bool := negb (only_swap g).

(** The tokens of a sequence that the cache already holds. *)
Definition seen_tokens (sd : SequenceData) : Z :=
  get_len sd - inflight_length sd.

(** The descriptor of the [i]-th decode sequence of a step. *)
Definition descriptor_of (i : nat) (sd : SequenceData) (t : BlockTable)
  : SeqDescriptor :=
  mkSeqDescriptor (Z.of_nat i) (running_inflight_tokens sd) (seen_tokens sd) t.

(** The descriptors of sequences numbered from [i]. *)
Fixpoint descriptors_from (i : nat) (sds : list SequenceData)
  (tables : list BlockTable) : list SeqDescriptor :=
  match sds, tables with
  | sd :: sds', t :: tables' =>
      descriptor_of i sd t :: descriptors_from (S i) sds' tables'
  | _, _ => []
  end.

(** Effects by kind. *)
Definition is_copy (e : Effect) : bool :=
  match e with
  | Copy _ => true
  | _ => false
  end.

Definition is_cache_op (e : Effect) : bool :=
  match e with
  | SwapOut _ | SwapIn _ | WaitEvent _ => true
  | _ => false
  end.


(** Inputs of the examples below. *)
Module Cases.

(** Scenario B: two decode sequences, one token and three tokens in
    flight. *)
Definition seq_B1 : SequenceData :=
  mkSequenceData [1; 2; 3; 4; 5; 6] 1 1 true.

Definition seq_B2 : SequenceData :=
  mkSequenceData [1; 2; 3; 4; 5; 6; 7; 8; 9; 10] 3 3 true.

Definition group_B1 : SequenceGroupMetadata :=
  mkSequenceGroupMetadata "B1" false false [(1, seq_B1)] Scenario.sampling
    (Some [(1, [3; 4])]).

Definition group_B2 : SequenceGroupMetadata :=
  mkSequenceGroupMetadata "B2" false false [(2, seq_B2)] Scenario.sampling
    (Some [(2, [5; 6; 7])]).

Definition step_B : list SequenceGroupMetadata := [group_B1; group_B2].

(** A decode group with two sequences. *)
Definition group_pair : SequenceGroupMetadata :=
  mkSequenceGroupMetadata "P" false false [(1, seq_B1); (2, seq_B2)]
    Scenario.sampling (Some [(1, [3; 4]); (2, [5; 6; 7])]).



(** A prompt group with no sequence. *)
Definition group_empty : SequenceGroupMetadata :=
  mkSequenceGroupMetadata "E" true false [] Scenario.sampling None.

(** A prompt sequence whose counter of forwarded tokens exceeds its tokens:
    no token, and one token to forward. *)
Definition overcounted : SequenceData := mkSequenceData [] 0 1 false.

Definition group_overcount : SequenceGroupMetadata :=
  mkSequenceGroupMetadata "O" true false [(3, overcounted)] Scenario.sampling
    None.

End Cases.

(* ================================================================== *)
(** ** Facts about the Python primitives *)
(* ================================================================== *)

Lemma bind_ok {A B} (m : result A) (k : A -> result B) (b : B) :
  Py.bind m k = Ok b -> exists a, m = Ok a /\ k a = Ok b.
Proof.
  destruct m as [a | e]; simpl; intros H.
  - exists a; split; [reflexivity | exact H].
  - discriminate H.
Qed.

Section PyFacts.

Context {A B : Type}.

Lemma len_nonneg (l : list A) : 0 <= len l.
Proof. unfold len; lia. Qed.

Lemma len_app (l1 l2 : list A) : len (l1 ++ l2) = len l1 + len l2.
Proof. unfold len; rewrite length_app; lia. Qed.

Lemma len_replicate (x : A) (n : Z) : len (replicate x n) = Z.max 0 n.
Proof. unfold len, replicate; rewrite repeat_length; lia. Qed.

Lemma getitem_in_range (l : list A) (i : Z) (d : A) :
  0 <= i < len l -> getitem l i = Ok (nth (Z.to_nat i) l d).
Proof.
  intros Hi; unfold getitem.
  destruct (i <? 0) eqn:Hneg; [apply Z.ltb_lt in Hneg; lia |].
  rewrite Hneg.
  destruct (nth_error l (Z.to_nat i)) as [x |] eqn:Hn.
  - f_equal; symmetry; apply nth_error_nth; exact Hn.
  - apply nth_error_None in Hn; unfold len in Hi; lia.
Qed.

Lemma getitem_past_end (l : list A) (i : Z) :
  len l <= i -> getitem l i = Raise IndexError.
Proof.
  intros Hi; unfold getitem.
  pose proof (len_nonneg l) as Hl.
  destruct (i <? 0) eqn:Hneg; [apply Z.ltb_lt in Hneg; lia |].
  rewrite Hneg.
  destruct (nth_error l (Z.to_nat i)) as [x |] eqn:Hn; [| reflexivity].
  assert (Hlt : (Z.to_nat i < List.length l)%nat)
    by (apply nth_error_Some; congruence).
  unfold len in Hi; lia.
Qed.

Lemma getitem_cases (l : list A) (i : Z) :
  getitem l i = Raise IndexError \/ exists x, getitem l i = Ok x.
Proof.
  unfold getitem.
  destruct ((if i <? 0 then i + len l else i) <? 0); [left; reflexivity |].
  destruct (nth_error l _) as [x |]; [right; exists x | left]; reflexivity.
Qed.

Lemma getitem_last (l : list A) :
  l <> [] -> exists x, getitem l (-1) = Ok x.
Proof.
  intros Hl; unfold getitem.
  assert (Hpos : 0 < len l)
    by (destruct l; [congruence | unfold len; simpl List.length; lia]).
  change (-1 <? 0) with true; cbv beta iota zeta.
  destruct (-1 + len l <? 0) eqn:Hneg; [apply Z.ltb_lt in Hneg; lia |].
  destruct (nth_error l (Z.to_nat (-1 + len l))) as [x |] eqn:Hn.
  - exists x; reflexivity.
  - apply nth_error_None in Hn; unfold len in *; lia.
Qed.

Lemma getitem_nil (i : Z) : getitem (@nil A) i = Raise IndexError.
Proof.
  unfold getitem.
  destruct ((if i <? 0 then i + len [] else i) <? 0); [reflexivity |].
  destruct (Z.to_nat _); reflexivity.
Qed.

Lemma for_each_ok (f : A -> result B) (g : A -> B) (l : list A) :
  (forall x, In x l -> f x = Ok (g x)) -> for_each f l = Ok (map g l).
Proof.
  induction l as [| x l IH]; intros H; simpl; [reflexivity |].
  rewrite (H x (or_introl eq_refl)); simpl.
  rewrite IH by (intros y Hy; apply H; right; exact Hy).
  reflexivity.
Qed.

Lemma for_each_length (f : A -> result B) (l : list A) (ys : list B) :
  for_each f l = Ok ys -> List.length ys = List.length l.
Proof.
  revert ys; induction l as [| x l IH]; intros ys H; simpl in H.
  - injection H as <-; reflexivity.
  - apply bind_ok in H as (y & _ & H).
    apply bind_ok in H as (ys' & Hys & H).
    injection H as <-; simpl; f_equal; apply IH; exact Hys.
Qed.

(** A loop whose body can only fail with [e], and does so on one of its
    elements, fails with [e]. *)
Lemma for_each_raise (f : A -> result B) (e : exn) (l : list A) :
  (forall x, In x l -> f x = Raise e \/ exists y, f x = Ok y) ->
  (exists x, In x l /\ f x = Raise e) ->
  for_each f l = Raise e.
Proof.
  induction l as [| x l IH]; intros Hall (x0 & Hin & Hx0); [destruct Hin |].
  simpl.
  destruct (Hall x (or_introl eq_refl)) as [Hx | (y & Hx)]; rewrite Hx;
    simpl; [reflexivity |].
  rewrite IH; [reflexivity | intros z Hz; apply Hall; right; exact Hz |].
  destruct Hin as [-> | Hin]; [congruence | exists x0; split; assumption].
Qed.

End PyFacts.

Section FoldFacts.

Context {A S : Type}.

Lemma for_fold_app (f : S -> A -> result S) (s : S) (l1 l2 : list A) :
  for_fold f s (l1 ++ l2) = Py.bind (for_fold f s l1) (fun s' => for_fold f s' l2).
Proof.
  revert s; induction l1 as [| x l1 IH]; intros s; simpl; [reflexivity |].
  destruct (f s x) as [s' | e]; simpl; [apply IH | reflexivity].
Qed.

(** A loop with an element on which the body fails in every state does
    not complete. *)
Lemma for_fold_raise (f : S -> A -> result S) (s : S) (l : list A) (x : A) :
  In x l -> (forall s', exists e, f s' x = Raise e) ->
  exists e, for_fold f s l = Raise e.
Proof.
  revert s; induction l as [| y l IH]; intros s Hin Hx; [destruct Hin |].
  simpl.
  destruct (f s y) as [s' | e] eqn:Hy; simpl; [| exists e; reflexivity].
  destruct Hin as [-> | Hin]; [| apply IH; assumption].
  destruct (Hx s) as (e & He); congruence.
Qed.

(** A property of the state kept by the body is kept by the loop. *)
Lemma for_fold_invariant (P : S -> Prop) (f : S -> A -> result S)
  (l : list A) :
  (forall s x s', In x l -> P s -> f s x = Ok s' -> P s') ->
  forall s s', P s -> for_fold f s l = Ok s' -> P s'.
Proof.
  induction l as [| x l IH]; intros Hstep s s' Hs H; simpl in H.
  - injection H as <-; exact Hs.
  - apply bind_ok in H as (s1 & H1 & H).
    apply (IH (fun s0 y s0' Hy => Hstep s0 y s0' (or_intror Hy)) s1 s');
      [| exact H].
    apply (Hstep s x s1 (or_introl eq_refl) Hs H1).
Qed.

End FoldFacts.

Lemma in_range (p n : Z) : In p (range n) <-> 0 <= p < n.
Proof.
  unfold range; rewrite in_map_iff; split.
  - intros (k & <- & Hk); apply in_seq in Hk; lia.
  - intros Hp; exists (Z.to_nat p); split; [lia |].
    apply in_seq; lia.
Qed.

Lemma len_range (n : Z) : len (range n) = Z.max 0 n.
Proof. unfold len, range; rewrite length_map, length_seq; lia. Qed.

Lemma len_map {A B} (f : A -> B) (l : list A) : len (map f l) = len l.
Proof. unfold len; rewrite length_map; reflexivity. Qed.

Lemma nth_error_range (p n : Z) :
  0 <= p < n -> nth_error (range n) (Z.to_nat p) = Some p.
Proof.
  intros Hp; unfold range.
  rewrite nth_error_map, nth_error_seq.
  destruct (Nat.ltb_spec (Z.to_nat p) (Z.to_nat n)); [| lia].
  simpl; f_equal; lia.
Qed.

(* ================================================================== *)
(** ** Slot addressing *)
(* ================================================================== *)

Section Addressing.

Variable w : Worker.
Variable b : Z.
Hypothesis Hsize : block_size w = Some b.
Hypothesis Hpos : 0 < b.

Lemma slot_of_eq (t : BlockTable) (p : Z) :
  slot_of w t p
  = Py.bind (getitem t (p / b)) (fun x => Ok (x * b + p mod b)).
Proof.
  unfold slot_of, floordiv_block_size, modulo_block_size, times_block_size.
  rewrite Hsize; unfold Py.floordiv, Py.modulo.
  destruct (b =? 0) eqn:Hb; [apply Z.eqb_eq in Hb; lia |].
  simpl; destruct (getitem t (p / b)); reflexivity.
Qed.

Lemma slot_of_allocated (t : BlockTable) (p : Z) :
  0 <= p -> p / b < len t -> slot_of w t p = Ok (spec_slot p t b).
Proof.
  intros Hp Hlt; rewrite slot_of_eq.
  rewrite (getitem_in_range t (p / b) 0); [reflexivity |].
  split; [apply Z.div_pos; lia | exact Hlt].
Qed.

Lemma slot_of_unallocated (t : BlockTable) (p : Z) :
  len t <= p / b -> slot_of w t p = Raise IndexError.
Proof.
  intros Hge; rewrite slot_of_eq, getitem_past_end by exact Hge.
  reflexivity.
Qed.

Lemma slot_of_cases (t : BlockTable) (p : Z) :
  slot_of w t p = Raise IndexError \/ exists s, slot_of w t p = Ok s.
Proof.
  rewrite slot_of_eq.
  destruct (getitem_cases t (p / b)) as [-> | (x & ->)]; simpl;
    [left | right; eexists]; reflexivity.
Qed.

Lemma slots_unallocated (t : BlockTable) (ps : list Z) (p : Z) :
  In p ps -> len t <= p / b ->
  for_each (slot_of w t) ps = Raise IndexError.
Proof.
  intros Hin Hge; apply for_each_raise.
  - intros x _; apply slot_of_cases.
  - exists p; split; [exact Hin | apply slot_of_unallocated; exact Hge].
Qed.

End Addressing.

Lemma dict_get_found {V} (d : dict V) (k : Z) (v : V) :
  lookup d k = Some v -> dict_get d k = Ok v.
Proof. unfold dict_get; intros ->; reflexivity. Qed.

(** The first sequence of a prefill group is the one its iteration reads. *)
Lemma prefill_group_first (w : Worker) (st : Locals)
  (g : SequenceGroupMetadata) (id : Z) (sd : SequenceData)
  (rest : dict SequenceData) :
  is_prompt g = true -> only_swap g = false -> seq_data g = (id, sd) :: rest ->
  prefill_group w st g
  = let st1 :=
      push_prompt (push_seq_group st (keys (seq_data g)) (sampling_params g))
        (running_inflight_tokens sd) (is_generating sd)
        (slice_to (get_token_ids sd) (running_inflight_tokens sd)) in
    match block_tables g with
    | None => Ok (push_slots st1 (replicate 0 (running_inflight_tokens sd)))
    | Some tables =>
        block_table <- dict_get tables id ;;
        slots <- prefill_slots w block_table (running_inflight_tokens sd) ;;
        Ok (push_slots st1 slots)
    end.
Proof.
  intros Hp Hs Hd; unfold prefill_group.
  rewrite Hp, Hs, Hd; simpl.
  unfold dict_get; simpl; rewrite Z.eqb_refl; reflexivity.
Qed.

Lemma clamp_hists_nonempty (w : Worker) (hists : list Z) :
  hists <> [] -> clamp_hists w hists <> [].
Proof.
  unfold clamp_hists; destruct (sliding_window w); [| trivial].
  destruct hists; [congruence | discriminate].
Qed.

Lemma in_decode_positions (sd : SequenceData) (p : Z) :
  In p (decode_positions sd) ->
  get_len sd - inflight_length sd <= p
  < get_len sd - inflight_length sd + running_inflight_tokens sd.
Proof.
  unfold decode_positions, decode_hists; rewrite map_map, in_map_iff.
  intros (i & <- & Hi); apply in_range in Hi; lia.
Qed.

(** C1. With a positive block size [b], the slot computed for a logical
    position [p] whose block [p / b] is in the block table [t] is
    [t[p / b] * b + p mod b]: by the loop body, by the prefill loop over
    [range(prompt_len)], and by the decode loop over the positions of a
    sequence; in particular at the last position [k*b - 1] of a block and at
    the first position [k*b] of the next one.  These are the slots that the
    iteration of a prefill group and the iteration of a decode sequence
    append to the slot mapping. *)
Theorem slot_contract (w : Worker) (b : Z) (t : BlockTable) :
  block_size w = Some b -> 0 < b ->
  (forall p, 0 <= p -> p / b < len t -> slot_of w t p = Ok (spec_slot p t b))
  /\ (forall prompt_len, (prompt_len - 1) / b < len t ->
        prefill_slots w t prompt_len
        = Ok (map (fun p => spec_slot p t b) (range prompt_len)))
  /\ (forall positions,
        (forall p, In p positions -> 0 <= p /\ p / b < len t) ->
        decode_slots w t positions
        = Ok (map (fun p => spec_slot p t b) positions))
  /\ (forall k, 1 <= k <= len t ->
        slot_of w t (k * b - 1)
        = Ok (nth (Z.to_nat (k - 1)) t 0 * b + (b - 1)))
  /\ (forall k, 0 <= k < len t ->
        slot_of w t (k * b) = Ok (nth (Z.to_nat k) t 0 * b))
  /\ (forall st g id sd rest tables,
        is_prompt g = true -> only_swap g = false ->
        seq_data g = (id, sd) :: rest ->
        block_tables g = Some tables -> lookup tables id = Some t ->
        (running_inflight_tokens sd - 1) / b < len t ->
        exists st',
          prefill_group w st g = Ok st'
          /\ slot_mapping st'
             = slot_mapping st
               ++ map (fun p => spec_slot p t b)
                    (range (running_inflight_tokens sd)))
  /\ (forall st g id sd tables,
        sliding_window w = None ->
        lookup (seq_data g) id = Some sd ->
        block_tables g = Some tables -> lookup tables id = Some t ->
        1 <= running_inflight_tokens sd ->
        inflight_length sd <= get_len sd ->
        (get_len sd - inflight_length sd + running_inflight_tokens sd - 1) / b
        < len t ->
        exists st',
          decode_seq w g st id = Ok st'
          /\ slot_mapping st'
             = slot_mapping st
               ++ map (fun p => spec_slot p t b) (decode_positions sd)).
Proof.
  intros Hsize Hpos.
  assert (Hprefill : forall n, (n - 1) / b < len t ->
            prefill_slots w t n
            = Ok (map (fun p => spec_slot p t b) (range n))).
  { intros n Hn; unfold prefill_slots; apply for_each_ok.
    intros p Hp; apply in_range in Hp.
    apply (slot_of_allocated w b Hsize Hpos); [lia |].
    apply Z.le_lt_trans with ((n - 1) / b); [| exact Hn].
    apply Z.div_le_mono; lia. }
  assert (Hdecode : forall ps,
            (forall p, In p ps -> 0 <= p /\ p / b < len t) ->
            decode_slots w t ps = Ok (map (fun p => spec_slot p t b) ps)).
  { intros ps Hps; unfold decode_slots; apply for_each_ok.
    intros p Hp; destruct (Hps p Hp).
    apply (slot_of_allocated w b Hsize Hpos); assumption. }
  split; [intros p Hp Hlt; apply (slot_of_allocated w b Hsize Hpos);
          assumption |].
  split; [exact Hprefill |].
  split; [exact Hdecode |].
  split; [| split; [| split]].
  - intros k Hk.
    assert (Hdiv : (k * b - 1) / b = k - 1)
      by (symmetry; apply (Z.div_unique _ _ _ (b - 1)); lia).
    assert (Hmod : (k * b - 1) mod b = b - 1)
      by (symmetry; apply (Z.mod_unique _ _ (k - 1)); lia).
    rewrite (slot_of_allocated w b Hsize Hpos) by nia.
    unfold spec_slot; rewrite Hdiv, Hmod; reflexivity.
  - intros k Hk.
    rewrite (slot_of_allocated w b Hsize Hpos);
      [| nia | rewrite Z.div_mul by lia; lia].
    unfold spec_slot; rewrite Z.div_mul, Z.mod_mul by lia.
    f_equal; lia.
  - intros st g id sd rest tables Hp Hs Hd Hbt Ht Hlast.
    rewrite (prefill_group_first w st g id sd rest Hp Hs Hd); cbv zeta.
    rewrite Hbt, (dict_get_found _ _ _ Ht); simpl.
    rewrite (Hprefill _ Hlast); simpl.
    eexists; split; reflexivity.
  - intros st g id sd tables Hsw Hd Hbt Ht Hrun Hseen Hlast.
    unfold decode_seq, block_table_of.
    rewrite (dict_get_found _ _ _ Hd); simpl.
    rewrite Hbt, (dict_get_found _ _ _ Ht); simpl.
    destruct (getitem_last (clamp_hists w (decode_hists sd))) as (h & ->).
    { apply clamp_hists_nonempty.
      unfold decode_hists, range.
      destruct (Z.to_nat (running_inflight_tokens sd)) eqn:Hn; [lia |].
      discriminate. }
    simpl; rewrite Hdecode.
    + simpl; rewrite Hsw; simpl.
      eexists; split; reflexivity.
    + intros p Hin; apply in_decode_positions in Hin.
      split; [lia |].
      apply Z.le_lt_trans with (2 := Hlast).
      apply Z.div_le_mono; lia.
Qed.

(** The contract on scenario A with its second block allocated: the slots of
    positions 3 and 4, on either side of the block boundary, the slot
    mapping of the whole prompt, and the slot of the token in flight of a
    decode sequence. *)
Lemma slot_contract_witness :
  slot_of Scenario.worker4 [7; 2] 3 = Ok 31
  /\ slot_of Scenario.worker4 [7; 2] 4 = Ok 8
  /\ prefill_slots Scenario.worker4 [7; 2] 5 = Ok [28; 29; 30; 31; 8]
  /\ decode_slots Scenario.worker4 [7; 2] [5; 6] = Ok [9; 10]
  /\ (exists st,
        prefill_group Scenario.worker4 init_locals Scenario.group_A2 = Ok st
        /\ slot_mapping st = [28; 29; 30; 31; 8])
  /\ (exists st,
        decode_seq Scenario.worker4 Scenario.group_D init_locals 2 = Ok st
        /\ slot_mapping st = [17]).
Proof.
  destruct (slot_contract Scenario.worker4 4 [7; 2] eq_refl ltac:(lia))
    as (Hbody & Hprefill & Hdecode & Hlast & Hfirst & Hgroup & _).
  destruct (slot_contract Scenario.worker4 4 [3; 4] eq_refl ltac:(lia))
    as (_ & _ & _ & _ & _ & _ & Hseq).
  split; [apply (Hlast 1); vm_compute; split; discriminate |].
  split; [apply (Hfirst 1); vm_compute; split; [discriminate | reflexivity] |].
  split; [apply (Hprefill 5); vm_compute; reflexivity |].
  split.
  { apply (Hdecode [5; 6]).
    intros p [<- | [<- | []]]; vm_compute; split;
      (discriminate || reflexivity). }
  split.
  - destruct (Hgroup init_locals Scenario.group_A2 1 Scenario.prompt5 []
                [(1, [7; 2])] eq_refl eq_refl eq_refl eq_refl eq_refl)
      as (st & Hst & Hslots); [vm_compute; reflexivity |].
    exists st; split; [exact Hst | exact Hslots].
  - destruct (Hseq init_locals Scenario.group_D 2 Scenario.decode6
                [(2, [3; 4])] eq_refl eq_refl eq_refl eq_refl)
      as (st & Hst & Hslots);
      [vm_compute; discriminate | vm_compute; discriminate
       | vm_compute; reflexivity |].
    exists st; split; [exact Hst | exact Hslots].
Defined.

(* ================================================================== *)
(** ** Faults of batch assembly *)
(* ================================================================== *)

Lemma lookup_in_keys {V} (d : dict V) (k : Z) (v : V) :
  lookup d k = Some v -> In k (keys d).
Proof.
  induction d as [| [k' v'] d IH]; simpl; [discriminate |].
  destruct (Z.eqb_spec k' k) as [-> | Hne]; intros H;
    [left; reflexivity | right; apply IH; exact H].
Qed.

Lemma prepare_inputs_nonempty (w : Worker) (gs : list SequenceGroupMetadata) :
  gs <> [] ->
  _prepare_inputs w gs = Py.bind (collect w gs) (finish w gs).
Proof. destruct gs; [congruence | reflexivity]. Qed.

(** A group on which the prefill iteration fails in every state makes batch
    assembly fail. *)
Lemma prepare_inputs_prefill_raise (w : Worker)
  (gs : list SequenceGroupMetadata) (g : SequenceGroupMetadata) :
  In g gs -> (forall st, exists e, prefill_group w st g = Raise e) ->
  exists e, _prepare_inputs w gs = Raise e.
Proof.
  intros Hin Hg.
  rewrite prepare_inputs_nonempty by (intros ->; destruct Hin).
  unfold collect, prefill_pass.
  destruct (for_fold_raise (prefill_group w) init_locals gs g Hin Hg)
    as (e & ->).
  exists e; reflexivity.
Qed.

(** The same for the decode iteration. *)
Lemma prepare_inputs_decode_raise (w : Worker)
  (gs : list SequenceGroupMetadata) (g : SequenceGroupMetadata) :
  In g gs -> (forall st, exists e, decode_group w st g = Raise e) ->
  exists e, _prepare_inputs w gs = Raise e.
Proof.
  intros Hin Hg.
  rewrite prepare_inputs_nonempty by (intros ->; destruct Hin).
  unfold collect.
  destruct (prefill_pass w init_locals gs) as [st | e]; simpl;
    [| exists e; reflexivity].
  unfold decode_pass.
  destruct (for_fold_raise (decode_group w) st gs g Hin Hg) as (e & ->).
  exists e; reflexivity.
Qed.

(** A sequence on which the inner decode iteration fails in every state
    makes the iteration of its group fail. *)
Lemma decode_group_raise (w : Worker) (g : SequenceGroupMetadata) (id : Z) :
  is_prompt g = false -> only_swap g = false -> In id (keys (seq_data g)) ->
  (forall st, exists e, decode_seq w g st id = Raise e) ->
  forall st, exists e, decode_group w st g = Raise e.
Proof.
  intros Hp Hs Hin Hseq st; unfold decode_group; rewrite Hp, Hs; simpl.
  apply (for_fold_raise _ _ _ id Hin Hseq).
Qed.

Lemma decode_hists_nonempty (sd : SequenceData) (p : Z) :
  In p (decode_positions sd) -> decode_hists sd <> [].
Proof.
  unfold decode_positions; destruct (decode_hists sd); [intros [] | discriminate].
Qed.

(** C2. With a positive block size [b], a position whose block index is not
    below the length of the block table [t] raises [IndexError]: in the loop
    body, in the prefill loop and in the decode loop; the iteration of a
    prefill group or of a decode sequence with such a position raises it,
    batch assembly raises it when that prefill group comes first, and it
    never returns when a group with such a position is anywhere in the
    list.  Scenario A, a prompt of 5 tokens with block size 4 and the block
    table [[7]], raises [IndexError]. *)
Theorem addressing_fault (w : Worker) (b : Z) (t : BlockTable) :
  block_size w = Some b -> 0 < b ->
  (forall p, len t <= p / b -> slot_of w t p = Raise IndexError)
  /\ (forall prompt_len p, 0 <= p < prompt_len -> len t <= p / b ->
        prefill_slots w t prompt_len = Raise IndexError)
  /\ (forall positions p, In p positions -> len t <= p / b ->
        decode_slots w t positions = Raise IndexError)
  /\ (forall g id sd rest tables p,
        is_prompt g = true -> only_swap g = false ->
        seq_data g = (id, sd) :: rest ->
        block_tables g = Some tables -> lookup tables id = Some t ->
        0 <= p < running_inflight_tokens sd -> len t <= p / b ->
        (forall st, prefill_group w st g = Raise IndexError)
        /\ (forall gs, _prepare_inputs w (g :: gs) = Raise IndexError)
        /\ (forall gs, In g gs -> exists e, _prepare_inputs w gs = Raise e))
  /\ (forall g id sd tables p,
        is_prompt g = false -> only_swap g = false ->
        lookup (seq_data g) id = Some sd ->
        block_tables g = Some tables -> lookup tables id = Some t ->
        In p (decode_positions sd) -> len t <= p / b ->
        (forall st, decode_seq w g st id = Raise IndexError)
        /\ (forall gs, In g gs -> exists e, _prepare_inputs w gs = Raise e))
  /\ _prepare_inputs Scenario.worker4 [Scenario.group_A] = Raise IndexError.
Proof.
  intros Hsize Hpos.
  assert (Hprefill : forall n p, 0 <= p < n -> len t <= p / b ->
            prefill_slots w t n = Raise IndexError).
  { intros n p Hp Hge; unfold prefill_slots.
    apply (slots_unallocated w b Hsize Hpos t _ p); [| exact Hge].
    apply in_range; exact Hp. }
  assert (Hdecode : forall ps p, In p ps -> len t <= p / b ->
            decode_slots w t ps = Raise IndexError).
  { intros ps p Hin Hge; unfold decode_slots.
    apply (slots_unallocated w b Hsize Hpos t _ p); assumption. }
  split; [intros p Hge; apply (slot_of_unallocated w b Hsize Hpos); exact Hge |].
  split; [exact Hprefill |].
  split; [exact Hdecode |].
  split; [| split; [| reflexivity]].
  - intros g id sd rest tables p Hp Hs Hd Hbt Ht Hrange Hge.
    assert (Hgroup : forall st, prefill_group w st g = Raise IndexError).
    { intros st.
      rewrite (prefill_group_first w st g id sd rest Hp Hs Hd); cbv zeta.
      rewrite Hbt, (dict_get_found _ _ _ Ht); simpl.
      rewrite (Hprefill _ p Hrange Hge); reflexivity. }
    split; [exact Hgroup |].
    split.
    + intros gs; unfold _prepare_inputs, collect, prefill_pass; simpl.
      rewrite Hgroup; reflexivity.
    + intros gs Hin; apply (prepare_inputs_prefill_raise w gs g Hin).
      intros st; exists IndexError; apply Hgroup.
  - intros g id sd tables p Hp Hs Hd Hbt Ht Hin Hge.
    assert (Hseq : forall st, decode_seq w g st id = Raise IndexError).
    { intros st; unfold decode_seq, block_table_of.
      rewrite (dict_get_found _ _ _ Hd); simpl.
      rewrite Hbt, (dict_get_found _ _ _ Ht); simpl.
      destruct (getitem_last (clamp_hists w (decode_hists sd)))
        as (h & ->);
        [apply clamp_hists_nonempty, (decode_hists_nonempty sd p Hin) |].
      simpl; rewrite (Hdecode _ p Hin Hge); reflexivity. }
    split; [exact Hseq |].
    intros gs Hgs; apply (prepare_inputs_decode_raise w gs g Hgs).
    apply (decode_group_raise w g id Hp Hs (lookup_in_keys _ _ _ Hd)).
    intros st; exists IndexError; apply Hseq.
Qed.

(** Scenario A through the general statement: position 4 of the prompt, in
    logical block 1 of a one-entry block table. *)
Lemma addressing_fault_witness :
  slot_of Scenario.worker4 [7] 4 = Raise IndexError
  /\ _prepare_inputs Scenario.worker4 [Scenario.group_A] = Raise IndexError.
Proof.
  destruct (addressing_fault Scenario.worker4 4 [7] eq_refl ltac:(lia))
    as (Hbody & _ & _ & Hgroup & _).
  split; [apply Hbody; vm_compute; discriminate |].
  destruct (Hgroup Scenario.group_A 1 Scenario.prompt5 [] [(1, [7])] 4
              eq_refl eq_refl eq_refl eq_refl eq_refl)
    as (_ & Hfirst & _).
  - vm_compute; split; [discriminate | reflexivity].
  - vm_compute; discriminate.
  - apply Hfirst.
Defined.

(* ================================================================== *)
(** ** The merged [seq_data] map *)
(* ================================================================== *)

Lemma lookup_dict_set {V} (d : dict V) (k k' : Z) (v : V) :
  lookup (dict_set d k v) k' = if k =? k' then Some v else lookup d k'.
Proof.
  induction d as [| [k0 v0] d IH]; simpl; [reflexivity |].
  destruct (Z.eqb_spec k0 k) as [-> | Hne]; simpl.
  - destruct (k =? k'); reflexivity.
  - rewrite IH.
    destruct (Z.eqb_spec k0 k') as [-> | Hne']; [| reflexivity].
    destruct (Z.eqb_spec k k'); [congruence | reflexivity].
Qed.

Lemma contains_dict_set {V} (d : dict V) (k k' : Z) (v : V) :
  contains (dict_set d k v) k' = (k =? k') || contains d k'.
Proof.
  unfold contains; rewrite lookup_dict_set.
  destruct (k =? k'); reflexivity.
Qed.

Lemma contains_update {V} (acc d : dict V) (k : Z) :
  contains (update acc d) k = true <-> contains acc k = true \/ In k (keys d).
Proof.
  unfold update; revert acc.
  induction d as [| [k0 v0] d IH]; intros acc; simpl.
  - tauto.
  - rewrite IH, contains_dict_set, orb_true_iff, Z.eqb_eq; tauto.
Qed.

Lemma contains_false_iff {V} (d : dict V) (k : Z) :
  contains d k = false <-> ~ In k (keys d).
Proof.
  unfold contains; induction d as [| [k0 v0] d IH]; simpl; [tauto |].
  destruct (Z.eqb_spec k0 k) as [-> | Hne]; [| tauto].
  split; [discriminate | intros H; exfalso; apply H; left; reflexivity].
Qed.

(** The loop of assertions at lines 357-358. *)
Lemma assert_absent_cases {V} (acc : dict V) (ks : list Z) :
  (for_fold (fun (_ : unit) k => assert_that (negb (contains acc k))) tt ks
   = Ok tt
   /\ forall k, In k ks -> contains acc k = false)
  \/ (for_fold (fun (_ : unit) k => assert_that (negb (contains acc k))) tt ks
      = Raise AssertionError
      /\ exists k, In k ks /\ contains acc k = true).
Proof.
  induction ks as [| k ks IH]; simpl.
  - left; split; [reflexivity | intros k []].
  - destruct (contains acc k) eqn:Hk; simpl.
    + right; split; [reflexivity | exists k; auto].
    + destruct IH as [(-> & Hall) | (-> & k' & Hin & Hk')].
      * left; split; [reflexivity | intros k' [<- | Hin]; auto].
      * right; split; [reflexivity | exists k'; auto].
Qed.

Lemma merge_seq_data_ok (acc acc' : dict SequenceData)
  (g : SequenceGroupMetadata) :
  merge_seq_data acc g = Ok acc' ->
  (only_swap g = true /\ acc' = acc)
  \/ (only_swap g = false
      /\ (forall k, In k (keys (seq_data g)) -> contains acc k = false)
      /\ acc' = update acc (seq_data g)).
Proof.
  unfold merge_seq_data; destruct (only_swap g).
  - intros H; injection H as <-; left; auto.
  - destruct (assert_absent_cases acc (keys (seq_data g)))
      as [(-> & Hall) | (-> & _)]; simpl; [| discriminate].
    intros H; injection H as <-; right; auto.
Qed.

Lemma merge_seq_data_raise (acc : dict SequenceData)
  (g : SequenceGroupMetadata) (e : exn) :
  merge_seq_data acc g = Raise e -> e = AssertionError.
Proof.
  unfold merge_seq_data; destruct (only_swap g); [discriminate |].
  destruct (assert_absent_cases acc (keys (seq_data g)))
    as [(-> & _) | (-> & _)]; simpl; congruence.
Qed.

Lemma merge_loop_raise (gs : list SequenceGroupMetadata)
  (acc : dict SequenceData) (e : exn) :
  for_fold merge_seq_data acc gs = Raise e -> e = AssertionError.
Proof.
  revert acc; induction gs as [| g gs IH]; intros acc; simpl; [discriminate |].
  destruct (merge_seq_data acc g) as [acc' | e'] eqn:Hg; simpl.
  - apply IH.
  - intros H; injection H as <-; apply (merge_seq_data_raise acc g); exact Hg.
Qed.

(** When the merge loop completes, no group that is not swap-only has a key
    that was already merged, before the loop or by an earlier group. *)
Lemma merge_loop_ok (gs : list SequenceGroupMetadata)
  (acc m : dict SequenceData) :
  for_fold merge_seq_data acc gs = Ok m ->
  (forall i gi k, nth_error gs i = Some gi -> only_swap gi = false ->
     In k (keys (seq_data gi)) -> contains acc k = false)
  /\ ~ shares_seq_id gs.
Proof.
  revert acc; induction gs as [| g gs IH]; intros acc H; simpl in H.
  - split.
    + intros [| i] gi k Hi; discriminate Hi.
    + intros (i & j & gi & gj & k & _ & Hi & _); destruct i; discriminate Hi.
  - apply bind_ok in H as (acc' & Hg & H).
    destruct (IH acc' H) as (Hlater & Hdisj).
    assert (Hmono : forall k, contains acc' k = false -> contains acc k = false).
    { intros k Hk.
      destruct (merge_seq_data_ok acc acc' g Hg) as [(_ & ->) | (_ & _ & ->)];
        [exact Hk |].
      destruct (contains acc k) eqn:Hc; [| reflexivity].
      rewrite <- Hk; symmetry; apply contains_update; left; exact Hc. }
    split.
    + intros [| i] gi k Hi Hs Hin; simpl in Hi.
      * injection Hi as <-.
        destruct (merge_seq_data_ok acc acc' g Hg) as [(Hs' & _) | (_ & Ha & _)];
          [congruence | apply Ha; exact Hin].
      * apply Hmono, (Hlater i gi k Hi Hs Hin).
    + intros (i & j & gi & gj & k & Hlt & Hi & Hj & Hsi & Hsj & Hki & Hkj).
      destruct j as [| j]; [lia |]; simpl in Hj.
      destruct i as [| i]; simpl in Hi.
      * injection Hi as <-.
        destruct (merge_seq_data_ok acc acc' g Hg)
          as [(Hs' & _) | (_ & _ & ->)]; [congruence |].
        pose proof (Hlater j gj k Hj Hsj Hkj) as Hk.
        assert (Hk' : contains (update acc (seq_data g)) k = true)
          by (apply contains_update; right; exact Hki).
        congruence.
      * apply Hdisj; exists i, j, gi, gj, k; repeat split; auto; lia.
Qed.

Lemma pad_to_alignment_8 (x : list Z) :
  _pad_to_alignment x 8 = Ok (x ++ replicate 0 ((- len x) mod 8)).
Proof. reflexivity. Qed.

(** What [finish] does when tokens were collected. *)
Lemma finish_nonempty (w : Worker) (gs : list SequenceGroupMetadata)
  (st : Locals) :
  input_tokens st <> [] ->
  finish w gs st
  = (merged <- for_fold merge_seq_data [] gs ;;
     assert_that (len (is_generating_new_token st) =? len (seq_groups st)) ;;;
     Ok (Some (mkBatch
                 (input_tokens st
                  ++ replicate 0 ((- len (input_tokens st)) mod 8))
                 (input_positions st
                  ++ replicate 0 ((- len (input_positions st)) mod 8))
                 (mkInputMetadata (seq_groups st) merged (prompt_lens st)
                    (slot_mapping st) (context_lens st) (max_context_len st)
                    (map (fun t => _pad_to_max t (max_num_blocks_per_seq st))
                       (generation_block_tables st))
                    (running_query_lens st)
                    match running_query_lens st with
                    | [] => []
                    | _ :: _ => descriptors st
                    end
                    (is_generating_new_token st) (sliding_window w))))).
Proof.
  unfold finish; destruct (input_tokens st) eqn:Ht; [congruence |].
  intros _; rewrite !pad_to_alignment_8; reflexivity.
Qed.

(** A batch that is returned comes from the two passes, with tokens. *)
Lemma prepare_inputs_some (w : Worker) (gs : list SequenceGroupMetadata)
  (batch : Batch) :
  _prepare_inputs w gs = Ok (Some batch) ->
  exists st, collect w gs = Ok st /\ input_tokens st <> []
             /\ finish w gs st = Ok (Some batch).
Proof.
  intros H; destruct gs as [| g gs]; [discriminate H |].
  rewrite prepare_inputs_nonempty in H by discriminate.
  apply bind_ok in H as (st & Hc & Hf).
  exists st; repeat split; auto.
  intros Ht; unfold finish in Hf; rewrite Ht in Hf; discriminate Hf.
Qed.

(** C3, as the code has it.  When some sequence id occurs in the [seq_data]
    of two distinct groups that are not swap-only, batch assembly never
    returns a batch; when both passes complete and have collected at least
    one input token, it raises [AssertionError]; and when they complete
    without an input token, it returns the empty batch, before the check is
    reached. *)
Theorem duplicate_id_never_assembled (w : Worker)
  (gs : list SequenceGroupMetadata) :
  shares_seq_id gs ->
  (forall batch, _prepare_inputs w gs <> Ok (Some batch))
  /\ (forall st, collect w gs = Ok st -> input_tokens st <> [] ->
        _prepare_inputs w gs = Raise AssertionError)
  /\ (forall st, collect w gs = Ok st -> input_tokens st = [] ->
        _prepare_inputs w gs = Ok None).
Proof.
  intros Hdup.
  assert (Hmerge : for_fold merge_seq_data [] gs = Raise AssertionError).
  { destruct (for_fold merge_seq_data [] gs) as [m | e] eqn:Hm.
    - destruct (merge_loop_ok gs [] m Hm) as (_ & Hno); contradiction.
    - f_equal; apply (merge_loop_raise gs [] e Hm). }
  assert (Hgs : gs <> []).
  { intros ->; destruct Hdup as (i & j & gi & gj & k & _ & Hi & _).
    destruct i; discriminate Hi. }
  split; [| split].
  - intros batch H.
    apply prepare_inputs_some in H as (st & _ & Ht & Hf).
    rewrite (finish_nonempty w gs st Ht), Hmerge in Hf; discriminate Hf.
  - intros st Hc Ht.
    rewrite (prepare_inputs_nonempty w gs Hgs), Hc; simpl.
    rewrite (finish_nonempty w gs st Ht), Hmerge; reflexivity.
  - intros st Hc Ht.
    rewrite (prepare_inputs_nonempty w gs Hgs), Hc; simpl.
    unfold finish; rewrite Ht; reflexivity.
Qed.

(** Sequence id 1 in a prompt group and in a decode group of one step. *)
Lemma duplicate_id_never_assembled_witness :
  _prepare_inputs Scenario.worker4 [Scenario.group_A2; Scenario.group_D1]
  = Raise AssertionError.
Proof.
  assert (Hdup : shares_seq_id [Scenario.group_A2; Scenario.group_D1]).
  { exists 0%nat, 1%nat, Scenario.group_A2, Scenario.group_D1, 1.
    simpl; repeat split; auto. }
  destruct (duplicate_id_never_assembled Scenario.worker4 _ Hdup)
    as (_ & H & _).
  eapply H; [reflexivity | vm_compute; discriminate].
Defined.

(** C3, as stated, fails: two groups that are not swap-only carry sequence
    id 1, none of their tokens is forwarded in this step, and batch assembly
    returns the empty batch without raising. *)
Lemma duplicate_id_without_tokens :
  shares_seq_id [Scenario.group_W1; Scenario.group_W2]
  /\ _prepare_inputs Scenario.worker4 [Scenario.group_W1; Scenario.group_W2]
     = Ok None.
Proof.
  split; [| reflexivity].
  exists 0%nat, 1%nat, Scenario.group_W1, Scenario.group_W2, 1.
  simpl; repeat split; auto.
Qed.

(* ================================================================== *)
(** ** What the two passes collect *)
(* ================================================================== *)

Lemma clamp_bound_range (n i : Z) : 0 <= n -> 0 <= clamp_bound n i <= n.
Proof. unfold clamp_bound; destruct (i <? 0); lia. Qed.

Lemma clamp_bound_inside (n i : Z) : 0 <= i <= n -> clamp_bound n i = i.
Proof.
  intros Hi; unfold clamp_bound.
  destruct (i <? 0) eqn:Hneg; [apply Z.ltb_lt in Hneg; lia | lia].
Qed.

Lemma len_slice {A} (l : list A) (lo hi : Z) :
  len (slice l lo hi)
  = Z.max 0 (clamp_bound (len l) hi - clamp_bound (len l) lo).
Proof.
  unfold slice.
  pose proof (clamp_bound_range (len l) lo (len_nonneg l)) as Hlo.
  pose proof (clamp_bound_range (len l) hi (len_nonneg l)) as Hhi.
  unfold len in *; rewrite length_firstn, length_skipn; lia.
Qed.

Lemma len_slice_inside {A} (l : list A) (lo n : Z) :
  0 <= lo -> 0 <= n -> lo + n <= len l -> len (slice l lo (lo + n)) = n.
Proof.
  intros Hlo Hn Hhi; rewrite len_slice, !clamp_bound_inside by lia; lia.
Qed.

Lemma len_for_each {A B} (f : A -> result B) (l : list A) (ys : list B) :
  for_each f l = Ok ys -> len ys = len l.
Proof. intros H; unfold len; rewrite (for_each_length f l ys H); reflexivity. Qed.

Lemma extends_refl (st : Locals) : extends st st [] [] [].
Proof. unfold extends; rewrite !app_nil_r; auto. Qed.

Lemma extends_trans (st st1 st2 : Locals) (a b c a' b' c' : list Z) :
  extends st st1 a b c -> extends st1 st2 a' b' c' ->
  extends st st2 (a ++ a') (b ++ b') (c ++ c').
Proof.
  unfold extends; intros (H1 & H2 & H3) (H1' & H2' & H3').
  rewrite H1', H2', H3', H1, H2, H3, !app_assoc; auto.
Qed.

Lemma len_decode_positions (sd : SequenceData) :
  len (decode_positions sd) = Z.max 0 (running_inflight_tokens sd).
Proof.
  unfold decode_positions, decode_hists; rewrite !len_map; apply len_range.
Qed.

Lemma len_inflight_decode_tokens (sd : SequenceData) :
  consistent sd ->
  len (inflight_decode_tokens sd) = running_inflight_tokens sd.
Proof.
  intros (H0 & H1 & H2); unfold inflight_decode_tokens.
  apply len_slice_inside; lia.
Qed.

Lemma len_inflight_prompt_tokens (g : SequenceGroupMetadata) (id : Z)
  (sd : SequenceData) (rest : dict SequenceData) :
  seq_data g = (id, sd) :: rest -> consistent sd ->
  len (inflight_prompt_tokens g) = running_inflight_tokens sd.
Proof.
  intros Hd (H0 & H1 & H2); unfold inflight_prompt_tokens, slice_to.
  rewrite Hd; apply (len_slice_inside (token_ids sd) 0); lia.
Qed.

(** The prefill iteration of a group that is not a prefill group. *)
Lemma prefill_group_skip (w : Worker) (st : Locals)
  (g : SequenceGroupMetadata) :
  is_prefill g = false -> prefill_group w st g = Ok st.
Proof.
  unfold is_prefill, prefill_group.
  destruct (is_prompt g), (only_swap g); simpl; congruence.
Qed.

Lemma decode_group_skip (w : Worker) (st : Locals)
  (g : SequenceGroupMetadata) :
  is_decode g = false -> decode_group w st g = Ok st.
Proof.
  unfold is_decode, decode_group.
  destruct (is_prompt g), (only_swap g); simpl; congruence.
Qed.

Lemma is_prefill_true (g : SequenceGroupMetadata) :
  is_prefill g = true -> is_prompt g = true /\ only_swap g = false.
Proof.
  unfold is_prefill; destruct (is_prompt g), (only_swap g); simpl; auto;
    discriminate.
Qed.

Lemma is_decode_true (g : SequenceGroupMetadata) :
  is_decode g = true -> is_prompt g = false /\ only_swap g = false.
Proof.
  unfold is_decode; destruct (is_prompt g), (only_swap g); simpl; auto;
    discriminate.
Qed.

(** What one prefill iteration appends. *)
Lemma prefill_group_extends (w : Worker) (st st' : Locals)
  (g : SequenceGroupMetadata) :
  prefill_group w st g = Ok st' ->
  exists slots,
    extends st st'
      (if is_prefill g then inflight_prompt_tokens g else [])
      (if is_prefill g then range (len (inflight_prompt_tokens g)) else [])
      slots
    /\ (well_formed g ->
        len slots = len (if is_prefill g then inflight_prompt_tokens g else []))
    /\ (block_tables g = None -> Forall (eq 0) slots).
Proof.
  destruct (is_prefill g) eqn:Hpre.
  - destruct (is_prefill_true g Hpre) as (Hp & Hs).
    destruct (seq_data g) as [| [id sd] rest] eqn:Hd.
    + unfold prefill_group; rewrite Hp, Hs, Hd; simpl; discriminate.
    + rewrite (prefill_group_first w st g id sd rest Hp Hs Hd); cbv zeta.
      assert (Htoks : inflight_prompt_tokens g
                      = slice_to (token_ids sd) (running_inflight_tokens sd))
        by (unfold inflight_prompt_tokens; rewrite Hd; reflexivity).
      assert (Hwf : forall slots : list Z, well_formed g ->
                len slots = Z.max 0 (running_inflight_tokens sd) ->
                len slots = len (inflight_prompt_tokens g)).
      { intros slots (_ & Hall) Hlen; rewrite Hd in Hall; simpl in Hall.
        inversion Hall as [| ? ? Hsd _]; subst.
        rewrite (len_inflight_prompt_tokens g id sd rest Hd Hsd), Hlen.
        destruct Hsd; lia. }
      destruct (block_tables g) as [tables |] eqn:Hbt.
      * intros H; apply bind_ok in H as (t & _ & H).
        apply bind_ok in H as (slots & Hslots & H); injection H as <-.
        exists slots; rewrite Htoks; repeat split; simpl; auto;
          [| discriminate].
        intros Hg; rewrite <- Htoks; apply (Hwf slots Hg).
        rewrite (len_for_each _ _ _ Hslots); apply len_range.
      * intros H; injection H as <-.
        exists (replicate 0 (running_inflight_tokens sd)).
        rewrite Htoks; repeat split; simpl; auto.
        -- intros Hg; rewrite <- Htoks; apply (Hwf _ Hg), len_replicate.
        -- intros _; apply Forall_forall; intros x Hx.
           symmetry; apply (repeat_spec _ _ _ Hx).
  - rewrite (prefill_group_skip w st g Hpre); intros H; injection H as <-.
    exists []; repeat split; try apply extends_refl; auto.
Qed.

Lemma prefill_pass_extends (w : Worker) (gs : list SequenceGroupMetadata) :
  forall st st', prefill_pass w st gs = Ok st' ->
  exists slots,
    extends st st'
      (flat_map inflight_prompt_tokens (filter is_prefill gs))
      (flat_map (fun g => range (len (inflight_prompt_tokens g)))
         (filter is_prefill gs))
      slots
    /\ (Forall well_formed gs ->
        len slots
        = len (flat_map inflight_prompt_tokens (filter is_prefill gs)))
    /\ ((forall g, In g gs -> block_tables g = None) -> Forall (eq 0) slots).
Proof.
  unfold prefill_pass; induction gs as [| g gs IH]; intros st st' H; simpl in H.
  - injection H as <-; exists []; repeat split; auto; apply extends_refl.
  - apply bind_ok in H as (st1 & Hg & H).
    destruct (prefill_group_extends w st st1 g Hg) as (s1 & He1 & Hl1 & Hz1).
    destruct (IH st1 st' H) as (s2 & He2 & Hl2 & Hz2).
    exists (s1 ++ s2); split; [| split].
    + simpl; destruct (is_prefill g); simpl;
        [apply (extends_trans st st1 st' _ _ _ _ _ _ He1 He2)
        | apply (extends_trans st st1 st' [] [] _ _ _ _ He1 He2)].
    + intros Hall; inversion Hall; subst.
      rewrite len_app, Hl1, Hl2 by assumption.
      simpl; destruct (is_prefill g); simpl; [rewrite len_app |]; reflexivity.
    + intros Hnone; apply Forall_app; split;
        [apply Hz1, Hnone; left; reflexivity
        | apply Hz2; intros g' Hg'; apply Hnone; right; exact Hg'].
Qed.

Lemma dict_lookup_in {V} (d : dict V) (k : Z) (v : V) :
  is_dict d -> In (k, v) d -> lookup d k = Some v.
Proof.
  unfold is_dict; induction d as [| [k0 v0] d IH]; simpl; [intros _ [] |].
  intros Hnd [Heq | Hin]; inversion Hnd as [| ? ? Hnotin Hnd']; subst.
  - injection Heq as -> ->; rewrite Z.eqb_refl; reflexivity.
  - destruct (Z.eqb_spec k0 k) as [-> | Hne]; [| apply IH; assumption].
    exfalso; apply Hnotin; apply in_map_iff; exists (k, v); auto.
Qed.

(** What one iteration of the inner decode loop appends. *)
Lemma decode_seq_extends (w : Worker) (g : SequenceGroupMetadata)
  (st st' : Locals) (id : Z) (sd : SequenceData) :
  lookup (seq_data g) id = Some sd ->
  decode_seq w g st id = Ok st' ->
  exists slots,
    extends st st' (inflight_decode_tokens sd) (decode_positions sd) slots
    /\ len slots = len (decode_positions sd).
Proof.
  intros Hd; unfold decode_seq; rewrite (dict_get_found _ _ _ Hd); simpl.
  intros H.
  apply bind_ok in H as (t & _ & H).
  apply bind_ok in H as (h & _ & H).
  apply bind_ok in H as (slots & Hslots & H).
  apply bind_ok in H as ([] & Hassert & H).
  destruct (sliding_window w); [discriminate Hassert |].
  injection H as <-.
  exists slots; split; [repeat split |].
  apply (len_for_each _ _ _ Hslots).
Qed.

Lemma decode_seqs_extends (w : Worker) (g : SequenceGroupMetadata)
  (d : dict SequenceData) :
  (forall k v, In (k, v) d -> lookup (seq_data g) k = Some v) ->
  forall st st', for_fold (decode_seq w g) st (keys d) = Ok st' ->
  exists slots,
    extends st st' (flat_map inflight_decode_tokens (map snd d))
      (flat_map decode_positions (map snd d)) slots
    /\ (Forall consistent (map snd d) ->
        len slots = len (flat_map inflight_decode_tokens (map snd d))).
Proof.
  induction d as [| [k v] d IH]; intros Hd st st' H; simpl in H.
  - injection H as <-; exists []; split; [apply extends_refl | reflexivity].
  - apply bind_ok in H as (st1 & H1 & H).
    destruct (decode_seq_extends w g st st1 k v (Hd k v (or_introl eq_refl)) H1)
      as (s1 & He1 & Hl1).
    destruct (IH (fun k' v' Hin => Hd k' v' (or_intror Hin)) st1 st' H)
      as (s2 & He2 & Hl2).
    exists (s1 ++ s2); split.
    + apply (extends_trans st st1 st' _ _ _ _ _ _ He1 He2).
    + simpl; intros Hall; inversion Hall as [| ? ? Hv Hrest]; subst.
      rewrite !len_app, Hl1, (Hl2 Hrest), len_decode_positions.
      rewrite (len_inflight_decode_tokens v Hv).
      destruct Hv; lia.
Qed.

(** What one iteration of the outer decode loop appends. *)
Lemma decode_group_extends (w : Worker) (st st' : Locals)
  (g : SequenceGroupMetadata) :
  is_dict (seq_data g) ->
  decode_group w st g = Ok st' ->
  exists slots,
    extends st st'
      (flat_map inflight_decode_tokens
         (if is_decode g then map snd (seq_data g) else []))
      (flat_map decode_positions
         (if is_decode g then map snd (seq_data g) else []))
      slots
    /\ (well_formed g ->
        len slots
        = len (flat_map inflight_decode_tokens
                 (if is_decode g then map snd (seq_data g) else []))).
Proof.
  intros Hdict; destruct (is_decode g) eqn:Hdec.
  - destruct (is_decode_true g Hdec) as (Hp & Hs).
    unfold decode_group; rewrite Hp, Hs; simpl; intros H.
    destruct (decode_seqs_extends w g (seq_data g)
                (fun k v => dict_lookup_in (seq_data g) k v Hdict) _ _ H)
      as (slots & He & Hl).
    exists slots; split; [exact He | intros (_ & Hall); apply Hl, Hall].
  - rewrite (decode_group_skip w st g Hdec); intros H; injection H as <-.
    exists []; split; [apply extends_refl | reflexivity].
Qed.

Lemma decode_pass_extends (w : Worker) (gs : list SequenceGroupMetadata) :
  Forall (fun g => is_dict (seq_data g)) gs ->
  forall st st', decode_pass w st gs = Ok st' ->
  exists slots,
    extends st st' (flat_map inflight_decode_tokens (decode_sequences gs))
      (flat_map decode_positions (decode_sequences gs)) slots
    /\ (Forall well_formed gs ->
        len slots
        = len (flat_map inflight_decode_tokens (decode_sequences gs))).
Proof.
  unfold decode_pass, decode_sequences.
  induction gs as [| g gs IH]; intros Hdict st st' H; simpl in H.
  - injection H as <-; exists []; split; [apply extends_refl | reflexivity].
  - inversion Hdict as [| ? ? Hg Hgs]; subst.
    apply bind_ok in H as (st1 & H1 & H).
    destruct (decode_group_extends w st st1 g Hg H1) as (s1 & He1 & Hl1).
    destruct (IH Hgs st1 st' H) as (s2 & He2 & Hl2).
    assert (Heq : flat_map (fun g0 => map snd (seq_data g0))
                    (filter is_decode (g :: gs))
                  = (if is_decode g then map snd (seq_data g) else [])
                    ++ flat_map (fun g0 => map snd (seq_data g0))
                         (filter is_decode gs))
      by (simpl; destruct (is_decode g); reflexivity).
    rewrite Heq, !flat_map_app.
    exists (s1 ++ s2); split.
    + apply (extends_trans st st1 st' _ _ _ _ _ _ He1 He2).
    + intros Hall; inversion Hall; subst.
      rewrite !len_app, Hl1, Hl2 by assumption; reflexivity.
Qed.

(** The tokens, positions and slots that the two passes collect. *)
Lemma collect_extends (w : Worker) (gs : list SequenceGroupMetadata)
  (st : Locals) :
  Forall (fun g => is_dict (seq_data g)) gs ->
  collect w gs = Ok st ->
  input_tokens st = expected_tokens gs
  /\ input_positions st = expected_positions gs
  /\ (Forall well_formed gs -> len (slot_mapping st) = len (input_tokens st))
  /\ ((forall g, In g gs -> is_prefill g = true /\ block_tables g = None) ->
      Forall (eq 0) (slot_mapping st)).
Proof.
  intros Hdict H; unfold collect in H.
  apply bind_ok in H as (st1 & Hpre & Hdec).
  destruct (prefill_pass_extends w gs _ _ Hpre) as (s1 & He1 & Hl1 & Hz1).
  destruct (decode_pass_extends w gs Hdict _ _ Hdec) as (s2 & He2 & Hl2).
  destruct (extends_trans _ _ _ _ _ _ _ _ _ He1 He2) as (Ht & Hp & Hs).
  simpl in Ht, Hp, Hs.
  split; [exact Ht | split; [exact Hp | split]].
  - intros Hwf; rewrite Hs, Ht, !len_app, Hl1, Hl2 by assumption; reflexivity.
  - intros Hprofile; rewrite Hs.
    apply Forall_app; split; [apply Hz1; intros g Hg; apply Hprofile, Hg |].
    destruct He2 as (_ & _ & Hs2).
    assert (Hst1 : decode_pass w st1 gs = Ok st1).
    { unfold decode_pass; clear -Hprofile.
      induction gs as [| g gs IH]; simpl; [reflexivity |].
      rewrite decode_group_skip; simpl.
      - apply IH; intros g' Hg'; apply Hprofile; right; exact Hg'.
      - destruct (Hprofile g (or_introl eq_refl)) as (Hpf & _).
        apply is_prefill_true in Hpf as (Hp' & _).
        unfold is_decode; rewrite Hp'; reflexivity. }
    rewrite Hst1 in Hdec; injection Hdec as <-.
    apply (f_equal (@List.length Z)) in Hs2.
    rewrite length_app in Hs2.
    destruct s2; [constructor | simpl in Hs2; lia].
Qed.

(* ================================================================== *)
(** ** The assembled batch *)
(* ================================================================== *)

Lemma padded_length_multiple (n : Z) : (n + (- n) mod 8) mod 8 = 0.
Proof.
  rewrite Zplus_mod_idemp_r.
  replace (n + - n) with 0 by lia; reflexivity.
Qed.

Lemma well_formed_dicts (gs : list SequenceGroupMetadata) :
  Forall well_formed gs -> Forall (fun g => is_dict (seq_data g)) gs.
Proof. apply Forall_impl; intros g (Hd & _); exact Hd. Qed.

Lemma all_zero_replicate (l : list Z) :
  Forall (eq 0) l -> l = replicate 0 (len l).
Proof.
  unfold replicate, len; rewrite Nat2Z.id.
  induction 1 as [| x l <- _ IH]; simpl; [reflexivity | f_equal; exact IH].
Qed.

(** The fields of a returned batch, from the lists that the passes built. *)
Lemma finish_some (w : Worker) (gs : list SequenceGroupMetadata)
  (st : Locals) (batch : Batch) :
  finish w gs st = Ok (Some batch) ->
  tokens_tensor batch
  = input_tokens st ++ replicate 0 ((- len (input_tokens st)) mod 8)
  /\ positions_tensor batch
     = input_positions st ++ replicate 0 ((- len (input_positions st)) mod 8)
  /\ im_slot_mapping (input_metadata batch) = slot_mapping st
  /\ input_tokens st <> [].
Proof.
  intros H.
  assert (Ht : input_tokens st <> [])
    by (intros Ht; unfold finish in H; rewrite Ht in H; discriminate H).
  rewrite (finish_nonempty w gs st Ht) in H.
  apply bind_ok in H as (merged & _ & H).
  apply bind_ok in H as ([] & _ & H).
  injection H as <-; simpl; auto.
Qed.

(** C4. When batch assembly returns a batch, the token array is the
    concatenation of the in-flight prompt tokens of the prefill groups, in
    order, followed by the in-flight tokens of the decode sequences, in
    order, followed by fewer than 8 zeros; the position array is the
    positions of the same tokens followed by fewer than 8 zeros; and the
    length of both arrays is a multiple of 8. *)
Theorem batch_tokens_padded (w : Worker) (gs : list SequenceGroupMetadata)
  (batch : Batch) :
  Forall (fun g => is_dict (seq_data g)) gs ->
  _prepare_inputs w gs = Ok (Some batch) ->
  exists pad_tokens pad_positions,
    0 <= pad_tokens < 8 /\ 0 <= pad_positions < 8
    /\ tokens_tensor batch = expected_tokens gs ++ replicate 0 pad_tokens
    /\ positions_tensor batch
       = expected_positions gs ++ replicate 0 pad_positions
    /\ len (tokens_tensor batch) mod 8 = 0
    /\ len (positions_tensor batch) mod 8 = 0
    /\ expected_tokens gs <> [].
Proof.
  intros Hdict H.
  apply prepare_inputs_some in H as (st & Hc & _ & Hf).
  destruct (collect_extends w gs st Hdict Hc) as (Ht & Hp & _).
  destruct (finish_some w gs st batch Hf) as (Htok & Hpos & _ & Hne).
  rewrite Ht in Htok, Hne; rewrite Hp in Hpos.
  exists ((- len (expected_tokens gs)) mod 8),
         ((- len (expected_positions gs)) mod 8).
  split; [apply Z.mod_pos_bound; lia |].
  split; [apply Z.mod_pos_bound; lia |].
  split; [exact Htok |].
  split; [exact Hpos |].
  rewrite Htok, Hpos, !len_app, !len_replicate.
  rewrite !Z.max_r by (apply Z.mod_pos_bound; lia).
  rewrite !padded_length_multiple; auto.
Qed.

(** C10, as the code has it.  When batch assembly returns a batch for
    well-formed groups, those whose sequences have consistent counters, the
    slot mapping has one entry per token collected by the two passes: its
    length is the number of tokens before padding, and the token array is
    longer by the padding alone.  When the groups are those of the profiler,
    prompts without block tables, every entry is the placeholder 0. *)
Theorem slot_mapping_unpadded (w : Worker) (gs : list SequenceGroupMetadata)
  (batch : Batch) :
  Forall well_formed gs ->
  _prepare_inputs w gs = Ok (Some batch) ->
  let slots := im_slot_mapping (input_metadata batch) in
  len slots = len (expected_tokens gs)
  /\ len (tokens_tensor batch) = len slots + (- len slots) mod 8
  /\ ((forall g, In g gs -> is_prefill g = true /\ block_tables g = None) ->
      slots = replicate 0 (len (expected_tokens gs))).
Proof.
  intros Hwf H; cbv zeta.
  apply prepare_inputs_some in H as (st & Hc & _ & Hf).
  destruct (collect_extends w gs st (well_formed_dicts gs Hwf) Hc)
    as (Ht & _ & Hlen & Hzero).
  destruct (finish_some w gs st batch Hf) as (Htok & _ & Hslots & _).
  rewrite Hslots, Htok, <- Ht, (Hlen Hwf).
  split; [reflexivity |].
  split.
  - rewrite len_app, len_replicate, Z.max_r; [reflexivity |].
    apply Z.mod_pos_bound; lia.
  - intros Hprofile; rewrite <- (Hlen Hwf).
    apply all_zero_replicate, Hzero, Hprofile.
Qed.

Lemma singleton_is_dict {V} (k : Z) (v : V) : is_dict [(k, v)].
Proof. apply NoDup_cons; [intros [] | apply NoDup_nil]. Qed.

Lemma mixed_step_well_formed : Forall well_formed Scenario.mixed_step.
Proof.
  repeat apply Forall_cons; try apply Forall_nil;
    (split; [apply singleton_is_dict |]);
    repeat apply Forall_cons; try apply Forall_nil;
    unfold consistent, len; simpl; lia.
Qed.

Lemma profile_step_well_formed : Forall well_formed Scenario.profile_step.
Proof.
  repeat apply Forall_cons; try apply Forall_nil;
    (split; [apply singleton_is_dict |]);
    repeat apply Forall_cons; try apply Forall_nil;
    unfold consistent, len; simpl; lia.
Qed.

(** A decode group listed before a prompt group: the prompt tokens come
    first, then the decode token, then two zeros. *)
Lemma batch_tokens_padded_witness :
  exists batch,
    _prepare_inputs Scenario.worker4 Scenario.mixed_step = Ok (Some batch)
    /\ len (tokens_tensor batch) mod 8 = 0
    /\ exists pad, tokens_tensor batch
                   = [11; 12; 13; 14; 15; 26] ++ replicate 0 pad.
Proof.
  destruct (_prepare_inputs Scenario.worker4 Scenario.mixed_step)
    as [[batch |] | e] eqn:Hrun;
    [| vm_compute in Hrun; discriminate Hrun
     | vm_compute in Hrun; discriminate Hrun].
  exists batch; split; [reflexivity |].
  destruct (batch_tokens_padded Scenario.worker4 Scenario.mixed_step batch
              (well_formed_dicts _ mixed_step_well_formed) Hrun)
    as (pt & pp & _ & _ & Htok & _ & Hlen & _).
  split; [exact Hlen | exists pt; exact Htok].
Defined.

(** Six tokens, six slots, eight entries in the token array; and the
    placeholder slots of a profiling step. *)
Lemma slot_mapping_unpadded_witness :
  (exists batch,
     _prepare_inputs Scenario.worker4 Scenario.mixed_step = Ok (Some batch)
     /\ len (im_slot_mapping (input_metadata batch)) = 6
     /\ len (tokens_tensor batch) = 8)
  /\ (exists batch,
        _prepare_inputs fresh_worker Scenario.profile_step = Ok (Some batch)
        /\ im_slot_mapping (input_metadata batch) = [0; 0; 0; 0; 0; 0]).
Proof.
  split.
  - destruct (_prepare_inputs Scenario.worker4 Scenario.mixed_step)
      as [[batch |] | e] eqn:Hrun;
      [| vm_compute in Hrun; discriminate Hrun
       | vm_compute in Hrun; discriminate Hrun].
    exists batch; split; [reflexivity |].
    destruct (slot_mapping_unpadded Scenario.worker4 Scenario.mixed_step batch
                mixed_step_well_formed Hrun) as (Hlen & Htok & _).
    split; [exact Hlen | rewrite Htok, Hlen; reflexivity].
  - destruct (_prepare_inputs fresh_worker Scenario.profile_step)
      as [[batch |] | e] eqn:Hrun;
      [| vm_compute in Hrun; discriminate Hrun
       | vm_compute in Hrun; discriminate Hrun].
    exists batch; split; [reflexivity |].
    destruct (slot_mapping_unpadded fresh_worker Scenario.profile_step batch
                profile_step_well_formed Hrun) as (_ & _ & Hzero).
    apply Hzero.
    intros g [<- | [<- | []]]; split; reflexivity.
Defined.

(** C10, as stated, fails.  The counters of a sequence are not checked: a
    prompt group without block tables whose sequence has no token and
    forwards one brings no token and one placeholder slot, so that the
    batch of scenario A with its second block allocated, followed by that
    group, has five tokens before padding and six slots. *)
Lemma slot_mapping_longer_than_tokens :
  Forall (fun g => is_dict (seq_data g))
    [Scenario.group_A2; Cases.group_overcount]
  /\ expected_tokens [Scenario.group_A2; Cases.group_overcount]
     = [11; 12; 13; 14; 15]
  /\ _prepare_inputs Scenario.worker4
       [Scenario.group_A2; Cases.group_overcount]
     = Ok (Some
             (mkBatch [11; 12; 13; 14; 15; 0; 0; 0] [0; 1; 2; 3; 4; 0; 0; 0]
                (mkInputMetadata
                   [([1], Scenario.sampling); ([3], Scenario.sampling)]
                   [(1, Scenario.prompt5); (3, Cases.overcounted)] [5; 1]
                   [28; 29; 30; 31; 8; 0] [] 0 [] [] [] [false; false] None)))
  /\ ~ consistent Cases.overcounted.
Proof.
  split; [repeat constructor; simpl; intuition |].
  split; [reflexivity |].
  split; [vm_compute; reflexivity |].
  unfold consistent, Cases.overcounted, len; simpl; lia.
Qed.

(* ================================================================== *)
(** ** Sliding window *)
(* ================================================================== *)

Lemma for_fold_ext {A S} (f f' : S -> A -> result S) (l : list A) :
  (forall s x, f s x = f' s x) -> forall s, for_fold f s l = for_fold f' s l.
Proof.
  intros Hext; induction l as [| x l IH]; intros s; simpl; [reflexivity |].
  rewrite Hext; destruct (f' s x); simpl; [apply IH | reflexivity].
Qed.

(** The slot of a position does not depend on the sliding window. *)
Lemma slot_of_without_window (w : Worker) (t : BlockTable) (p : Z) :
  slot_of (without_sliding_window w) t p = slot_of w t p.
Proof. reflexivity. Qed.

Lemma prefill_group_without_window (w : Worker) (st : Locals)
  (g : SequenceGroupMetadata) :
  prefill_group (without_sliding_window w) st g = prefill_group w st g.
Proof. reflexivity. Qed.

Lemma len_clamp_hists (w : Worker) (hists : list Z) :
  len (clamp_hists w hists) = len hists.
Proof. unfold clamp_hists; destruct (sliding_window w); [apply len_map | reflexivity]. Qed.

(** With a sliding window, an iteration of the inner decode loop does not
    complete. *)
Lemma decode_seq_window_raise (w : Worker) (sw : Z)
  (g : SequenceGroupMetadata) (st : Locals) (id : Z) :
  sliding_window w = Some sw -> exists e, decode_seq w g st id = Raise e.
Proof.
  intros Hsw; unfold decode_seq.
  destruct (dict_get (seq_data g) id) as [sd | e]; simpl; [| eauto].
  destruct (block_table_of g id) as [t | e]; simpl; [| eauto].
  destruct (getitem _ (-1)) as [h | e]; simpl; [| eauto].
  destruct (decode_slots w t (decode_positions sd)) as [slots | e]; simpl;
    [| eauto].
  rewrite Hsw; simpl; eauto.
Qed.

(* ================================================================== *)
(** ** Prompt groups with several sequences *)
(* ================================================================== *)




(* ================================================================== *)
(** ** The sequences of the profiler *)
(* ================================================================== *)

Lemma profile_seqs_eq (vocab_size : Z) (cfg : SchedulerConfig) :
  profile_seqs vocab_size cfg
  = Ok (map (profile_group_of vocab_size (max_num_batched_tokens cfg)
               (max_num_seqs cfg))
          (range (max_num_seqs cfg))).
Proof.
  unfold profile_seqs; apply for_each_ok.
  intros i Hi; apply in_range in Hi.
  unfold profile_group, Py.floordiv, Py.modulo.
  destruct (max_num_seqs cfg =? 0) eqn:Hz; [apply Z.eqb_eq in Hz; lia |].
  reflexivity.
Qed.

Lemma map_constant {A B} (f : A -> B) (c : B) (l : list A) :
  (forall x, In x l -> f x = c) -> map f l = repeat c (List.length l).
Proof.
  induction l as [| x l IH]; intros H; simpl; [reflexivity |].
  rewrite (H x (or_introl eq_refl)), IH; [reflexivity |].
  intros y Hy; apply H; right; exact Hy.
Qed.

(** [q + (i < r)] over [range(n)]: [r] times [q + 1], then [q]. *)
Lemma remainder_first (q r n : Z) :
  0 <= r <= n ->
  map (fun i => q + int_of_bool (i <? r)) (range n)
  = replicate (q + 1) r ++ replicate q (n - r).
Proof.
  intros Hr; unfold range, replicate.
  replace (Z.to_nat n) with (Z.to_nat r + Z.to_nat (n - r))%nat by lia.
  rewrite seq_app, !map_app; f_equal.
  - rewrite map_map, (map_constant _ (q + 1)), length_seq; [reflexivity |].
    intros k Hk; apply in_seq in Hk.
    destruct (Z.ltb_spec (Z.of_nat k) r); [reflexivity | lia].
  - rewrite map_map, (map_constant _ q), length_seq; [reflexivity |].
    intros k Hk; apply in_seq in Hk; simpl.
    destruct (Z.ltb_spec (Z.of_nat k) r); [lia | simpl; lia].
Qed.

Lemma sumZ_app (l1 l2 : list Z) : sumZ (l1 ++ l2) = sumZ l1 + sumZ l2.
Proof. induction l1 as [| x l1 IH]; simpl; [reflexivity | rewrite IH; lia]. Qed.

Lemma sumZ_replicate (c n : Z) : 0 <= n -> sumZ (replicate c n) = c * n.
Proof.
  intros Hn; unfold replicate.
  rewrite <- (Z2Nat.id n Hn) at 2.
  induction (Z.to_nat n) as [| k IH]; simpl; [lia | rewrite IH; lia].
Qed.

Lemma prompt_lengths_profile (vocab_size total n : Z) (ids : list Z) :
  0 <= total -> 0 < n ->
  prompt_lengths (map (profile_group_of vocab_size total n) ids)
  = map (fun i => total / n + int_of_bool (i <? total mod n)) ids.
Proof.
  intros Ht Hn; unfold prompt_lengths.
  induction ids as [| i ids IH]; simpl; [reflexivity |].
  rewrite IH, len_replicate; f_equal.
  assert (0 <= total / n) by (apply Z.div_pos; lia).
  destruct (i <? total mod n); simpl; lia.
Qed.

(** C8. With at least one sequence and a non-negative token budget, the
    profiler builds [max_num_seqs] groups of one prompt sequence each, with
    the worst-case sampling parameters and no block table; with [q] and [r]
    the quotient and remainder of [max_num_batched_tokens] by
    [max_num_seqs], the prompt lengths are [q + 1] for the first [r]
    sequences and [q] for the others, so they differ by at most one and sum
    to [max_num_batched_tokens].  For 4 sequences and 10 tokens the lengths
    are [[3; 3; 2; 2]]. *)
Theorem profile_prompt_lengths (vocab_size : Z) (cfg : SchedulerConfig) :
  0 < max_num_seqs cfg -> 0 <= max_num_batched_tokens cfg ->
  let n := max_num_seqs cfg in
  let q := max_num_batched_tokens cfg / n in
  let r := max_num_batched_tokens cfg mod n in
  (exists seqs,
     profile_seqs vocab_size cfg = Ok seqs
     /\ len seqs = n
     /\ Forall (fun g =>
                  List.length (seq_data g) = 1%nat
                  /\ is_prefill g = true
                  /\ block_tables g = None
                  /\ sampling_params g
                     = mkSamplingParams (99 # 100) (vocab_size - 1)) seqs
     /\ len (prompt_lengths seqs) = n
     /\ prompt_lengths seqs = replicate (q + 1) r ++ replicate q (n - r)
     /\ sumZ (prompt_lengths seqs) = max_num_batched_tokens cfg
     /\ (forall x y, In x (prompt_lengths seqs) -> In y (prompt_lengths seqs) ->
           Z.abs (x - y) <= 1))
  /\ (exists seqs,
        profile_seqs vocab_size Scenario.config_C = Ok seqs
        /\ prompt_lengths seqs = [3; 3; 2; 2]
        /\ sumZ (prompt_lengths seqs) = 10).
Proof.
  intros Hn Ht n q r.
  assert (Hr : 0 <= r < n) by (apply Z.mod_pos_bound; exact Hn).
  assert (Hlens : prompt_lengths
                    (map (profile_group_of vocab_size
                            (max_num_batched_tokens cfg) n) (range n))
                  = replicate (q + 1) r ++ replicate q (n - r)).
  { rewrite (prompt_lengths_profile vocab_size _ n _ Ht Hn).
    apply remainder_first; lia. }
  split.
  - eexists; split; [apply profile_seqs_eq |]; fold n.
    split; [rewrite len_map, len_range; lia |].
    split; [apply Forall_forall; intros g Hg; apply in_map_iff in Hg
            as (i & <- & _); repeat split |].
    rewrite Hlens.
    split; [rewrite len_app, !len_replicate; lia |].
    split; [reflexivity |].
    split.
    + rewrite sumZ_app, !sumZ_replicate by lia.
      pose proof (Z.div_mod (max_num_batched_tokens cfg) n) as Hdm.
      fold q r in Hdm; nia.
    + assert (Hin : forall x, In x (replicate (q + 1) r ++ replicate q (n - r))
                      -> x = q + 1 \/ x = q).
      { intros x Hx; apply in_app_or in Hx as [Hx | Hx];
          apply repeat_spec in Hx; auto. }
      intros x y Hx Hy; destruct (Hin x Hx), (Hin y Hy); lia.
  - eexists; split; [apply profile_seqs_eq |].
    split; reflexivity.
Qed.

(** Scenario C: 4 sequences, 10 tokens. *)
Lemma profile_prompt_lengths_witness :
  exists seqs,
    profile_seqs 32000 Scenario.config_C = Ok seqs
    /\ len seqs = 4
    /\ prompt_lengths seqs = [3; 3; 2; 2]
    /\ sumZ (prompt_lengths seqs) = 10.
Proof.
  destruct (profile_prompt_lengths 32000 Scenario.config_C)
    as ((seqs & Hseqs & Hlen & _ & _ & Hlens & Hsum & _) & _).
  - reflexivity.
  - discriminate.
  - exists seqs; repeat split; assumption.
Defined.

(* ================================================================== *)
(** ** The forward pass of the profiler is assembled *)
(* ================================================================== *)

(** The merge loop completes when no id is shared and none is merged yet. *)
Lemma merge_loop_total (gs : list SequenceGroupMetadata) :
  forall acc : dict SequenceData,
  (forall i gi k, nth_error gs i = Some gi -> only_swap gi = false ->
     In k (keys (seq_data gi)) -> contains acc k = false) ->
  ~ shares_seq_id gs ->
  exists m, for_fold merge_seq_data acc gs = Ok m.
Proof.
  induction gs as [| g gs IH]; intros acc Hacc Hno; simpl; [eauto |].
  assert (Hno' : ~ shares_seq_id gs).
  { intros (i & j & gi & gj & k & Hlt & Hi & Hj & H).
    apply Hno; exists (S i), (S j), gi, gj, k; simpl; repeat split;
      try tauto; lia. }
  unfold merge_seq_data at 1; destruct (only_swap g) eqn:Hs; simpl.
  - apply IH; [| exact Hno'].
    intros i gi k Hi; apply (Hacc (S i) gi k Hi).
  - destruct (assert_absent_cases acc (keys (seq_data g)))
      as [(-> & _) | (_ & k & Hin & Hk)]; simpl.
    + apply IH; [| exact Hno'].
      intros i gi k Hi Hsi Hk.
      destruct (contains (update acc (seq_data g)) k) eqn:Hc; [| reflexivity].
      apply contains_update in Hc as [Hc | Hc].
      * rewrite <- Hc; apply (Hacc (S i) gi k Hi Hsi Hk).
      * exfalso; apply Hno; exists 0%nat, (S i), g, gi, k; simpl.
        repeat split; auto; lia.
    + rewrite (Hacc 0%nat g k eq_refl Hs Hin) in Hk; discriminate Hk.
Qed.

Lemma decode_pass_skip (w : Worker) (gs : list SequenceGroupMetadata)
  (st : Locals) :
  (forall g, In g gs -> is_decode g = false) -> decode_pass w st gs = Ok st.
Proof.
  unfold decode_pass; induction gs as [| g gs IH]; intros H; simpl;
    [reflexivity |].
  rewrite (decode_group_skip w st g (H g (or_introl eq_refl))); simpl.
  apply IH; intros g' Hg'; apply H; right; exact Hg'.
Qed.

(** The prefill iteration of a prompt without block tables completes, and
    adds one generating flag and one group. *)
Lemma prefill_group_no_tables (w : Worker) (st : Locals)
  (g : SequenceGroupMetadata) :
  is_prefill g = true -> block_tables g = None -> seq_data g <> [] ->
  exists st',
    prefill_group w st g = Ok st'
    /\ len (is_generating_new_token st') - len (seq_groups st')
       = len (is_generating_new_token st) - len (seq_groups st).
Proof.
  intros Hpre Hbt Hne.
  destruct (is_prefill_true g Hpre) as (Hp & Hs).
  destruct (seq_data g) as [| [id sd] rest] eqn:Hd; [congruence |].
  rewrite (prefill_group_first w st g id sd rest Hp Hs Hd), Hbt.
  eexists; split; [reflexivity |].
  simpl; rewrite !len_app; unfold len; simpl; lia.
Qed.

Lemma prefill_pass_no_tables (w : Worker) (gs : list SequenceGroupMetadata) :
  (forall g, In g gs ->
     is_prefill g = true /\ block_tables g = None /\ seq_data g <> []) ->
  forall st, exists st',
    prefill_pass w st gs = Ok st'
    /\ len (is_generating_new_token st') - len (seq_groups st')
       = len (is_generating_new_token st) - len (seq_groups st).
Proof.
  unfold prefill_pass; induction gs as [| g gs IH]; intros H st; simpl.
  - exists st; auto.
  - destruct (H g (or_introl eq_refl)) as (Hpre & Hbt & Hne).
    destruct (prefill_group_no_tables w st g Hpre Hbt Hne)
      as (st1 & -> & Hlen1); simpl.
    destruct (IH (fun g' Hg' => H g' (or_intror Hg')) st1)
      as (st' & Hst' & Hlen).
    exists st'; split; [exact Hst' | lia].
Qed.

Lemma prepare_inputs_no_tables (w : Worker)
  (gs : list SequenceGroupMetadata) :
  (forall g, In g gs ->
     is_prefill g = true /\ block_tables g = None /\ seq_data g <> []) ->
  ~ shares_seq_id gs ->
  exists r, _prepare_inputs w gs = Ok r.
Proof.
  intros Hgs Hno.
  destruct gs as [| g0 gs0] eqn:Heq; [exists None; reflexivity |].
  rewrite <- Heq in *.
  rewrite prepare_inputs_nonempty by (rewrite Heq; discriminate).
  destruct (prefill_pass_no_tables w gs Hgs init_locals) as (st & Hpre & Hlen).
  unfold collect; rewrite Hpre; simpl.
  rewrite decode_pass_skip.
  - simpl; destruct (input_tokens st) as [| tok toks] eqn:Htok.
    + exists None; unfold finish; rewrite Htok; reflexivity.
    + rewrite finish_nonempty by (rewrite Htok; discriminate).
      destruct (merge_loop_total gs [] (fun _ _ _ _ _ _ => eq_refl) Hno)
        as (m & ->); simpl.
      simpl in Hlen.
      replace (len (is_generating_new_token st) =? len (seq_groups st))
        with true by (symmetry; apply Z.eqb_eq; lia).
      simpl; eauto.
  - intros g Hg; destruct (Hgs g Hg) as (Hpf & _).
    apply is_prefill_true in Hpf as (Hp & _).
    unfold is_decode; rewrite Hp; reflexivity.
Qed.

Lemma profile_groups_distinct (vocab_size total n : Z) :
  ~ shares_seq_id (map (profile_group_of vocab_size total n) (range n)).
Proof.
  intros (i & j & gi & gj & k & Hlt & Hi & Hj & _ & _ & Hki & Hkj).
  unfold range in Hi, Hj; rewrite !nth_error_map in Hi, Hj.
  rewrite !nth_error_seq in Hi, Hj.
  destruct (Nat.ltb i (Z.to_nat n)); [| discriminate Hi].
  destruct (Nat.ltb j (Z.to_nat n)); [| discriminate Hj].
  simpl in Hi, Hj; injection Hi as <-; injection Hj as <-.
  simpl in Hki, Hkj; lia.
Qed.

(** The profiler's sequences are built and assembled, whatever the
    scheduler limits and the state of the worker. *)
Lemma profile_batch_assembles (w : Worker) (vocab_size : Z)
  (cfg : SchedulerConfig) :
  exists seqs r,
    profile_seqs vocab_size cfg = Ok seqs /\ _prepare_inputs w seqs = Ok r.
Proof.
  rewrite profile_seqs_eq.
  destruct (prepare_inputs_no_tables w
              (map (profile_group_of vocab_size (max_num_batched_tokens cfg)
                      (max_num_seqs cfg)) (range (max_num_seqs cfg))))
    as (r & Hr).
  - intros g Hg; apply in_map_iff in Hg as (i & <- & _).
    repeat split; discriminate.
  - apply profile_groups_distinct.
  - eauto.
Qed.

(* ================================================================== *)
(** ** Block counts *)
(* ================================================================== *)

Lemma float_floordiv_negative (x : Q) (y : Z) :
  (x < 0)%Q -> 0 < y -> exists k, float_floordiv x y = Ok k /\ k < 0.
Proof.
  intros Hx Hy; unfold float_floordiv.
  destruct (y =? 0) eqn:Hz; [apply Z.eqb_eq in Hz; lia |].
  eexists; split; [reflexivity |].
  assert (Hq : (x / inject_Z y < 0)%Q).
  { apply Qlt_shift_div_r;
      [change 0%Q with (inject_Z 0); rewrite <- Zlt_Qlt; exact Hy |].
    rewrite Qmult_0_l; exact Hx. }
  rewrite Zlt_Qlt; change (inject_Z 0) with 0%Q.
  apply Qle_lt_trans with (x / inject_Z y)%Q; [apply Qfloor_le | exact Hq].
Qed.

(** C7. The profiler never returns a negative block count.  With a
    positive block byte size it returns; the host count is
    [max(0, cpu_swap_space // cache_block_size)]; and when the measured peak
    exceeds [total_gpu_memory * gpu_memory_utilization] the device count
    is 0. *)
Theorem capacity_never_negative (w : Worker) (cfg : SchedulerConfig)
  (vocab_size peak_memory total_gpu_memory : Z)
  (get_cache_block_size : Z -> Z) (block_size : Z)
  (gpu_memory_utilization : Q) (cpu_swap_space : Z) :
  let profile :=
    profile_num_available_blocks w cfg vocab_size peak_memory
      total_gpu_memory get_cache_block_size block_size
      gpu_memory_utilization cpu_swap_space in
  let cache_block_size := get_cache_block_size block_size in
  (forall num_gpu_blocks num_cpu_blocks,
     profile = Ok (num_gpu_blocks, num_cpu_blocks) ->
     0 <= num_gpu_blocks /\ 0 <= num_cpu_blocks)
  /\ (0 < cache_block_size ->
      exists num_gpu_blocks,
        profile
        = Ok (num_gpu_blocks, Z.max 0 (cpu_swap_space / cache_block_size))
        /\ 0 <= num_gpu_blocks
        /\ ((inject_Z total_gpu_memory * gpu_memory_utilization
             < inject_Z peak_memory)%Q ->
            num_gpu_blocks = 0)).
Proof.
  intros profile cbs; subst profile; unfold profile_num_available_blocks.
  destruct (profile_batch_assembles w vocab_size cfg) as (seqs & r & -> & Hr).
  simpl; rewrite Hr; simpl; fold cbs.
  unfold num_available_blocks; split.
  - intros g c H.
    apply bind_ok in H as (g0 & _ & H).
    apply bind_ok in H as (c0 & _ & H).
    injection H as <- <-; lia.
  - intros Hcbs; unfold float_floordiv, Py.floordiv.
    destruct (cbs =? 0) eqn:Hz; [apply Z.eqb_eq in Hz; lia |].
    simpl; eexists; split; [rewrite (Z.max_comm 0); reflexivity |].
    split; [lia |].
    intros Hpeak.
    destruct (float_floordiv_negative
                (inject_Z total_gpu_memory * gpu_memory_utilization
                 - inject_Z peak_memory)%Q cbs) as (k & Hk & Hneg);
      [| exact Hcbs |].
    + rewrite <- (Qplus_opp_r (inject_Z peak_memory)).
      apply Qplus_lt_l; exact Hpeak.
    + unfold float_floordiv in Hk; rewrite Hz in Hk; injection Hk as Hk.
      rewrite Hk; lia.
Qed.

(** A device with 1000 bytes, of which 90 percent may be used, a peak of
    950 bytes and blocks of 40 bytes: no device block, and 2 host blocks
    for 95 bytes of swap space. *)
Lemma capacity_never_negative_witness :
  profile_num_available_blocks fresh_worker Scenario.config_C 32000 950 1000
    (fun b => b * 10) 4 (9 # 10) 95
  = Ok (0, 2).
Proof.
  destruct (capacity_never_negative fresh_worker Scenario.config_C 32000 950
              1000 (fun b => b * 10) 4 (9 # 10) 95) as (_ & H).
  destruct (H eq_refl) as (g & Hprofile & _ & Hzero).
  rewrite Hprofile, Hzero; reflexivity.
Defined.

(* ================================================================== *)
(** ** Steps without input *)
(* ================================================================== *)

Lemma slice_to_zero {A} (l : list A) : slice_to l 0 = [].
Proof.
  unfold slice_to, slice.
  rewrite clamp_bound_inside by (pose proof (len_nonneg l); lia).
  reflexivity.
Qed.

(** The prefill iteration of a group that brings no token leaves the
    tokens as they are. *)
Lemma prefill_group_no_token (w : Worker) (st : Locals)
  (g : SequenceGroupMetadata) :
  brings_no_token g ->
  exists st', prefill_group w st g = Ok st'
              /\ input_tokens st' = input_tokens st.
Proof.
  intros [Hs | (Hp & id & sd & rest & Hd & Hrun & Hbt)].
  - exists st; split; [| reflexivity].
    unfold prefill_group; rewrite Hs, orb_true_r; reflexivity.
  - destruct (only_swap g) eqn:Hs.
    + exists st; split; [| reflexivity].
      unfold prefill_group; rewrite Hs, orb_true_r; reflexivity.
    + rewrite (prefill_group_first w st g id sd rest Hp Hs Hd); cbv zeta.
      rewrite Hrun; unfold get_token_ids; rewrite slice_to_zero.
      destruct Hbt as [-> | (tables & t & -> & Ht)].
      * eexists; split; [reflexivity | simpl; apply app_nil_r].
      * rewrite (dict_get_found _ _ _ Ht); simpl.
        eexists; split; [reflexivity | simpl; apply app_nil_r].
Qed.

(** A list of groups that bring no token is assembled into the empty
    batch. *)
Lemma prepare_inputs_no_token (w : Worker)
  (gs : list SequenceGroupMetadata) :
  Forall brings_no_token gs -> _prepare_inputs w gs = Ok None.
Proof.
  intros Hgs.
  destruct gs as [| g0 gs0] eqn:Heq; [reflexivity |].
  rewrite <- Heq in *.
  rewrite prepare_inputs_nonempty by (rewrite Heq; discriminate).
  assert (Hpre : forall st, exists st',
            prefill_pass w st gs = Ok st'
            /\ input_tokens st' = input_tokens st).
  { clear Heq; unfold prefill_pass.
    induction Hgs as [| g gs Hg _ IH]; intros st; simpl; [eauto |].
    destruct (prefill_group_no_token w st g Hg) as (st1 & -> & Ht1); simpl.
    destruct (IH st1) as (st' & Hst' & Ht').
    exists st'; split; [exact Hst' | congruence]. }
  destruct (Hpre init_locals) as (st & Hst & Ht).
  unfold collect; rewrite Hst; simpl.
  rewrite decode_pass_skip.
  - simpl; unfold finish; rewrite Ht; reflexivity.
  - intros g Hg; unfold is_decode.
    destruct (proj1 (Forall_forall _ _) Hgs g Hg) as [-> | (-> & _)];
      [apply andb_false_r | reflexivity].
Qed.

(** C9, as the code has it.  When the copy set is empty and batch assembly
    returns the empty batch, the step issues the swap-out, then the
    swap-in, then waits on every event of the cache engine if one of the
    two was issued, and returns the empty result; the model is not
    invoked.  Batch assembly returns the empty batch for the empty list and
    for a list of groups that are swap-only or are prompt groups with no
    token to forward. *)
Theorem empty_step_swaps_then_waits (w : Worker)
  (gs : list SequenceGroupMetadata)
  (blocks_to_swap_in blocks_to_swap_out : dict Z) :
  (_prepare_inputs w gs = Ok None ->
   execute_model w gs blocks_to_swap_in blocks_to_swap_out []
   = (swaps_then_waits w blocks_to_swap_in blocks_to_swap_out, Ok EmptyOutput)
   /\ existsb is_model_call
        (fst (execute_model w gs blocks_to_swap_in blocks_to_swap_out []))
      = false)
  /\ (Forall brings_no_token gs -> _prepare_inputs w gs = Ok None)
  /\ _prepare_inputs w [] = Ok None.
Proof.
  split; [| split; [apply prepare_inputs_no_token | reflexivity]].
  intros Hnone.
  assert (Hrun : execute_model w gs blocks_to_swap_in blocks_to_swap_out []
                 = (swaps_then_waits w blocks_to_swap_in blocks_to_swap_out,
                    Ok EmptyOutput)).
  { unfold execute_model; simpl; rewrite Hnone.
    unfold no_input_branch, swaps_then_waits; simpl.
    destruct (truthy blocks_to_swap_out), (truthy blocks_to_swap_in);
      reflexivity. }
  split; [exact Hrun |].
  rewrite Hrun; unfold swaps_then_waits; simpl.
  rewrite !existsb_app.
  assert (Hwaits : existsb is_model_call (map WaitEvent (cache_events w))
                   = false)
    by (induction (cache_events w) as [| e evs IH]; simpl; auto).
  destruct (truthy blocks_to_swap_out), (truthy blocks_to_swap_in); simpl;
    rewrite ?Hwaits; reflexivity.
Qed.

(** A step with one swap-only group, blocks to swap out and blocks to swap
    in, on a worker with the events 0 and 1. *)
Lemma empty_step_swaps_then_waits_witness :
  execute_model Scenario.worker4 [Scenario.group_swap] [(5, 6)] [(3, 4)] []
  = ([SwapOut [(3, 4)]; SwapIn [(5, 6)]; WaitEvent 0; WaitEvent 1],
     Ok EmptyOutput).
Proof.
  destruct (empty_step_swaps_then_waits Scenario.worker4
              [Scenario.group_swap] [(5, 6)] [(3, 4)])
    as (Hstep & Hidle & _).
  assert (Hswap : Forall brings_no_token [Scenario.group_swap])
    by (apply Forall_cons; [left; reflexivity | apply Forall_nil]).
  destruct (Hstep (Hidle Hswap)) as (Hrun & _).
  exact Hrun.
Defined.

(** C9, as stated, fails.  A step with no input token and blocks to swap
    out, whose copy set is not empty, raises [ValueError] before any swap is
    issued.  So does a step with a decode group that forwards no token:
    batch assembly raises [IndexError] on its empty history list. *)
Lemma empty_step_without_swaps :
  execute_model Scenario.worker4 [] [(5, 6)] [(3, 4)] [(7, [8])]
  = ([], Raise ValueError)
  /\ expected_tokens [Scenario.group_idle] = []
  /\ execute_model Scenario.worker4 [Scenario.group_idle] [(5, 6)] [(3, 4)] []
     = ([], Raise IndexError).
Proof. repeat split. Qed.

(* ================================================================== *)
(** ** The padding helpers *)
(* ================================================================== *)

(** [_pad_to_alignment] with a positive multiple appends the least number
    of zeros that makes the length a multiple of it, so a list whose length
    is already a multiple is returned as it is, and padding a padded list
    changes nothing. *)
Theorem pad_to_alignment_least (x : list Z) (m : Z) :
  0 < m ->
  exists k,
    _pad_to_alignment x m = Ok (x ++ replicate 0 k)
    /\ 0 <= k < m
    /\ (len x + k) mod m = 0
    /\ (len x mod m = 0 -> k = 0)
    /\ _pad_to_alignment (x ++ replicate 0 k) m = Ok (x ++ replicate 0 k).
Proof.
  intros Hm.
  assert (Hne : (m =? 0) = false) by (apply Z.eqb_neq; lia).
  assert (Hk : 0 <= (- len x) mod m < m) by (apply Z.mod_pos_bound; exact Hm).
  assert (Hmult : (len x + (- len x) mod m) mod m = 0).
  { rewrite Zplus_mod_idemp_r.
    replace (len x + - len x) with 0 by lia; apply Z.mod_0_l; lia. }
  exists ((- len x) mod m).
  split; [unfold _pad_to_alignment, Py.modulo; rewrite Hne; reflexivity |].
  split; [exact Hk |].
  split; [exact Hmult |].
  split.
  - intros Hx; apply Z.mod_opp_l_z; [lia | exact Hx].
  - unfold _pad_to_alignment, Py.modulo; rewrite Hne; simpl.
    rewrite len_app, len_replicate, Z.max_r by lia.
    replace ((- (len x + (- len x) mod m)) mod m) with 0.
    + unfold replicate at 2; simpl; rewrite app_nil_r; reflexivity.
    + symmetry; apply Z.mod_opp_l_z; [lia | exact Hmult].
Qed.

(** Five tokens are padded to eight; eight tokens are left as they are. *)
Lemma pad_to_alignment_least_witness :
  _pad_to_alignment [1; 2; 3; 4; 5] 8 = Ok [1; 2; 3; 4; 5; 0; 0; 0]
  /\ _pad_to_alignment [1; 2; 3; 4; 5; 6; 7; 8] 8
     = Ok [1; 2; 3; 4; 5; 6; 7; 8].
Proof.
  split.
  - destruct (pad_to_alignment_least [1; 2; 3; 4; 5] 8 ltac:(lia))
      as (k & Hpad & Hk & Hmult & _).
    assert (Hcases : k = 0 \/ k = 1 \/ k = 2 \/ k = 3 \/ k = 4 \/ k = 5
                     \/ k = 6 \/ k = 7) by lia.
    rewrite Hpad.
    repeat (destruct Hcases as [-> | Hcases]; [try discriminate Hmult |]);
      try (subst k; discriminate Hmult); reflexivity.
  - destruct (pad_to_alignment_least [1; 2; 3; 4; 5; 6; 7; 8] 8 ltac:(lia))
      as (k & Hpad & _ & _ & Hzero & _).
    rewrite Hpad, Hzero; reflexivity.
Defined.

(** [_pad_to_max] never truncates: the list is a prefix of the result, the
    length of the result is the larger of the two lengths, a list that is
    long enough is returned as it is, and padding twice is padding once. *)
Theorem pad_to_max_never_truncates (x : list Z) (max_len : Z) :
  len (_pad_to_max x max_len) = Z.max (len x) max_len
  /\ firstn (List.length x) (_pad_to_max x max_len) = x
  /\ skipn (List.length x) (_pad_to_max x max_len)
     = replicate 0 (max_len - len x)
  /\ (max_len <= len x -> _pad_to_max x max_len = x)
  /\ _pad_to_max (_pad_to_max x max_len) max_len = _pad_to_max x max_len.
Proof.
  assert (Hshort : forall y : list Z, max_len <= len y ->
            _pad_to_max y max_len = y).
  { intros y Hy; unfold _pad_to_max, replicate.
    replace (Z.to_nat (max_len - len y)) with 0%nat by lia.
    apply app_nil_r. }
  assert (Hlen : len (_pad_to_max x max_len) = Z.max (len x) max_len)
    by (unfold _pad_to_max; rewrite len_app, len_replicate; lia).
  split; [exact Hlen |].
  split; [unfold _pad_to_max; rewrite firstn_app, Nat.sub_diag, firstn_all;
          simpl; apply app_nil_r |].
  split; [unfold _pad_to_max; rewrite skipn_app, Nat.sub_diag, skipn_all;
          reflexivity |].
  split; [apply Hshort |].
  apply Hshort; rewrite Hlen; lia.
Qed.

Lemma pad_to_max_never_truncates_witness :
  _pad_to_max [3; 4; 5] 2 = [3; 4; 5].
Proof.
  destruct (pad_to_max_never_truncates [3; 4; 5] 2) as (_ & _ & _ & H & _).
  apply H; vm_compute; discriminate.
Defined.

(* ================================================================== *)
(** ** The kernel buffers *)
(* ================================================================== *)

(** With a positive query block size, the number of atoms per sequence in
    [max_atoms] is the number of query blocks that cover [max_model_len]
    tokens, and no smaller number does; so the atom buffer holds the query
    blocks of [max_num_seqs] sequences of [max_model_len] tokens.  A query
    block size of 0 raises [ZeroDivisionError]. *)
Theorem max_atoms_covers (max_num_seqs max_model_len q_block_size : Z) :
  (0 < q_block_size -> 0 <= max_num_seqs ->
   exists per_seq,
     max_atoms max_num_seqs max_model_len q_block_size
     = Ok (max_num_seqs * per_seq)
     /\ max_model_len <= per_seq * q_block_size
     /\ (per_seq - 1) * q_block_size < max_model_len
     /\ max_num_seqs * max_model_len
        <= (max_num_seqs * per_seq) * q_block_size)
  /\ max_atoms max_num_seqs max_model_len 0 = Raise ZeroDivisionError.
Proof.
  split; [| reflexivity].
  intros Hq Hn; unfold max_atoms, Py.floordiv.
  destruct (q_block_size =? 0) eqn:Hz; [apply Z.eqb_eq in Hz; lia |].
  simpl; eexists; split; [reflexivity |].
  pose proof (Z.div_mod (max_model_len + q_block_size - 1) q_block_size
                ltac:(lia)) as Hdm.
  pose proof (Z.mod_pos_bound (max_model_len + q_block_size - 1) q_block_size
                Hq) as Hmod.
  set (c := (max_model_len + q_block_size - 1) / q_block_size) in *.
  split; [nia |].
  split; nia.
Qed.

(** 8 sequences of at most 100 tokens, in query blocks of 16 tokens:
    7 atoms per sequence. *)
Lemma max_atoms_covers_witness : max_atoms 8 100 16 = Ok 56.
Proof.
  destruct (max_atoms_covers 8 100 16) as (H & _).
  destruct (H ltac:(lia) ltac:(lia)) as (c & Hc & Hcover & Hleast & _).
  assert (c = 7) by lia; subst c; exact Hc.
Defined.

(* ================================================================== *)
(** ** Start-up *)
(* ================================================================== *)

Lemma gt_int_monotone (x : Init.float) (n more : Z) :
  n <= more -> Init.gt_int x more = true -> Init.gt_int x n = true.
Proof.
  intros Hle; unfold Init.gt_int.
  destruct x as [s | s | | s m e]; try (intros H; exact H).
  - rewrite !Z.gtb_ltb, !Z.ltb_lt; lia.
  - destruct (0 <=? e) eqn:He; rewrite !Z.gtb_ltb, !Z.ltb_lt; [lia |].
    apply Z.leb_gt in He.
    assert (Hpow : 0 < 2 ^ (- e)) by (apply Z.pow_pos_nonneg; lia).
    nia.
Qed.

Lemma finite_fail (x : Init.float) (e : Init.exn) :
  Init.finite x = Init.Fail e -> e = Init.OverflowError.
Proof. destruct x; simpl; intros [=]; auto. Qed.

Lemma mul_int_fail (x : Init.float) (n : Z) (e : Init.exn) :
  Init.mul_int x n = Init.Fail e -> e = Init.OverflowError.
Proof.
  unfold Init.mul_int, Init.float_of_int.
  destruct (Init.finite _) as [y | e'] eqn:Hy; simpl; [discriminate |].
  intros [= <-]; apply (finite_fail _ _ Hy).
Qed.

Lemma padded_max_seq_len_fail (max_seq_len block_size : Z) (e : Init.exn) :
  Init.padded_max_seq_len max_seq_len block_size = Init.Fail e ->
  e = Init.Raised ZeroDivisionError \/ e = Init.OverflowError.
Proof.
  unfold Init.padded_max_seq_len, Init.truediv.
  destruct (block_size =? 0); simpl; [intros [= <-]; auto |].
  destruct (Init.finite _) as [q | e'] eqn:Hq; simpl.
  - intros H; right; apply (mul_int_fail _ _ _ H).
  - intros [= <-]; right; apply (finite_fail _ _ Hq).
Qed.

(** The float that the shared-memory check compares with the shared memory
    does not depend on the shared memory, nor does an exception of the float
    operations. *)
Lemma check_max_seq_len_cases (max_seq_len block_size : Z) :
  (exists bytes,
     forall m,
       Init._check_if_can_support_max_seq_len m max_seq_len block_size
       = if Init.gt_int bytes m then Init.Fail Init.RuntimeError
         else Init.Done tt)
  \/ (exists e,
        e <> Init.RuntimeError
        /\ forall m,
             Init._check_if_can_support_max_seq_len m max_seq_len block_size
             = Init.Fail e).
Proof.
  unfold Init._check_if_can_support_max_seq_len.
  destruct (Init.padded_max_seq_len max_seq_len block_size)
    as [padded | e] eqn:Hp; cbv [Init.bind].
  - destruct (Init.mul_int padded Init.float32_bytes) as [bytes | e] eqn:Hb.
    + left; exists bytes; reflexivity.
    + right; exists e; split; [| reflexivity].
      rewrite (mul_int_fail _ _ _ Hb); discriminate.
  - right; exists e; split; [| reflexivity].
    destruct (padded_max_seq_len_fail _ _ _ Hp) as [-> | ->]; discriminate.
Qed.

(** The shared-memory check is monotone in the shared memory of the
    device: a length and block size that pass with some shared memory pass
    with more, one that raises [RuntimeError] raises it with less, and any
    other exception is raised whatever the shared memory.  A block size of 0
    raises [ZeroDivisionError]. *)
Theorem check_max_seq_len_monotone
  (max_shared_mem more max_seq_len block_size : Z) :
  max_shared_mem <= more ->
  (Init._check_if_can_support_max_seq_len max_shared_mem max_seq_len
     block_size = Init.Done tt ->
   Init._check_if_can_support_max_seq_len more max_seq_len block_size
   = Init.Done tt)
  /\ (Init._check_if_can_support_max_seq_len more max_seq_len block_size
      = Init.Fail Init.RuntimeError ->
      Init._check_if_can_support_max_seq_len max_shared_mem max_seq_len
        block_size = Init.Fail Init.RuntimeError)
  /\ (forall e, e <> Init.RuntimeError ->
      Init._check_if_can_support_max_seq_len max_shared_mem max_seq_len
        block_size = Init.Fail e ->
      Init._check_if_can_support_max_seq_len more max_seq_len block_size
      = Init.Fail e)
  /\ Init._check_if_can_support_max_seq_len max_shared_mem max_seq_len 0
     = Init.Fail (Init.Raised ZeroDivisionError).
Proof.
  intros Hle.
  split; [| split; [| split; [| reflexivity]]].
  - destruct (check_max_seq_len_cases max_seq_len block_size)
      as [(bytes & Hb) | (e & _ & He)]; [| rewrite !He; auto].
    rewrite !Hb.
    destruct (Init.gt_int bytes more) eqn:Hmore; [| reflexivity].
    rewrite (gt_int_monotone bytes _ _ Hle Hmore); auto.
  - destruct (check_max_seq_len_cases max_seq_len block_size)
      as [(bytes & Hb) | (e & _ & He)]; [| rewrite !He; auto].
    rewrite !Hb.
    destruct (Init.gt_int bytes more) eqn:Hmore; [| discriminate].
    rewrite (gt_int_monotone bytes _ _ Hle Hmore); auto.
  - intros e Hne.
    destruct (check_max_seq_len_cases max_seq_len block_size)
      as [(bytes & Hb) | (e' & _ & He)]; [| rewrite !He; auto].
    rewrite !Hb.
    destruct (Init.gt_int bytes max_shared_mem);
      [intros [= <-]; congruence | discriminate].
Qed.

(** Blocks of 16 tokens and 12273 tokens: they pass with 48 KiB of shared
    memory, hence with 64 KiB; they raise with one byte less than 48 KiB,
    hence with 40000 bytes. *)
Lemma check_max_seq_len_monotone_witness :
  Init._check_if_can_support_max_seq_len 65536 12273 16 = Init.Done tt
  /\ Init._check_if_can_support_max_seq_len 40000 12273 16
     = Init.Fail Init.RuntimeError.
Proof.
  split.
  - destruct (check_max_seq_len_monotone 49152 65536 12273 16 ltac:(lia))
      as (H & _).
    apply H; vm_compute; reflexivity.
  - destruct (check_max_seq_len_monotone 40000 49151 12273 16 ltac:(lia))
      as (_ & H & _).
    apply H; vm_compute; reflexivity.
Defined.

(** The rounding of the true division shows: 29 / 7 * 7 is the float above
    29, so 23 tokens in blocks of 7 need more than the 116 bytes of
    4 * (23 + 7 - 1), while 28 / 7 * 7 is 28. *)
Lemma check_max_seq_len_rounds :
  Init._check_if_can_support_max_seq_len 116 23 7
  = Init.Fail Init.RuntimeError
  /\ Init._check_if_can_support_max_seq_len 117 23 7 = Init.Done tt
  /\ Init._check_if_can_support_max_seq_len 112 22 7 = Init.Done tt.
Proof. vm_compute; auto. Qed.

(** Once [init_cache_engine] has returned, slot addressing cannot raise
    [TypeError] or [ZeroDivisionError]: for every block table and position
    it returns a slot or raises [IndexError]. *)
Theorem addressing_after_init_cache_engine (kv_block_size : option Z)
  (max_model_len max_shared_mem : Z) (cache_engine : Init.result (list Z))
  (cache_config : Init.CacheConfig) (w : Worker) :
  Init.init_cache_engine kv_block_size max_model_len max_shared_mem
    cache_engine cache_config = Init.Done w ->
  forall t p,
    slot_of w t p = Raise IndexError \/ exists s, slot_of w t p = Ok s.
Proof.
  intros H t p.
  unfold Init.init_cache_engine in H.
  destruct (Init.same_block_size _ kv_block_size); [| discriminate H].
  simpl in H.
  destruct (Z.eqb_spec (Init.cc_block_size cache_config) 0) as [Hz | Hnz];
    [rewrite Hz in H; discriminate H |].
  destruct (Init._check_if_can_support_max_seq_len _ _ _); [| discriminate H].
  simpl in H.
  destruct cache_engine as [events | e]; [| discriminate H].
  simpl in H; injection H as <-.
  unfold slot_of, floordiv_block_size, modulo_block_size, times_block_size.
  simpl; unfold Py.floordiv, Py.modulo.
  destruct (Init.cc_block_size cache_config =? 0) eqn:Hb;
    [apply Z.eqb_eq in Hb; contradiction |].
  simpl.
  destruct (getitem_cases t (p / Init.cc_block_size cache_config))
    as [-> | (x & ->)]; simpl; [left | right; eexists]; reflexivity.
Qed.

Lemma addressing_after_init_cache_engine_witness :
  slot_of (mkWorker (Some 16) None [0; 1]) [7] 16 = Raise IndexError
  \/ exists s, slot_of (mkWorker (Some 16) None [0; 1]) [7] 16 = Ok s.
Proof.
  apply (addressing_after_init_cache_engine (Some 16) 2048 49152
           (Init.Done [0; 1]) (Init.mkCacheConfig 16 None)).
  vm_compute; reflexivity.
Defined.

(* ================================================================== *)
(** ** The metadata that the two passes collect *)
(* ================================================================== *)

Lemma range_nonpositive (n : Z) : n <= 0 -> range n = [].
Proof. intros Hn; unfold range; replace (Z.to_nat n) with 0%nat by lia; reflexivity. Qed.

Lemma range_last (n : Z) : 1 <= n -> range n = range (n - 1) ++ [n - 1].
Proof.
  intros Hn; unfold range.
  replace (Z.to_nat n) with (Z.to_nat (n - 1) + 1)%nat by lia.
  rewrite seq_app, map_app; simpl; do 2 f_equal; lia.
Qed.

Lemma getitem_app_last {A} (l : list A) (x : A) :
  getitem (l ++ [x]) (-1) = Ok x.
Proof.
  unfold getitem; change (-1 <? 0) with true; cbv beta iota.
  rewrite len_app; change (len [x]) with 1.
  pose proof (len_nonneg l) as Hl.
  destruct (-1 + (len l + 1) <? 0) eqn:Hneg; [apply Z.ltb_lt in Hneg; lia |].
  replace (Z.to_nat (-1 + (len l + 1))) with (List.length l)
    by (unfold len; lia).
  rewrite nth_error_app2, Nat.sub_diag by lia; reflexivity.
Qed.

(** [hists[-1]], without a sliding window: the context length of the
    sequence when it forwards a token, [IndexError] when it forwards
    none. *)
Lemma last_hist (sd : SequenceData) :
  (1 <= running_inflight_tokens sd
   /\ getitem (decode_hists sd) (-1) = Ok (context_len sd))
  \/ (running_inflight_tokens sd <= 0
      /\ getitem (decode_hists sd) (-1) = Raise IndexError).
Proof.
  unfold decode_hists.
  destruct (Z_le_gt_dec 1 (running_inflight_tokens sd)) as [Hge | Hlt].
  - left; split; [exact Hge |].
    rewrite (range_last _ Hge), map_app; simpl.
    rewrite getitem_app_last; unfold context_len; f_equal; lia.
  - right; split; [lia |].
    rewrite range_nonpositive by lia; reflexivity.
Qed.

(** An iteration of the inner decode loop that completes: there is no
    sliding window, the sequence forwards a token and has a block table, and
    the lists are the ones of the state with the entries of the sequence
    appended. *)
Lemma decode_seq_completes (w : Worker) (g : SequenceGroupMetadata)
  (st st' : Locals) (id : Z) :
  decode_seq w g st id = Ok st' ->
  exists sd t slots,
    lookup (seq_data g) id = Some sd
    /\ table_of g id = [t]
    /\ sliding_window w = None
    /\ 1 <= running_inflight_tokens sd
    /\ decode_slots w t (decode_positions sd) = Ok slots
    /\ st' = push_block_table
               (push_slots
                  (push_decode st (inflight_decode_tokens sd)
                     (running_inflight_tokens sd) (generating sd)
                     (context_len sd) (decode_positions sd) (context_len sd) t)
                  slots) t.
Proof.
  unfold decode_seq, dict_get, block_table_of, table_of.
  destruct (lookup (seq_data g) id) as [sd |]; simpl; [| discriminate].
  destruct (block_tables g) as [tables |]; simpl; [| discriminate].
  unfold dict_get.
  destruct (lookup tables id) as [t |]; simpl; [| discriminate].
  intros H; apply bind_ok in H as (h & Hh & H).
  apply bind_ok in H as (slots & Hslots & H).
  apply bind_ok in H as ([] & Hassert & H).
  destruct (sliding_window w) eqn:Hsw; [discriminate Hassert |].
  injection H as <-.
  unfold clamp_hists in Hh; rewrite Hsw in Hh.
  destruct (last_hist sd) as [(Hrun & Hlast) | (_ & Hlast)];
    rewrite Hlast in Hh; [| discriminate Hh].
  injection Hh as <-.
  exists sd, t, slots; repeat split; auto.
Qed.

Lemma max_from_app (init : Z) (l1 l2 : list Z) :
  max_from init (l1 ++ l2) = max_from (max_from init l1) l2.
Proof. unfold max_from; apply fold_left_app. Qed.

Lemma decode_appends_refl (st : Locals) : decode_appends st st [] [].
Proof. unfold decode_appends; simpl; rewrite !app_nil_r; repeat split. Qed.

Lemma decode_appends_trans (st st1 st2 : Locals)
  (sds sds' : list SequenceData) (ts ts' : list BlockTable) :
  decode_appends st st1 sds ts -> decode_appends st1 st2 sds' ts' ->
  decode_appends st st2 (sds ++ sds') (ts ++ ts').
Proof.
  unfold decode_appends.
  intros (H1 & H2 & H3 & H4 & H5 & H6 & H7)
         (H1' & H2' & H3' & H4' & H5' & H6' & H7').
  rewrite H1', H2', H3', H4', H5', H6', H7', H1, H2, H3, H4, H5, H6, H7.
  rewrite !map_app, !max_from_app, !app_assoc; repeat split.
Qed.

Lemma decode_seqs_append (w : Worker) (g : SequenceGroupMetadata)
  (d : dict SequenceData) :
  (forall k v, In (k, v) d -> lookup (seq_data g) k = Some v) ->
  forall st st', for_fold (decode_seq w g) st (keys d) = Ok st' ->
  decode_appends st st' (map snd d) (flat_map (table_of g) (keys d))
  /\ seq_groups st' = seq_groups st
  /\ List.length (flat_map (table_of g) (keys d)) = List.length d.
Proof.
  induction d as [| [k v] d IH]; intros Hd st st' H; simpl in H.
  - injection H as <-; split; [apply decode_appends_refl | auto].
  - apply bind_ok in H as (st1 & H1 & H).
    destruct (decode_seq_completes w g st st1 k H1)
      as (sd & t & slots & Hsd & Ht & _ & _ & _ & Hst1).
    rewrite (Hd k v (or_introl eq_refl)) in Hsd; injection Hsd as <-.
    destruct (IH (fun k' v' Hin => Hd k' v' (or_intror Hin)) st1 st' H)
      as (Happ & Hgroups & Hlen).
    simpl; rewrite Ht; simpl.
    split; [| split; [rewrite Hgroups, Hst1; reflexivity
                     | f_equal; exact Hlen]].
    apply (decode_appends_trans st st1 st' [v] (map snd d) [t] _);
      [| exact Happ].
    rewrite Hst1; unfold decode_appends; simpl; repeat split.
Qed.

Lemma decode_group_appends (w : Worker) (st st' : Locals)
  (g : SequenceGroupMetadata) :
  is_dict (seq_data g) ->
  decode_group w st g = Ok st' ->
  decode_appends st st'
    (if is_decode g then map snd (seq_data g) else [])
    (if is_decode g then flat_map (table_of g) (keys (seq_data g)) else [])
  /\ seq_groups st'
     = seq_groups st ++ (if is_decode g then [seq_group_of g] else [])
  /\ (is_decode g = true ->
      List.length (flat_map (table_of g) (keys (seq_data g)))
      = List.length (seq_data g)).
Proof.
  intros Hdict; destruct (is_decode g) eqn:Hdec.
  - destruct (is_decode_true g Hdec) as (Hp & Hs).
    unfold decode_group; rewrite Hp, Hs; simpl; intros H.
    destruct (decode_seqs_append w g (seq_data g)
                (fun k v => dict_lookup_in (seq_data g) k v Hdict) _ _ H)
      as (Happ & Hgroups & Hlen).
    split; [exact Happ | split; [exact Hgroups | intros _; exact Hlen]].
  - rewrite (decode_group_skip w st g Hdec); intros H; injection H as <-.
    split; [apply decode_appends_refl |].
    split; [symmetry; apply app_nil_r | discriminate].
Qed.

Lemma decode_pass_appends (w : Worker) (gs : list SequenceGroupMetadata) :
  Forall (fun g => is_dict (seq_data g)) gs ->
  forall st st', decode_pass w st gs = Ok st' ->
  decode_appends st st' (decode_sequences gs) (decode_block_tables gs)
  /\ seq_groups st'
     = seq_groups st ++ map seq_group_of (filter is_decode gs)
  /\ List.length (decode_block_tables gs)
     = List.length (decode_sequences gs).
Proof.
  unfold decode_pass, decode_sequences, decode_block_tables.
  induction gs as [| g gs IH]; intros Hdict st st' H; simpl in H.
  - injection H as <-; split; [apply decode_appends_refl |].
    split; [symmetry; apply app_nil_r | reflexivity].
  - inversion Hdict as [| ? ? Hg Hgs]; subst.
    apply bind_ok in H as (st1 & H1 & H).
    destruct (decode_group_appends w st st1 g Hg H1) as (Ha1 & Hg1 & Hl1).
    destruct (IH Hgs st1 st' H) as (Ha2 & Hg2 & Hl2).
    simpl; destruct (is_decode g); simpl.
    + split; [apply (decode_appends_trans _ _ _ _ _ _ _ Ha1 Ha2) |].
      split; [rewrite Hg2, Hg1, <- app_assoc; reflexivity |].
      rewrite !length_app, Hl2, (Hl1 eq_refl), length_map; reflexivity.
    + split; [apply (decode_appends_trans _ _ _ [] _ [] _ Ha1 Ha2) |].
      split; [rewrite Hg2, Hg1, app_nil_r; reflexivity | exact Hl2].
Qed.

Lemma prefill_appends_refl (st : Locals) : prefill_appends st st [].
Proof. unfold prefill_appends; simpl; rewrite !app_nil_r; repeat split. Qed.

Lemma prefill_appends_trans (st st1 st2 : Locals)
  (gs gs' : list SequenceGroupMetadata) :
  prefill_appends st st1 gs -> prefill_appends st1 st2 gs' ->
  prefill_appends st st2 (gs ++ gs').
Proof.
  unfold prefill_appends.
  intros (H1 & H2 & H3 & H4 & H5 & H6 & H7 & H8)
         (H1' & H2' & H3' & H4' & H5' & H6' & H7' & H8').
  rewrite H1', H2', H3', H4', H5', H6', H7', H8'.
  rewrite H1, H2, H3, H4, H5, H6, H7, H8.
  rewrite !map_app, !app_assoc; repeat split.
Qed.

Lemma prefill_group_appends (w : Worker) (st st' : Locals)
  (g : SequenceGroupMetadata) :
  prefill_group w st g = Ok st' ->
  prefill_appends st st' (if is_prefill g then [g] else []).
Proof.
  destruct (is_prefill g) eqn:Hpre.
  - destruct (is_prefill_true g Hpre) as (Hp & Hs).
    destruct (seq_data g) as [| [id sd] rest] eqn:Hd.
    + unfold prefill_group; rewrite Hp, Hs, Hd; simpl; discriminate.
    + rewrite (prefill_group_first w st g id sd rest Hp Hs Hd); cbv zeta.
      assert (Hfields : forall slots,
                prefill_appends st
                  (push_slots
                     (push_prompt
                        (push_seq_group st (keys (seq_data g))
                           (sampling_params g))
                        (running_inflight_tokens sd) (is_generating sd)
                        (slice_to (get_token_ids sd)
                           (running_inflight_tokens sd))) slots) [g]).
      { intros slots; unfold prefill_appends, seq_group_of,
          forwarded_prompt_len, prompt_generating; simpl.
        rewrite Hd; repeat split. }
      destruct (block_tables g) as [tables |].
      * intros H; apply bind_ok in H as (t & _ & H).
        apply bind_ok in H as (slots & _ & H); injection H as <-.
        apply Hfields.
      * intros H; injection H as <-; apply Hfields.
  - rewrite (prefill_group_skip w st g Hpre); intros H; injection H as <-.
    apply prefill_appends_refl.
Qed.

Lemma prefill_pass_appends (w : Worker) (gs : list SequenceGroupMetadata) :
  forall st st', prefill_pass w st gs = Ok st' ->
  prefill_appends st st' (filter is_prefill gs).
Proof.
  unfold prefill_pass; induction gs as [| g gs IH]; intros st st' H;
    simpl in H.
  - injection H as <-; apply prefill_appends_refl.
  - apply bind_ok in H as (st1 & H1 & H).
    pose proof (prefill_group_appends w st st1 g H1) as Ha1.
    pose proof (IH st1 st' H) as Ha2.
    simpl; destruct (is_prefill g);
      [apply (prefill_appends_trans _ _ _ [g] _ Ha1 Ha2)
      | apply (prefill_appends_trans _ _ _ [] _ Ha1 Ha2)].
Qed.

(** The lists of a state that both passes have built. *)
Lemma collect_metadata (w : Worker) (gs : list SequenceGroupMetadata)
  (st : Locals) :
  Forall (fun g => is_dict (seq_data g)) gs ->
  collect w gs = Ok st ->
  seq_groups st
  = map seq_group_of (filter is_prefill gs)
    ++ map seq_group_of (filter is_decode gs)
  /\ prompt_lens st = map forwarded_prompt_len (filter is_prefill gs)
  /\ is_generating_new_token st
     = map prompt_generating (filter is_prefill gs)
       ++ map generating (decode_sequences gs)
  /\ context_lens st = map context_len (decode_sequences gs)
  /\ running_query_lens st
     = map running_inflight_tokens (decode_sequences gs)
  /\ generation_block_tables st = decode_block_tables gs
  /\ max_context_len st
     = max_from 0 (map context_len (decode_sequences gs))
  /\ max_num_blocks_per_seq st
     = max_from 0 (map len (decode_block_tables gs))
  /\ List.length (decode_block_tables gs)
     = List.length (decode_sequences gs).
Proof.
  intros Hdict H; unfold collect in H.
  apply bind_ok in H as (st1 & Hpre & Hdec).
  destruct (prefill_pass_appends w gs _ _ Hpre)
    as (P1 & P2 & P3 & P4 & P5 & P6 & P7 & P8).
  destruct (decode_pass_appends w gs Hdict _ _ Hdec)
    as ((D1 & D2 & D3 & D4 & D5 & D6 & D7) & Dg & Dl).
  simpl in P1, P2, P3, P4, P5, P6, P7, P8.
  rewrite Dg, D1, D2, D3, D4, D5, D6, D7, P1, P2, P3, P4, P5, P6, P7, P8.
  repeat split; exact Dl.
Qed.

(** The metadata of a returned batch, from the lists that the passes
    built. *)
Lemma finish_metadata (w : Worker) (gs : list SequenceGroupMetadata)
  (st : Locals) (batch : Batch) :
  finish w gs st = Ok (Some batch) ->
  let m := input_metadata batch in
  im_seq_groups m = seq_groups st
  /\ im_prompt_lens m = prompt_lens st
  /\ im_is_generating_new_token m = is_generating_new_token st
  /\ im_context_lens m = context_lens st
  /\ im_running_query_lens m = running_query_lens st
  /\ im_max_context_len m = max_context_len st
  /\ im_block_tables m
     = map (fun t => _pad_to_max t (max_num_blocks_per_seq st))
         (generation_block_tables st)
  /\ im_sliding_window m = sliding_window w
  /\ for_fold merge_seq_data [] gs = Ok (im_seq_data m)
  /\ len (is_generating_new_token st) = len (seq_groups st).
Proof.
  intros H.
  assert (Ht : input_tokens st <> [])
    by (intros Ht; unfold finish in H; rewrite Ht in H; discriminate H).
  rewrite (finish_nonempty w gs st Ht) in H.
  apply bind_ok in H as (merged & Hmerged & H).
  apply bind_ok in H as ([] & Hassert & H).
  injection H as <-; simpl.
  repeat split; auto.
  unfold assert_that in Hassert.
  destruct (Z.eqb_spec (len (is_generating_new_token st)) (len (seq_groups st)));
    [assumption | discriminate Hassert].
Qed.

(* ================================================================== *)
(** ** Sliding window: what reaches a batch *)
(* ================================================================== *)

(** [l[-1]] of a list comprehension over [l]. *)
Lemma getitem_last_map {A B} (f : A -> B) (l : list A) :
  getitem (map f l) (-1)
  = match getitem l (-1) with
    | Ok x => Ok (f x)
    | Raise e => Raise e
    end.
Proof.
  unfold getitem; rewrite len_map.
  destruct ((if -1 <? 0 then -1 + len l else -1) <? 0); [reflexivity |].
  rewrite nth_error_map.
  destruct (nth_error l (Z.to_nat (if -1 <? 0 then -1 + len l else -1)));
    reflexivity.
Qed.

(** With a sliding window, an iteration of the inner decode loop is decided
    by the same iteration without the window: it raises what that one
    raises, and fails the assertion when that one completes. *)
Lemma decode_seq_with_window (w : Worker) (sw : Z)
  (g : SequenceGroupMetadata) (st : Locals) (id : Z) :
  sliding_window w = Some sw ->
  decode_seq w g st id
  = match decode_seq (without_sliding_window w) g st id with
    | Ok _ => Raise AssertionError
    | Raise e => Raise e
    end.
Proof.
  intros Hsw; unfold decode_seq.
  destruct (dict_get (seq_data g) id) as [sd | e]; simpl; [| reflexivity].
  destruct (block_table_of g id) as [t | e]; simpl; [| reflexivity].
  unfold clamp_hists; rewrite Hsw; simpl.
  rewrite getitem_last_map.
  destruct (getitem (decode_hists sd) (-1)) as [h | e]; simpl;
    [| reflexivity].
  change (decode_slots (without_sliding_window w) t (decode_positions sd))
    with (decode_slots w t (decode_positions sd)).
  destruct (decode_slots w t (decode_positions sd)) as [slots | e]; simpl;
    reflexivity.
Qed.

(** A decode pass that completes with a sliding window has met no decode
    sequence, and leaves the lists of the decode sequences as they were. *)
Lemma decode_pass_with_window (w : Worker) (sw : Z) :
  sliding_window w = Some sw ->
  forall gs st st', decode_pass w st gs = Ok st' ->
  decode_sequences gs = []
  /\ context_lens st' = context_lens st
  /\ max_context_len st' = max_context_len st
  /\ running_query_lens st' = running_query_lens st.
Proof.
  intros Hsw; unfold decode_pass, decode_sequences.
  induction gs as [| g gs IH]; intros st st' H; simpl in H.
  - injection H as <-; auto.
  - apply bind_ok in H as (st1 & H1 & H).
    destruct (IH st1 st' H) as (Hseqs & Hctx & Hmax & Hqs).
    simpl; destruct (is_decode g) eqn:Hdec.
    + destruct (is_decode_true g Hdec) as (Hp & Hs).
      unfold decode_group in H1; rewrite Hp, Hs in H1; simpl in H1.
      destruct (seq_data g) as [| [id sd] rest] eqn:Hd.
      * simpl in H1; injection H1 as <-.
        simpl; rewrite Hseqs, Hd; auto.
      * simpl in H1.
        destruct (decode_seq_window_raise w sw g
                    (push_seq_group st (id :: keys rest) (sampling_params g))
                    id Hsw) as (e & He).
        rewrite He in H1; discriminate H1.
    + rewrite (decode_group_skip w st g Hdec) in H1; injection H1 as <-.
      auto.
Qed.

(** C5, as the code has it.  With a sliding window [sw]: the prefill pass is
    the one of the worker without the window, so nothing is clamped in
    prefill addressing, and the slots of the decode pass do not depend on
    the window either; an iteration of the inner decode loop raises what the
    same iteration raises without the window, and [AssertionError] when that
    one completes, so it never completes; batch assembly fails when the list
    has a decode group with a sequence; and a batch that is returned holds
    no decode sequence, so that its context lengths and query lengths are
    empty and its maximal context length is 0: no clamped history length
    reaches a batch. *)
Theorem sliding_window_asymmetry (w : Worker) (sw : Z) :
  sliding_window w = Some sw ->
  (forall st gs,
     prefill_pass w st gs = prefill_pass (without_sliding_window w) st gs)
  /\ (forall t positions,
        decode_slots w t positions
        = decode_slots (without_sliding_window w) t positions)
  /\ (forall g st id,
        decode_seq w g st id
        = match decode_seq (without_sliding_window w) g st id with
          | Ok _ => Raise AssertionError
          | Raise e => Raise e
          end)
  /\ (forall g st id, exists e, decode_seq w g st id = Raise e)
  /\ (forall g st id st',
        decode_seq (without_sliding_window w) g st id = Ok st' ->
        decode_seq w g st id = Raise AssertionError)
  /\ (forall gs g, In g gs -> is_decode g = true -> seq_data g <> [] ->
        exists e, _prepare_inputs w gs = Raise e)
  /\ (forall gs batch,
        _prepare_inputs w gs = Ok (Some batch) ->
        decode_sequences gs = []
        /\ im_context_lens (input_metadata batch) = []
        /\ im_running_query_lens (input_metadata batch) = []
        /\ im_max_context_len (input_metadata batch) = 0
        /\ im_sliding_window (input_metadata batch) = Some sw).
Proof.
  intros Hsw.
  split; [intros st gs; unfold prefill_pass; apply for_fold_ext; reflexivity |].
  split; [reflexivity |].
  split; [intros g st id; apply (decode_seq_with_window w sw g st id Hsw) |].
  split; [intros g st id; apply (decode_seq_window_raise w sw g st id Hsw) |].
  split.
  { intros g st id st' H.
    rewrite (decode_seq_with_window w sw g st id Hsw), H; reflexivity. }
  split.
  - intros gs g Hin Hdec Hne.
    destruct (is_decode_true g Hdec) as (Hp & Hs).
    apply (prepare_inputs_decode_raise w gs g Hin).
    destruct (seq_data g) as [| [id sd] rest] eqn:Hd; [congruence |].
    apply (decode_group_raise w g id Hp Hs);
      [rewrite Hd; left; reflexivity |].
    intros st; apply (decode_seq_window_raise w sw g st id Hsw).
  - intros gs batch H.
    apply prepare_inputs_some in H as (st & Hc & _ & Hf).
    unfold collect in Hc; apply bind_ok in Hc as (st1 & Hpre & Hdec).
    destruct (prefill_pass_appends w gs _ _ Hpre)
      as (_ & _ & _ & P4 & P5 & _ & P7 & _).
    destruct (decode_pass_with_window w sw Hsw gs st1 st Hdec)
      as (Hseqs & Hctx & Hmax & Hqs).
    destruct (finish_metadata w gs st batch Hf)
      as (_ & _ & _ & -> & -> & -> & _ & -> & _).
    rewrite Hctx, Hmax, Hqs, P4, P5, P7; auto.
Qed.

(** A window of 2 tokens: a prompt of 4 tokens keeps its four slots; a
    decode sequence that would be assembled without the window fails the
    assertion, and one that forwards no token fails as it does without the
    window; and the batch of the prompt alone has a maximal context length
    of 0. *)
Lemma sliding_window_asymmetry_witness :
  prefill_pass Scenario.worker4_window2 init_locals [Scenario.group_P4]
  = prefill_pass Scenario.worker4 init_locals [Scenario.group_P4]
  /\ decode_seq Scenario.worker4_window2 Scenario.group_D init_locals 2
     = Raise AssertionError
  /\ decode_seq Scenario.worker4_window2 Scenario.group_idle init_locals 2
     = Raise IndexError
  /\ (exists e,
        _prepare_inputs Scenario.worker4_window2 [Scenario.group_D] = Raise e)
  /\ exists batch,
       _prepare_inputs Scenario.worker4_window2 [Scenario.group_P4]
       = Ok (Some batch)
       /\ im_max_context_len (input_metadata batch) = 0.
Proof.
  destruct (sliding_window_asymmetry Scenario.worker4_window2 2 eq_refl)
    as (Hprefill & _ & Hseq & _ & Hassert & Hlist & Hbatch).
  split; [apply Hprefill |].
  split; [eapply Hassert; reflexivity |].
  split; [rewrite Hseq; reflexivity |].
  split.
  { apply (Hlist _ Scenario.group_D);
      [left; reflexivity | reflexivity | discriminate]. }
  destruct (_prepare_inputs Scenario.worker4_window2 [Scenario.group_P4])
    as [[batch |] | e] eqn:Hrun;
    [| vm_compute in Hrun; discriminate Hrun
     | vm_compute in Hrun; discriminate Hrun].
  exists batch; split; [reflexivity |].
  destruct (Hbatch _ batch Hrun) as (_ & _ & _ & Hmax & _); exact Hmax.
Defined.

(** C5, as stated, fails.  With a window of 2 tokens and block size 4, the
    prefill pass over a prompt of 4 tokens addresses the positions 0 to 3
    with their own slots, as it does without the window: nothing is clamped
    in prefill addressing.  The clamp is in the decode pass: the history
    length 6 of a decode sequence becomes 2. *)
Lemma sliding_window_clamp_not_in_prefill :
  (exists st,
     prefill_pass Scenario.worker4_window2 init_locals [Scenario.group_P4]
     = Ok st
     /\ prefill_pass Scenario.worker4 init_locals [Scenario.group_P4] = Ok st
     /\ input_positions st = [0; 1; 2; 3]
     /\ slot_mapping st = [28; 29; 30; 31])
  /\ decode_hists Scenario.decode6 = [6]
  /\ clamp_hists Scenario.worker4_window2 (decode_hists Scenario.decode6) = [2].
Proof.
  split; [eexists; repeat split; reflexivity | split; reflexivity].
Qed.

(* ================================================================== *)
(** ** The metadata of a returned batch *)
(* ================================================================== *)

Lemma max_from_bounds (l : list Z) :
  forall init,
    init <= max_from init l
    /\ (forall x, In x l -> x <= max_from init l)
    /\ (max_from init l = init \/ In (max_from init l) l).
Proof.
  unfold max_from; induction l as [| y l IH]; intros init; simpl.
  - split; [lia | split; [intros x [] | left; reflexivity]].
  - destruct (IH (Z.max init y)) as (Hinit & Hall & Hin).
    split; [lia |].
    split; [intros x [<- | Hx]; [lia | apply Hall, Hx] |].
    destruct Hin as [Heq | Hin]; [| right; right; exact Hin].
    destruct (Z.max_spec init y) as [(_ & Hm) | (_ & Hm)];
      rewrite Hm in Heq |- *;
      [right; left; symmetry; exact Heq | left; exact Heq].
Qed.

(** The decode sequences that a completed decode pass has read forward at
    least one token each, and are read without a sliding window. *)
Lemma decode_pass_forwards (w : Worker) (gs : list SequenceGroupMetadata) :
  Forall (fun g => is_dict (seq_data g)) gs ->
  forall st st', decode_pass w st gs = Ok st' ->
  Forall (fun sd => 1 <= running_inflight_tokens sd
                    /\ sliding_window w = None) (decode_sequences gs).
Proof.
  assert (Hseqs : forall g d,
            (forall k v, In (k, v) d -> lookup (seq_data g) k = Some v) ->
            forall st st', for_fold (decode_seq w g) st (keys d) = Ok st' ->
            Forall (fun sd => 1 <= running_inflight_tokens sd
                              /\ sliding_window w = None) (map snd d)).
  { intros g d; induction d as [| [k v] d IH]; intros Hd st st' H;
      simpl in *; [constructor |].
    apply bind_ok in H as (st1 & H1 & H).
    destruct (decode_seq_completes w g st st1 k H1)
      as (sd & _ & _ & Hsd & _ & Hsw & Hrun & _).
    rewrite (Hd k v (or_introl eq_refl)) in Hsd; injection Hsd as <-.
    constructor; [auto |].
    apply (IH (fun k' v' Hin => Hd k' v' (or_intror Hin)) st1 st' H). }
  unfold decode_pass, decode_sequences.
  induction gs as [| g gs IH]; intros Hdict st st' H; simpl in *;
    [constructor |].
  inversion Hdict as [| ? ? Hg Hgs]; subst.
  apply bind_ok in H as (st1 & H1 & H).
  specialize (IH Hgs st1 st' H).
  destruct (is_decode g) eqn:Hdec; [| exact IH].
  simpl; apply Forall_app; split; [| exact IH].
  destruct (is_decode_true g Hdec) as (Hp & Hs).
  unfold decode_group in H1; rewrite Hp, Hs in H1; simpl in H1.
  apply (Hseqs g (seq_data g)
           (fun k v => dict_lookup_in (seq_data g) k v Hg) _ _ H1).
Qed.

(** The context lengths of a returned batch: one per decode sequence, the
    tokens seen plus the tokens forwarded; the query lengths are the tokens
    forwarded, at least one per sequence; and the maximal context length is
    the largest context length, or 0 when that is larger.  A batch with a
    decode sequence is returned only without a sliding window. *)
Theorem batch_context_lens (w : Worker) (gs : list SequenceGroupMetadata)
  (batch : Batch) :
  Forall (fun g => is_dict (seq_data g)) gs ->
  _prepare_inputs w gs = Ok (Some batch) ->
  let m := input_metadata batch in
  im_context_lens m = map context_len (decode_sequences gs)
  /\ im_running_query_lens m
     = map running_inflight_tokens (decode_sequences gs)
  /\ (forall qs, In qs (im_running_query_lens m) -> 1 <= qs)
  /\ (forall c, In c (im_context_lens m) -> c <= im_max_context_len m)
  /\ (im_max_context_len m = 0
      \/ In (im_max_context_len m) (im_context_lens m))
  /\ (decode_sequences gs <> [] -> im_sliding_window m = None).
Proof.
  intros Hdict H; cbv zeta.
  apply prepare_inputs_some in H as (st & Hc & _ & Hf).
  destruct (collect_metadata w gs st Hdict Hc)
    as (_ & _ & _ & Hctx & Hqs & _ & Hmax & _).
  destruct (finish_metadata w gs st batch Hf)
    as (_ & _ & _ & -> & -> & -> & _ & -> & _).
  assert (Hfwd : Forall (fun sd => 1 <= running_inflight_tokens sd
                                   /\ sliding_window w = None)
                   (decode_sequences gs)).
  { unfold collect in Hc; apply bind_ok in Hc as (st1 & _ & Hdec).
    apply (decode_pass_forwards w gs Hdict _ _ Hdec). }
  rewrite Hctx, Hqs, Hmax.
  destruct (max_from_bounds (map context_len (decode_sequences gs)) 0)
    as (_ & Hall & Hin).
  split; [reflexivity | split; [reflexivity |]].
  split.
  { intros qs Hin'; apply in_map_iff in Hin' as (sd & <- & Hsd).
    apply (proj1 (Forall_forall _ _) Hfwd sd Hsd). }
  split; [exact Hall | split; [exact Hin |]].
  intros Hne; destruct (decode_sequences gs) as [| sd sds]; [congruence |].
  inversion Hfwd as [| ? ? (_ & Hsw) _]; exact Hsw.
Qed.

Lemma step_B_dicts :
  Forall (fun g => is_dict (seq_data g)) Cases.step_B.
Proof. repeat constructor; simpl; intuition. Qed.

(** Scenario B: two decode sequences that forward 1 and 3 tokens after 5
    and 7 tokens seen; the maximal context length is the larger of 5 + 1
    and 7 + 3. *)
Lemma batch_context_lens_witness :
  exists batch,
    _prepare_inputs Scenario.worker4 Cases.step_B = Ok (Some batch)
    /\ im_context_lens (input_metadata batch) = [6; 10]
    /\ im_max_context_len (input_metadata batch) = Z.max (5 + 1) (7 + 3).
Proof.
  destruct (_prepare_inputs Scenario.worker4 Cases.step_B)
    as [[batch |] | e] eqn:Hrun;
    [| vm_compute in Hrun; discriminate Hrun
     | vm_compute in Hrun; discriminate Hrun].
  exists batch; split; [reflexivity |].
  destruct (batch_context_lens Scenario.worker4 Cases.step_B batch
              step_B_dicts Hrun) as (Hctx & _ & _ & Hall & Hin & _).
  split; [exact Hctx |].
  rewrite Hctx in Hall, Hin.
  change (map context_len (decode_sequences Cases.step_B)) with [6; 10]
    in Hall, Hin.
  pose proof (Hall 10 (or_intror (or_introl eq_refl))) as H10.
  change (Z.max (5 + 1) (7 + 3)) with 10.
  destruct Hin as [H0 | [H6 | [H10' | []]]]; lia.
Defined.

(** The block tables of a returned batch are rectangular: one row per
    decode sequence, each row the block table of the sequence followed by
    zeros, and every row as long as the longest block table. *)
Theorem batch_block_tables_rectangular (w : Worker)
  (gs : list SequenceGroupMetadata) (batch : Batch) :
  Forall (fun g => is_dict (seq_data g)) gs ->
  _prepare_inputs w gs = Ok (Some batch) ->
  let rows := im_block_tables (input_metadata batch) in
  let widest := max_from 0 (map len (decode_block_tables gs)) in
  rows = map (fun t => t ++ replicate 0 (widest - len t))
           (decode_block_tables gs)
  /\ (forall t, In t (decode_block_tables gs) -> len t <= widest)
  /\ (forall row, In row rows -> len row = widest)
  /\ List.length rows = List.length (decode_sequences gs).
Proof.
  intros Hdict H; cbv zeta.
  apply prepare_inputs_some in H as (st & Hc & _ & Hf).
  destruct (collect_metadata w gs st Hdict Hc)
    as (_ & _ & _ & _ & _ & Htables & _ & Hwidest & Hlen).
  destruct (finish_metadata w gs st batch Hf)
    as (_ & _ & _ & _ & _ & _ & -> & _).
  rewrite Htables, Hwidest.
  destruct (max_from_bounds (map len (decode_block_tables gs)) 0)
    as (_ & Hall & _).
  assert (Hle : forall t, In t (decode_block_tables gs) ->
            len t <= max_from 0 (map len (decode_block_tables gs)))
    by (intros t Ht; apply Hall, in_map, Ht).
  split; [reflexivity |].
  split; [exact Hle |].
  split; [| rewrite length_map; exact Hlen].
  intros row Hrow; apply in_map_iff in Hrow as (t & <- & Ht).
  unfold _pad_to_max; rewrite len_app, len_replicate.
  specialize (Hle t Ht); lia.
Qed.

(** Scenario B: block tables of 2 and 3 blocks; the shorter one gets one
    zero. *)
Lemma batch_block_tables_rectangular_witness :
  exists batch,
    _prepare_inputs Scenario.worker4 Cases.step_B = Ok (Some batch)
    /\ im_block_tables (input_metadata batch) = [[3; 4; 0]; [5; 6; 7]].
Proof.
  destruct (_prepare_inputs Scenario.worker4 Cases.step_B)
    as [[batch |] | e] eqn:Hrun;
    [| vm_compute in Hrun; discriminate Hrun
     | vm_compute in Hrun; discriminate Hrun].
  exists batch; split; [reflexivity |].
  destruct (batch_block_tables_rectangular Scenario.worker4 Cases.step_B
              batch step_B_dicts Hrun) as (Hrows & _).
  exact Hrows.
Defined.

Lemma len_flat_map_same {A} (f f' : A -> list Z) (l : list A) :
  (forall x, In x l -> len (f x) = len (f' x)) ->
  len (flat_map f l) = len (flat_map f' l).
Proof.
  induction l as [| x l IH]; intros H; simpl; [reflexivity |].
  rewrite !len_app, (H x (or_introl eq_refl)), IH; [reflexivity |].
  intros y Hy; apply H; right; exact Hy.
Qed.

Lemma decode_sequences_consistent (gs : list SequenceGroupMetadata) :
  Forall well_formed gs -> Forall consistent (decode_sequences gs).
Proof.
  unfold decode_sequences; induction 1 as [| g gs (_ & Hg) _ IH]; simpl;
    [constructor |].
  destruct (is_decode g); [| exact IH].
  simpl; apply Forall_app; split; assumption.
Qed.

(** For well-formed groups, the token array and the position array of a
    returned batch have the same length: every token has its position. *)
Theorem batch_arrays_same_length (w : Worker)
  (gs : list SequenceGroupMetadata) (batch : Batch) :
  Forall well_formed gs ->
  _prepare_inputs w gs = Ok (Some batch) ->
  len (tokens_tensor batch) = len (positions_tensor batch)
  /\ len (expected_tokens gs) = len (expected_positions gs).
Proof.
  intros Hwf H.
  apply prepare_inputs_some in H as (st & Hc & _ & Hf).
  destruct (collect_extends w gs st (well_formed_dicts gs Hwf) Hc)
    as (Ht & Hp & _).
  destruct (finish_some w gs st batch Hf) as (-> & -> & _).
  assert (Hsame : len (expected_tokens gs) = len (expected_positions gs)).
  { unfold expected_tokens, expected_positions; rewrite !len_app; f_equal.
    - apply len_flat_map_same; intros g _.
      rewrite len_range; pose proof (len_nonneg (inflight_prompt_tokens g));
        lia.
    - apply len_flat_map_same; intros sd Hsd.
      pose proof (proj1 (Forall_forall _ _)
                    (decode_sequences_consistent gs Hwf) sd Hsd) as Hcons.
      rewrite (len_inflight_decode_tokens sd Hcons), len_decode_positions.
      destruct Hcons; lia. }
  split; [| exact Hsame].
  rewrite Ht, Hp, !len_app, !len_replicate, Hsame; reflexivity.
Qed.

Lemma batch_arrays_same_length_witness :
  exists batch,
    _prepare_inputs Scenario.worker4 Scenario.mixed_step = Ok (Some batch)
    /\ len (tokens_tensor batch) = len (positions_tensor batch).
Proof.
  destruct (_prepare_inputs Scenario.worker4 Scenario.mixed_step)
    as [[batch |] | e] eqn:Hrun;
    [| vm_compute in Hrun; discriminate Hrun
     | vm_compute in Hrun; discriminate Hrun].
  exists batch; split; [reflexivity |].
  destruct (batch_arrays_same_length Scenario.worker4 Scenario.mixed_step
              batch mixed_step_well_formed Hrun) as (H & _).
  exact H.
Defined.

(** The groups of a returned batch are listed with the prefill groups
    first and the decode groups after them, whatever their order in the
    step, each with all the ids of its sequences; the prompt lengths are
    those of the prefill groups, and the generating flags are those of the
    prefill groups followed by those of the decode sequences. *)
Theorem batch_groups_prefill_first (w : Worker)
  (gs : list SequenceGroupMetadata) (batch : Batch) :
  Forall (fun g => is_dict (seq_data g)) gs ->
  _prepare_inputs w gs = Ok (Some batch) ->
  let m := input_metadata batch in
  im_seq_groups m
  = map seq_group_of (filter is_prefill gs)
    ++ map seq_group_of (filter is_decode gs)
  /\ im_prompt_lens m = map forwarded_prompt_len (filter is_prefill gs)
  /\ im_is_generating_new_token m
     = map prompt_generating (filter is_prefill gs)
       ++ map generating (decode_sequences gs).
Proof.
  intros Hdict H; cbv zeta.
  apply prepare_inputs_some in H as (st & Hc & _ & Hf).
  destruct (collect_metadata w gs st Hdict Hc) as (Hg & Hp & Hgen & _).
  destruct (finish_metadata w gs st batch Hf) as (-> & -> & -> & _).
  auto.
Qed.

(** A decode group listed before a prompt group comes after it in the
    batch. *)
Lemma batch_groups_prefill_first_witness :
  exists batch,
    _prepare_inputs Scenario.worker4 Scenario.mixed_step = Ok (Some batch)
    /\ map fst (im_seq_groups (input_metadata batch)) = [[1]; [2]]
    /\ im_prompt_lens (input_metadata batch) = [5].
Proof.
  destruct (_prepare_inputs Scenario.worker4 Scenario.mixed_step)
    as [[batch |] | e] eqn:Hrun;
    [| vm_compute in Hrun; discriminate Hrun
     | vm_compute in Hrun; discriminate Hrun].
  exists batch; split; [reflexivity |].
  destruct (batch_groups_prefill_first Scenario.worker4 Scenario.mixed_step
              batch (well_formed_dicts _ mixed_step_well_formed) Hrun)
    as (Hg & Hp & _).
  split; [rewrite Hg; reflexivity | exact Hp].
Defined.

(* ================================================================== *)
(** ** Sequences per decode group *)
(* ================================================================== *)

Lemma flat_map_all_single {A B} (f : A -> list B) (l : list A) :
  List.length (flat_map f l) = List.length l ->
  (forall x, In x l -> f x <> []) ->
  forall x, In x l -> List.length (f x) = 1%nat.
Proof.
  induction l as [| y l IH]; intros Hlen Hne x Hx; [destruct Hx |].
  simpl in Hlen; rewrite length_app in Hlen.
  assert (Hy : (1 <= List.length (f y))%nat).
  { pose proof (Hne y (or_introl eq_refl)) as H.
    destruct (f y); [congruence | simpl; lia]. }
  assert (Hrest : (List.length l <= List.length (flat_map f l))%nat).
  { clear -Hne; induction l as [| z l IH]; simpl; [lia |].
    rewrite length_app.
    assert ((1 <= List.length (f z))%nat).
    { pose proof (Hne z (or_intror (or_introl eq_refl))) as H.
      destruct (f z); [congruence | simpl; lia]. }
    assert ((List.length l <= List.length (flat_map f l))%nat); [| lia].
    apply IH; intros x [-> | Hx]; apply Hne; [left | right; right]; auto. }
  destruct Hx as [-> | Hx]; [lia |].
  apply IH; [lia | intros z Hz; apply Hne; right; exact Hz | exact Hx].
Qed.

(** A returned batch has as many decode sequences as decode groups: the
    assertion at the end of batch assembly counts one generating flag per
    group.  So when no decode group is empty, every decode group of a
    returned batch has exactly one sequence, and a step with a decode group
    of several sequences is never assembled. *)
Theorem decode_groups_single_sequence (w : Worker)
  (gs : list SequenceGroupMetadata) :
  Forall (fun g => is_dict (seq_data g)) gs ->
  (forall batch,
     _prepare_inputs w gs = Ok (Some batch) ->
     List.length (decode_sequences gs) = List.length (filter is_decode gs)
     /\ ((forall g, In g gs -> is_decode g = true -> seq_data g <> []) ->
         forall g, In g gs -> is_decode g = true ->
                   List.length (seq_data g) = 1%nat))
  /\ ((forall g, In g gs -> is_decode g = true -> seq_data g <> []) ->
      (exists g, In g gs /\ is_decode g = true
                 /\ (2 <= List.length (seq_data g))%nat) ->
      forall batch, _prepare_inputs w gs <> Ok (Some batch)).
Proof.
  intros Hdict.
  assert (Hmain : forall batch,
            _prepare_inputs w gs = Ok (Some batch) ->
            List.length (decode_sequences gs)
            = List.length (filter is_decode gs)
            /\ ((forall g, In g gs -> is_decode g = true -> seq_data g <> []) ->
                forall g, In g gs -> is_decode g = true ->
                          List.length (seq_data g) = 1%nat)).
  { intros batch H.
    apply prepare_inputs_some in H as (st & Hc & _ & Hf).
    destruct (collect_metadata w gs st Hdict Hc) as (Hg & _ & Hgen & _).
    destruct (finish_metadata w gs st batch Hf)
      as (_ & _ & _ & _ & _ & _ & _ & _ & _ & Hassert).
    rewrite Hg, Hgen in Hassert; unfold len in Hassert.
    rewrite !length_app, !length_map in Hassert.
    assert (Hcount : List.length (decode_sequences gs)
                     = List.length (filter is_decode gs)) by lia.
    split; [exact Hcount |].
    intros Hne g Hin Hdec.
    rewrite <- (length_map snd).
    apply (flat_map_all_single (fun g0 => map snd (seq_data g0))
             (filter is_decode gs)).
    - exact Hcount.
    - intros g0 Hg0; apply filter_In in Hg0 as (Hin0 & Hdec0).
      pose proof (Hne g0 Hin0 Hdec0) as H0.
      destruct (seq_data g0); [congruence | discriminate].
    - apply filter_In; auto. }
  split; [exact Hmain |].
  intros Hne (g & Hin & Hdec & Htwo) batch H.
  destruct (Hmain batch H) as (_ & Hsingle).
  specialize (Hsingle Hne g Hin Hdec); lia.
Qed.

(** A decode group with the sequences 1 and 2 is not assembled. *)
Lemma decode_groups_single_sequence_witness :
  match _prepare_inputs Scenario.worker4 [Cases.group_pair] with
  | Ok (Some _) => False
  | _ => True
  end.
Proof.
  assert (Hdict : Forall (fun g => is_dict (seq_data g)) [Cases.group_pair]).
  { repeat constructor; simpl; intuition discriminate. }
  destruct (decode_groups_single_sequence Scenario.worker4
              [Cases.group_pair] Hdict) as (_ & H).
  destruct (_prepare_inputs Scenario.worker4 [Cases.group_pair])
    as [[batch |] | e] eqn:Hrun; [| exact I | exact I].
  apply (H ltac:(intros g [<- | []] _; discriminate)
           ltac:(exists Cases.group_pair; repeat split;
                 [left; reflexivity | simpl; lia]) batch).
  reflexivity.
Defined.

(* ================================================================== *)
(** ** The merged sequence data *)
(* ================================================================== *)

Lemma dict_set_fresh {V} (d : dict V) (k : Z) (v : V) :
  ~ In k (keys d) -> dict_set d k v = d ++ [(k, v)].
Proof.
  induction d as [| [k0 v0] d IH]; simpl; intros Hk; [reflexivity |].
  destruct (Z.eqb_spec k0 k) as [-> | Hne]; [exfalso; apply Hk; auto |].
  rewrite IH; [reflexivity | intros Hin; apply Hk; auto].
Qed.

Lemma keys_app {V} (d d' : dict V) : keys (d ++ d') = keys d ++ keys d'.
Proof. unfold keys; apply map_app. Qed.

Lemma update_fresh {V} (d : dict V) :
  is_dict d ->
  forall acc, (forall k, In k (keys d) -> ~ In k (keys acc)) ->
  update acc d = acc ++ d.
Proof.
  unfold is_dict, update; induction d as [| [k v] d IH]; intros Hnd acc Hk;
    simpl; [symmetry; apply app_nil_r |].
  inversion Hnd as [| ? ? Hnotin Hnd']; subst.
  rewrite dict_set_fresh by (apply Hk; left; reflexivity).
  rewrite IH; [rewrite <- app_assoc; reflexivity | exact Hnd' |].
  intros k' Hin; rewrite keys_app; intros Hacc.
  apply in_app_or in Hacc as [Hacc | [<- | []]];
    [apply (Hk k' (or_intror Hin) Hacc) | contradiction].
Qed.

(** A merge loop that completes concatenates the [seq_data] of the groups
    that are not swap-only, and the result is a dictionary. *)
Lemma merge_loop_concat (gs : list SequenceGroupMetadata) :
  Forall (fun g => is_dict (seq_data g)) gs ->
  forall acc m,
    is_dict acc ->
    for_fold merge_seq_data acc gs = Ok m ->
    m = acc ++ flat_map seq_data (filter computing gs) /\ is_dict m.
Proof.
  induction 1 as [| g gs Hg _ IH]; intros acc m Hacc H; simpl in H.
  - injection H as <-; simpl; rewrite app_nil_r; auto.
  - apply bind_ok in H as (acc' & Hstep & H).
    simpl; unfold computing at 1.
    destruct (merge_seq_data_ok acc acc' g Hstep)
      as [(Hs & ->) | (Hs & Hfresh & ->)]; rewrite Hs; simpl.
    + apply (IH acc m Hacc H).
    + assert (Hdisj : forall k, In k (keys (seq_data g)) -> ~ In k (keys acc))
        by (intros k Hk; apply contains_false_iff, Hfresh, Hk).
      rewrite (update_fresh (seq_data g) Hg acc Hdisj) in H.
      assert (Hacc' : is_dict (acc ++ seq_data g)).
      { unfold is_dict; rewrite keys_app; apply NoDup_app; auto.
        intros k Hk1 Hk2; apply (Hdisj k Hk2 Hk1). }
      destruct (IH (acc ++ seq_data g) m Hacc' H) as (Heq & Hm).
      split; [rewrite Heq; symmetry; apply app_assoc | exact Hm].
Qed.

(** The sequence data of a returned batch is the concatenation, in the order
    of the step, of the [seq_data] of the groups that are not swap-only; it
    is a dictionary, and every sequence of such a group is found in it under
    its id. *)
Theorem batch_seq_data_merged (w : Worker) (gs : list SequenceGroupMetadata)
  (batch : Batch) :
  Forall (fun g => is_dict (seq_data g)) gs ->
  _prepare_inputs w gs = Ok (Some batch) ->
  let merged := im_seq_data (input_metadata batch) in
  merged = flat_map seq_data (filter computing gs)
  /\ is_dict merged
  /\ (forall g k sd,
        In g gs -> only_swap g = false -> In (k, sd) (seq_data g) ->
        lookup merged k = Some sd).
Proof.
  intros Hdict H; cbv zeta.
  apply prepare_inputs_some in H as (st & _ & _ & Hf).
  destruct (finish_metadata w gs st batch Hf)
    as (_ & _ & _ & _ & _ & _ & _ & _ & Hmerge & _).
  destruct (merge_loop_concat gs Hdict [] _ (NoDup_nil _) Hmerge)
    as (Hm & Hd).
  simpl in Hm.
  split; [exact Hm | split; [exact Hd |]].
  intros g k sd Hin Hs Hk.
  apply (dict_lookup_in _ k sd Hd).
  rewrite Hm; apply in_flat_map; exists g; split; [| exact Hk].
  apply filter_In; split; [exact Hin | unfold computing; rewrite Hs; auto].
Qed.

(** The sequences 2 and 1 of a decode group and a prompt group, in the order
    of the step. *)
Lemma batch_seq_data_merged_witness :
  exists batch,
    _prepare_inputs Scenario.worker4 Scenario.mixed_step = Ok (Some batch)
    /\ keys (im_seq_data (input_metadata batch)) = [2; 1]
    /\ lookup (im_seq_data (input_metadata batch)) 1 = Some Scenario.prompt5.
Proof.
  destruct (_prepare_inputs Scenario.worker4 Scenario.mixed_step)
    as [[batch |] | e] eqn:Hrun;
    [| vm_compute in Hrun; discriminate Hrun
     | vm_compute in Hrun; discriminate Hrun].
  exists batch; split; [reflexivity |].
  destruct (batch_seq_data_merged Scenario.worker4 Scenario.mixed_step batch
              (well_formed_dicts _ mixed_step_well_formed) Hrun)
    as (Hm & _ & Hlookup).
  split; [rewrite Hm; reflexivity |].
  apply (Hlookup Scenario.group_A2);
    [right; left; reflexivity | reflexivity | left; reflexivity].
Defined.

(* ================================================================== *)
(** ** Swap-only groups *)
(* ================================================================== *)

Lemma for_fold_filter {A S} (f : S -> A -> result S) (keep : A -> bool)
  (l : list A) :
  (forall s x, keep x = false -> f s x = Ok s) ->
  forall s, for_fold f s l = for_fold f s (filter keep l).
Proof.
  intros Hskip; induction l as [| x l IH]; intros s; simpl; [reflexivity |].
  destruct (keep x) eqn:Hx; simpl.
  - destruct (f s x); simpl; [apply IH | reflexivity].
  - rewrite (Hskip s x Hx); simpl; apply IH.
Qed.

Lemma computing_false (g : SequenceGroupMetadata) :
  computing g = false -> only_swap g = true.
Proof. unfold computing; destruct (only_swap g); [reflexivity | discriminate]. Qed.

(** Swap-only groups take no part in batch assembly: removing them from the
    step changes neither the batch nor the exception. *)
Theorem swap_only_groups_ignored (w : Worker)
  (gs : list SequenceGroupMetadata) :
  _prepare_inputs w gs = _prepare_inputs w (filter computing gs).
Proof.
  assert (Hpre : forall st,
            prefill_pass w st gs = prefill_pass w st (filter computing gs)).
  { unfold prefill_pass; apply for_fold_filter; intros s g Hg.
    unfold prefill_group; rewrite (computing_false g Hg), orb_true_r.
    reflexivity. }
  assert (Hdec : forall st,
            decode_pass w st gs = decode_pass w st (filter computing gs)).
  { unfold decode_pass; apply for_fold_filter; intros s g Hg.
    unfold decode_group; rewrite (computing_false g Hg), orb_true_r.
    reflexivity. }
  assert (Hmerge : forall acc,
            for_fold merge_seq_data acc gs
            = for_fold merge_seq_data acc (filter computing gs)).
  { apply for_fold_filter; intros s g Hg.
    unfold merge_seq_data; rewrite (computing_false g Hg); reflexivity. }
  assert (Hcollect : collect w gs = collect w (filter computing gs)).
  { unfold collect; rewrite Hpre.
    destruct (prefill_pass w init_locals (filter computing gs)); simpl;
      [apply Hdec | reflexivity]. }
  assert (Hfinish : forall st,
            finish w gs st = finish w (filter computing gs) st).
  { intros st; unfold finish; rewrite Hmerge; reflexivity. }
  destruct gs as [| g gs]; [reflexivity |].
  rewrite prepare_inputs_nonempty by discriminate.
  rewrite Hcollect.
  destruct (filter computing (g :: gs)) as [| g' gs'] eqn:Hf.
  - reflexivity.
  - rewrite prepare_inputs_nonempty by discriminate.
    destruct (collect w (g' :: gs')); simpl; [apply Hfinish | reflexivity].
Qed.

(* ================================================================== *)
(** ** Missing block tables, unset block size, empty groups *)
(* ================================================================== *)




Lemma for_each_first_raise {A B} (f : A -> result B) (x : A) (l : list A)
  (e : exn) :
  f x = Raise e -> for_each f (x :: l) = Raise e.
Proof. intros H; simpl; rewrite H; reflexivity. Qed.

(** Slot addressing needs the block size: while it is not set, any
    position raises [TypeError], and with a block size of 0 any position
    raises [ZeroDivisionError], so the prefill loop of a prompt that forwards
    a token and the decode loop over a position fail that way, and so does
    the iteration of a prompt group that has its block table.  A prompt that
    forwards no token has no slot and raises nothing. *)
Theorem block_size_needed (w : Worker) (t : BlockTable) :
  (block_size w = None ->
   (forall p, slot_of w t p = Raise TypeError)
   /\ (forall n, 1 <= n -> prefill_slots w t n = Raise TypeError)
   /\ (forall p ps, decode_slots w t (p :: ps) = Raise TypeError)
   /\ (forall st g id sd rest tables,
         is_prefill g = true -> seq_data g = (id, sd) :: rest ->
         block_tables g = Some tables -> lookup tables id = Some t ->
         1 <= running_inflight_tokens sd ->
         prefill_group w st g = Raise TypeError))
  /\ (block_size w = Some 0 ->
      (forall p, slot_of w t p = Raise ZeroDivisionError)
      /\ (forall n, 1 <= n -> prefill_slots w t n = Raise ZeroDivisionError)
      /\ (forall p ps, decode_slots w t (p :: ps) = Raise ZeroDivisionError))
  /\ (forall n, n <= 0 -> prefill_slots w t n = Ok []).
Proof.
  assert (Hloop : forall e, (forall p, slot_of w t p = Raise e) ->
            (forall n, 1 <= n -> prefill_slots w t n = Raise e)
            /\ (forall p ps, decode_slots w t (p :: ps) = Raise e)).
  { intros e He; split.
    - intros n Hn; unfold prefill_slots.
      rewrite (range_last n Hn).
      destruct (range (n - 1) ++ [n - 1]) as [| p ps] eqn:Hr;
        [destruct (range (n - 1)); discriminate Hr |].
      apply for_each_first_raise, He.
    - intros p ps; apply for_each_first_raise, He. }
  split; [| split].
  - intros Hnone.
    assert (Hbody : forall p, slot_of w t p = Raise TypeError)
      by (intros p; unfold slot_of, floordiv_block_size; rewrite Hnone;
          reflexivity).
    destruct (Hloop TypeError Hbody) as (Hprefill & Hdecode).
    split; [exact Hbody | split; [exact Hprefill | split; [exact Hdecode |]]].
    intros st g id sd rest tables Hpre Hd Hbt Ht Hrun.
    destruct (is_prefill_true g Hpre) as (Hp & Hs).
    rewrite (prefill_group_first w st g id sd rest Hp Hs Hd); cbv zeta.
    rewrite Hbt, (dict_get_found _ _ _ Ht); simpl.
    rewrite (Hprefill _ Hrun); reflexivity.
  - intros Hzero.
    assert (Hbody : forall p, slot_of w t p = Raise ZeroDivisionError)
      by (intros p; unfold slot_of, floordiv_block_size; rewrite Hzero;
          reflexivity).
    destruct (Hloop ZeroDivisionError Hbody) as (Hprefill & Hdecode).
    auto.
  - intros n Hn; unfold prefill_slots; rewrite (range_nonpositive n Hn).
    reflexivity.
Qed.

(** A prompt with its block table, assembled by a worker whose cache engine
    is not initialized. *)
Lemma block_size_needed_witness :
  prefill_group fresh_worker init_locals Scenario.group_P4 = Raise TypeError.
Proof.
  destruct (block_size_needed fresh_worker [7]) as (H & _).
  destruct (H eq_refl) as (_ & _ & _ & Hgroup).
  apply (Hgroup init_locals Scenario.group_P4 1 Scenario.prompt4 []
           [(1, [7])]); try reflexivity; try (vm_compute; discriminate).
Defined.

(** Groups that the passes cannot read raise [IndexError]: a prompt group
    with no sequence, at [seq_ids[0]], and a decode sequence that forwards no
    token, at [hists[-1]]. *)
Theorem unreadable_groups_raise (w : Worker) (g : SequenceGroupMetadata) :
  (is_prefill g = true -> seq_data g = [] ->
   forall st, prefill_group w st g = Raise IndexError)
  /\ (forall id sd t,
        lookup (seq_data g) id = Some sd -> table_of g id = [t] ->
        running_inflight_tokens sd <= 0 ->
        forall st, decode_seq w g st id = Raise IndexError).
Proof.
  split.
  - intros Hpre Hd st; destruct (is_prefill_true g Hpre) as (Hp & Hs).
    unfold prefill_group; rewrite Hp, Hs, Hd; reflexivity.
  - intros id sd t Hsd Ht Hrun st.
    unfold decode_seq, block_table_of; unfold table_of in Ht.
    rewrite (dict_get_found _ _ _ Hsd); simpl.
    destruct (block_tables g) as [tables |]; [| discriminate Ht].
    unfold dict_get.
    destruct (lookup tables id) as [t' |]; [| discriminate Ht]; simpl.
    assert (Hhists : decode_hists sd = [])
      by (unfold decode_hists; rewrite range_nonpositive by lia; reflexivity).
    rewrite Hhists.
    unfold clamp_hists; destruct (sliding_window w); reflexivity.
Qed.

Lemma unreadable_groups_raise_witness :
  prefill_group Scenario.worker4 init_locals Cases.group_empty
  = Raise IndexError
  /\ decode_seq Scenario.worker4 Scenario.group_idle init_locals 2
     = Raise IndexError.
Proof.
  split.
  - destruct (unreadable_groups_raise Scenario.worker4 Cases.group_empty)
      as (H & _).
    apply H; reflexivity.
  - destruct (unreadable_groups_raise Scenario.worker4 Scenario.group_idle)
      as (_ & H).
    apply (H 2 Scenario.idle6 [3; 4]); try reflexivity;
      try (vm_compute; discriminate).
Defined.

(* ================================================================== *)
(** ** The effects of a step *)
(* ================================================================== *)

(** A step never issues a copy.  It invokes the model exactly when the copy
    set is empty and batch assembly returns a batch, and then the
    invocation is its only effect: the worker issues no swap and waits on no
    event, and hands both swap sets to the model, with no events to wait
    on. *)
Theorem step_with_input_defers_swaps (w : Worker)
  (gs : list SequenceGroupMetadata)
  (blocks_to_swap_in blocks_to_swap_out : dict Z)
  (blocks_to_copy : dict (list Z)) :
  let run :=
    execute_model w gs blocks_to_swap_in blocks_to_swap_out blocks_to_copy in
  existsb is_copy (fst run) = false
  /\ (snd run = Ok ModelOutput
      <-> truthy blocks_to_copy = false
          /\ exists batch, _prepare_inputs w gs = Ok (Some batch))
  /\ (forall batch,
        truthy blocks_to_copy = false ->
        _prepare_inputs w gs = Ok (Some batch) ->
        run = ([ModelCall batch None blocks_to_swap_in blocks_to_swap_out],
               Ok ModelOutput))
  /\ (existsb is_model_call (fst run) = true ->
      existsb is_cache_op (fst run) = false).
Proof.
  cbv zeta; unfold execute_model.
  assert (Hwaits : forall evs,
            existsb is_copy (map WaitEvent evs) = false
            /\ existsb is_model_call (map WaitEvent evs) = false)
    by (induction evs as [| ev evs (IH1 & IH2)]; simpl; auto).
  destruct (truthy blocks_to_copy); simpl.
  - split; [reflexivity |].
    split; [split; [discriminate | intros (H & _); discriminate H] |].
    split; [discriminate | discriminate].
  - destruct (_prepare_inputs w gs) as [[batch |] | e]; simpl.
    + split; [reflexivity |].
      split; [split; [eauto | reflexivity] |].
      split; [intros b _ [= <-]; reflexivity | reflexivity].
    + unfold no_input_branch; simpl.
      destruct (Hwaits (cache_events w)) as (Hc & Hm).
      split.
      { rewrite !existsb_app.
        destruct (truthy blocks_to_swap_out), (truthy blocks_to_swap_in);
          simpl; try rewrite Hc; reflexivity. }
      split; [split; [discriminate
                     | intros (_ & b & H); discriminate H] |].
      split; [discriminate |].
      rewrite !existsb_app.
      destruct (truthy blocks_to_swap_out), (truthy blocks_to_swap_in);
        simpl; try rewrite Hm; discriminate.
    + split; [reflexivity |].
      split; [split; [discriminate | intros (_ & b & H); discriminate H] |].
      split; [discriminate | discriminate].
Qed.

(** A step with input and blocks to swap in both directions: one model
    invocation, which receives both sets. *)
Lemma step_with_input_defers_swaps_witness :
  exists batch,
    execute_model Scenario.worker4 Scenario.mixed_step [(5, 6)] [(3, 4)] []
    = ([ModelCall batch None [(5, 6)] [(3, 4)]], Ok ModelOutput).
Proof.
  destruct (_prepare_inputs Scenario.worker4 Scenario.mixed_step)
    as [[batch |] | e] eqn:Hrun;
    [| vm_compute in Hrun; discriminate Hrun
     | vm_compute in Hrun; discriminate Hrun].
  exists batch.
  destruct (step_with_input_defers_swaps Scenario.worker4
              Scenario.mixed_step [(5, 6)] [(3, 4)] [])
    as (_ & _ & H & _).
  apply H; [reflexivity | exact Hrun].
Defined.

(* ================================================================== *)
(** ** The forward pass of the profiler *)
(* ================================================================== *)

Lemma in_slice_part {A} (x : A) (l : list A) (n k : nat) :
  In x (firstn n (skipn k l)) -> In x l.
Proof.
  intros H.
  rewrite <- (firstn_skipn k l); apply in_or_app; right.
  rewrite <- (firstn_skipn n (skipn k l)); apply in_or_app; left; exact H.
Qed.

Lemma profile_groups_well_formed (vocab_size total n : Z) (ids : list Z) :
  Forall well_formed (map (profile_group_of vocab_size total n) ids).
Proof.
  apply Forall_forall; intros g Hg; apply in_map_iff in Hg as (i & <- & _).
  split; [apply singleton_is_dict |].
  repeat constructor; simpl; try lia; apply len_nonneg.
Qed.

Lemma profile_groups_no_tables (vocab_size total n : Z) (ids : list Z) :
  forall g, In g (map (profile_group_of vocab_size total n) ids) ->
            is_prefill g = true /\ block_tables g = None.
Proof.
  intros g Hg; apply in_map_iff in Hg as (i & <- & _); split; reflexivity.
Qed.

Lemma profile_groups_all_prefill (vocab_size total n : Z) (ids : list Z) :
  filter is_prefill (map (profile_group_of vocab_size total n) ids)
  = map (profile_group_of vocab_size total n) ids
  /\ decode_sequences (map (profile_group_of vocab_size total n) ids) = [].
Proof.
  unfold decode_sequences; induction ids as [| i ids (IH1 & IH2)]; simpl;
    [auto |].
  rewrite IH1; split; [reflexivity | exact IH2].
Qed.

Lemma profile_expected_tokens (vocab_size total n : Z) (ids : list Z) :
  len (expected_tokens (map (profile_group_of vocab_size total n) ids))
  = sumZ (prompt_lengths (map (profile_group_of vocab_size total n) ids))
  /\ map forwarded_prompt_len (map (profile_group_of vocab_size total n) ids)
     = prompt_lengths (map (profile_group_of vocab_size total n) ids).
Proof.
  unfold expected_tokens.
  destruct (profile_groups_all_prefill vocab_size total n ids) as (-> & ->).
  simpl; rewrite app_nil_r; unfold prompt_lengths.
  induction ids as [| i ids (IH1 & IH2)]; simpl; [auto |].
  rewrite len_app, IH1, IH2; split; [| reflexivity].
  f_equal; unfold inflight_prompt_tokens, slice_to; simpl.
  set (tokens := replicate 0 _).
  pose proof (len_nonneg tokens) as Hlen.
  apply (len_slice_inside tokens 0); lia.
Qed.

Lemma profile_lengths_sum (vocab_size total n : Z) :
  0 < n -> 0 <= total ->
  sumZ (prompt_lengths
          (map (profile_group_of vocab_size total n) (range n)))
  = total.
Proof.
  intros Hn Ht.
  rewrite (prompt_lengths_profile vocab_size total n _ Ht Hn).
  pose proof (Z.mod_pos_bound total n Hn) as Hr.
  rewrite remainder_first by lia.
  rewrite sumZ_app, !sumZ_replicate by lia.
  pose proof (Z.div_mod total n ltac:(lia)); nia.
Qed.

(** The forward pass of the profiler: with at least one sequence and at
    least one token, the sequences of the profiler are assembled, whatever
    the state of the worker, into a batch of exactly
    [max_num_batched_tokens] tokens before padding; the tokens and the
    slots are all 0, the prompt lengths are those of the sequences, and
    there is no decode sequence and no block table. *)
Theorem profile_batch_contents (w : Worker) (vocab_size : Z)
  (cfg : SchedulerConfig) :
  0 < max_num_seqs cfg -> 1 <= max_num_batched_tokens cfg ->
  let total := max_num_batched_tokens cfg in
  exists seqs batch,
    profile_seqs vocab_size cfg = Ok seqs
    /\ _prepare_inputs w seqs = Ok (Some batch)
    /\ tokens_tensor batch = replicate 0 (total + (- total) mod 8)
    /\ im_slot_mapping (input_metadata batch) = replicate 0 total
    /\ im_prompt_lens (input_metadata batch) = prompt_lengths seqs
    /\ im_context_lens (input_metadata batch) = []
    /\ im_block_tables (input_metadata batch) = [].
Proof.
  intros Hn Ht total.
  set (seqs := map (profile_group_of vocab_size total (max_num_seqs cfg))
                 (range (max_num_seqs cfg))).
  assert (Hwf : Forall well_formed seqs)
    by apply profile_groups_well_formed.
  assert (Hnone : forall g, In g seqs ->
            is_prefill g = true /\ block_tables g = None)
    by apply profile_groups_no_tables.
  destruct (profile_expected_tokens vocab_size total (max_num_seqs cfg)
              (range (max_num_seqs cfg))) as (Hlen & Hprompt).
  rewrite (profile_lengths_sum vocab_size total _ Hn ltac:(lia)) in Hlen.
  fold seqs in Hlen, Hprompt.
  destruct (prepare_inputs_no_tables w seqs) as (r & Hr).
  { intros g Hg; destruct (Hnone g Hg) as (Hpf & Hbt).
    repeat split; auto.
    apply in_map_iff in Hg as (i & <- & _); discriminate. }
  { apply profile_groups_distinct. }
  assert (Hseqs : seqs <> []).
  { unfold seqs; rewrite (range_last (max_num_seqs cfg)), map_app by lia.
    simpl.
    intros H; apply app_eq_nil in H as (_ & H); discriminate H. }
  pose proof Hr as Hrun.
  rewrite (prepare_inputs_nonempty w seqs Hseqs) in Hr.
  apply bind_ok in Hr as (st & Hc & Hf).
  destruct (collect_extends w seqs st (well_formed_dicts seqs Hwf) Hc)
    as (Htok & _ & Hslots & Hzero).
  destruct (collect_metadata w seqs st (well_formed_dicts seqs Hwf) Hc)
    as (_ & Hpl & _ & Hctx & _ & Htables & _).
  destruct (profile_groups_all_prefill vocab_size total (max_num_seqs cfg)
              (range (max_num_seqs cfg))) as (Hall & Hdec).
  fold seqs in Hall, Hdec.
  assert (Hzeros : Forall (eq 0) (input_tokens st)).
  { rewrite Htok; unfold expected_tokens; rewrite Hdec, Hall; simpl.
    rewrite app_nil_r; apply Forall_flat_map, Forall_forall.
    intros g Hg; apply in_map_iff in Hg as (i & <- & _).
    unfold inflight_prompt_tokens, slice_to, slice; simpl.
    apply Forall_forall; intros x Hx.
    apply in_slice_part in Hx.
    symmetry; apply (repeat_spec _ _ _ Hx). }
  assert (Hcount : len (input_tokens st) = total) by (rewrite Htok; exact Hlen).
  destruct r as [batch |].
  - destruct (finish_some w seqs st batch Hf) as (Hbt & _ & Hbs & _).
    destruct (finish_metadata w seqs st batch Hf)
      as (_ & Hbp & _ & Hbc & _ & _ & Hbb & _).
    exists seqs, batch.
    split; [apply profile_seqs_eq |].
    split; [exact Hrun |].
    split.
    { assert (Htoks : input_tokens st = replicate 0 total)
        by (rewrite <- Hcount; apply all_zero_replicate, Hzeros).
      rewrite Hbt, Htoks, len_replicate, Z.max_r by lia.
      unfold replicate; rewrite <- repeat_app; f_equal.
      pose proof (Z.mod_pos_bound (- total) 8 ltac:(lia)); lia. }
    split.
    { rewrite Hbs, <- Hcount, <- (Hslots Hwf).
      apply all_zero_replicate, Hzero, Hnone. }
    split; [rewrite Hbp, Hpl, Hall; exact Hprompt |].
    split; [rewrite Hbc, Hctx, Hdec; reflexivity |].
    rewrite Hbb, Htables; unfold decode_block_tables.
    replace (filter is_decode seqs) with (@nil SequenceGroupMetadata);
      [reflexivity |].
    clear; unfold seqs; induction (range (max_num_seqs cfg)); simpl; auto.
  - exfalso; unfold finish in Hf.
    destruct (input_tokens st) eqn:Hin; [unfold len in Hcount; simpl in *; lia |].
    rewrite !pad_to_alignment_8 in Hf; simpl in Hf.
    apply bind_ok in Hf as (m & _ & Hf).
    apply bind_ok in Hf as (u & _ & Hf); discriminate Hf.
Qed.

(** Scenario C: 10 tokens in 4 prompts, padded to 16. *)
Lemma profile_batch_contents_witness :
  exists seqs batch,
    profile_seqs 32000 Scenario.config_C = Ok seqs
    /\ _prepare_inputs fresh_worker seqs = Ok (Some batch)
    /\ len (tokens_tensor batch) = 16
    /\ im_slot_mapping (input_metadata batch) = [0; 0; 0; 0; 0; 0; 0; 0; 0; 0]
    /\ im_prompt_lens (input_metadata batch) = [3; 3; 2; 2].
Proof.
  destruct (profile_batch_contents fresh_worker 32000 Scenario.config_C)
    as (seqs & batch & Hseqs & Hrun & Htok & Hslots & Hprompt & _);
    [reflexivity | vm_compute; discriminate |].
  exists seqs, batch.
  split; [exact Hseqs | split; [exact Hrun |]].
  split; [rewrite Htok; reflexivity |].
  split; [exact Hslots |].
  rewrite Hprompt.
  rewrite profile_seqs_eq in Hseqs; injection Hseqs as <-; reflexivity.
Defined.

(* ================================================================== *)
(** ** Slots and blocks *)
(* ================================================================== *)

Lemma slot_of_returns (w : Worker) (b : Z) (t : BlockTable) (p s : Z) :
  block_size w = Some b -> 0 < b -> 0 <= p ->
  slot_of w t p = Ok s ->
  p / b < len t
  /\ s / b = nth (Z.to_nat (p / b)) t 0
  /\ s mod b = p mod b
  /\ nth (Z.to_nat (p / b)) t 0 * b <= s
     < (nth (Z.to_nat (p / b)) t 0 + 1) * b.
Proof.
  intros Hsize Hb Hp H.
  destruct (Z_lt_le_dec (p / b) (len t)) as [Hlt | Hge].
  - rewrite (slot_of_allocated w b Hsize Hb t p Hp Hlt) in H.
    injection H as <-; unfold spec_slot.
    pose proof (Z.mod_pos_bound p b Hb) as Hmod.
    split; [exact Hlt |].
    split; [symmetry; apply (Z.div_unique _ _ _ (p mod b)); lia |].
    split; [symmetry; apply (Z.mod_unique _ _ (nth (Z.to_nat (p / b)) t 0));
            lia |].
    lia.
  - rewrite (slot_of_unallocated w b Hsize Hb t p Hge) in H; discriminate H.
Qed.

(** A slot that slot addressing returns lies in the block of its position:
    dividing it by the block size gives the block id back, and the remainder
    is the offset of the position in its logical block. *)
Theorem slot_decodes (w : Worker) (b : Z) (t : BlockTable) (p s : Z) :
  block_size w = Some b -> 0 < b -> 0 <= p ->
  slot_of w t p = Ok s ->
  p / b < len t
  /\ s / b = nth (Z.to_nat (p / b)) t 0
  /\ s mod b = p mod b
  /\ nth (Z.to_nat (p / b)) t 0 * b <= s
     < (nth (Z.to_nat (p / b)) t 0 + 1) * b.
Proof. exact (slot_of_returns w b t p s). Qed.

Lemma slot_decodes_witness :
  slot_of Scenario.worker4 [7; 2] 1 = Ok 29 /\ 29 / 4 = 7 /\ 29 mod 4 = 1.
Proof.
  destruct (slot_decodes Scenario.worker4 4 [7; 2] 1 29 eq_refl ltac:(lia)
              ltac:(lia) eq_refl) as (_ & Hblock & Hoffset & _).
  split; [reflexivity | split; assumption].
Defined.

(** When no block id occurs twice in a block table, two positions of the
    sequence never get the same slot. *)
Theorem slots_distinct (w : Worker) (b : Z) (t : BlockTable) (p q s : Z) :
  block_size w = Some b -> 0 < b -> NoDup t ->
  0 <= p -> 0 <= q ->
  slot_of w t p = Ok s -> slot_of w t q = Ok s ->
  p = q.
Proof.
  intros Hsize Hb Hnd Hp Hq Hps Hqs.
  destruct (slot_of_returns w b t p s Hsize Hb Hp Hps)
    as (Hpl & Hpb & Hpo & _).
  destruct (slot_of_returns w b t q s Hsize Hb Hq Hqs)
    as (Hql & Hqb & Hqo & _).
  assert (Hblock : Z.to_nat (p / b) = Z.to_nat (q / b)).
  { apply (proj1 (NoDup_nth t 0) Hnd).
    - assert (0 <= p / b) by (apply Z.div_pos; lia); unfold len in Hpl; lia.
    - assert (0 <= q / b) by (apply Z.div_pos; lia); unfold len in Hql; lia.
    - congruence. }
  assert (Hdiv : p / b = q / b).
  { assert (0 <= p / b) by (apply Z.div_pos; lia).
    assert (0 <= q / b) by (apply Z.div_pos; lia).
    lia. }
  rewrite (Z.div_mod p b), (Z.div_mod q b) by lia.
  rewrite Hdiv; f_equal; congruence.
Qed.

(** Position 5 is the only position of the block table [[7; 2]] with
    slot 9. *)
Lemma slots_distinct_witness :
  NoDup [7; 2] /\ slot_of Scenario.worker4 [7; 2] 5 = Ok 9 /\ 5 = 5.
Proof.
  assert (Hnd : NoDup [7; 2])
    by (repeat constructor; simpl; intuition discriminate).
  split; [exact Hnd | split; [reflexivity |]].
  apply (slots_distinct Scenario.worker4 4 [7; 2] 5 5 9 eq_refl);
    try lia; try reflexivity; exact Hnd.
Defined.

(* ================================================================== *)
(** ** Positions and histories of a decode sequence *)
(* ================================================================== *)

(** The tokens that a decode sequence forwards have consecutive positions
    that continue from the tokens seen, and each attends to itself and to
    what precedes it: its history length is its position plus one.  The
    last history length is the context length of the sequence. *)
Theorem decode_positions_consecutive (sd : SequenceData) :
  decode_positions sd
  = map (fun i => seen_tokens sd + i) (range (running_inflight_tokens sd))
  /\ decode_hists sd = map (fun p => p + 1) (decode_positions sd)
  /\ (1 <= running_inflight_tokens sd ->
      getitem (decode_hists sd) (-1) = Ok (context_len sd)
      /\ getitem (decode_positions sd) (-1) = Ok (context_len sd - 1)).
Proof.
  unfold decode_positions, decode_hists, seen_tokens, context_len.
  split; [rewrite map_map; apply map_ext; intros i; lia |].
  split; [rewrite !map_map; apply map_ext; intros i; lia |].
  intros Hrun; rewrite (range_last _ Hrun), !map_app; simpl.
  rewrite !getitem_app_last; split; f_equal; lia.
Qed.

(** Three tokens forwarded after seven tokens seen. *)
Lemma decode_positions_consecutive_witness :
  decode_positions Cases.seq_B2 = [7; 8; 9]
  /\ getitem (decode_hists Cases.seq_B2) (-1) = Ok 10.
Proof.
  destruct (decode_positions_consecutive Cases.seq_B2) as (Hpos & _ & Hlast).
  split; [rewrite Hpos; reflexivity |].
  destruct Hlast as (H & _); [vm_compute; discriminate | exact H].
Defined.

(* ================================================================== *)
(** ** The descriptors of the ragged batch *)
(* ================================================================== *)

Lemma descriptors_zip (sds : list SequenceData) :
  forall (tables : list BlockTable) (i : nat),
    List.length tables = List.length sds ->
    map (fun '(i, (qs, ctx, kv_ids)) =>
           mkSeqDescriptor (Z.of_nat i) qs (ctx - qs) kv_ids)
        (combine (seq i (List.length sds))
           (combine (combine (map running_inflight_tokens sds)
                       (map context_len sds)) tables))
    = descriptors_from i sds tables.
Proof.
  induction sds as [| sd sds IH]; intros tables i Hlen; [reflexivity |].
  destruct tables as [| t tables]; [discriminate Hlen |].
  simpl; rewrite IH by (simpl in Hlen; lia).
  f_equal; unfold descriptor_of, context_len, seen_tokens; f_equal; lia.
Qed.

(** The ragged batch of a returned batch has one descriptor per decode
    sequence, numbered from 0 in the order of the batch: its in-flight
    tokens are the tokens forwarded, its seen tokens are the tokens of the
    sequence that are not in flight, and its blocks are the block table of
    the sequence. *)
Theorem batch_descriptors (w : Worker) (gs : list SequenceGroupMetadata)
  (batch : Batch) :
  Forall (fun g => is_dict (seq_data g)) gs ->
  _prepare_inputs w gs = Ok (Some batch) ->
  im_atoms (input_metadata batch)
  = descriptors_from 0 (decode_sequences gs) (decode_block_tables gs)
  /\ List.length (im_atoms (input_metadata batch))
     = List.length (decode_sequences gs).
Proof.
  intros Hdict H.
  apply prepare_inputs_some in H as (st & Hc & Ht & Hf).
  destruct (collect_metadata w gs st Hdict Hc)
    as (_ & _ & _ & Hctx & Hqs & Htables & _ & _ & Hlen).
  rewrite (finish_nonempty w gs st Ht) in Hf.
  apply bind_ok in Hf as (merged & _ & Hf).
  apply bind_ok in Hf as ([] & _ & Hf).
  injection Hf as <-; simpl.
  assert (Hdesc : descriptors st
                  = descriptors_from 0 (decode_sequences gs)
                      (decode_block_tables gs)).
  { unfold descriptors; rewrite Hctx, Hqs, Htables.
    rewrite <- (descriptors_zip _ _ 0%nat Hlen).
    assert (Hmin : forall n m : nat, m = n -> Nat.min (Nat.min n n) m = n)
      by (intros; lia).
    rewrite !length_combine, !length_map, Hmin by exact Hlen; reflexivity. }
  assert (Hcount : forall sds tables i,
            List.length tables = List.length sds ->
            List.length (descriptors_from i sds tables) = List.length sds).
  { induction sds as [| sd sds IH]; intros [| t tables] i Hl; simpl in *;
      try discriminate; [reflexivity | f_equal; apply IH; lia]. }
  rewrite Hqs.
  destruct (decode_sequences gs) as [| sd sds] eqn:Hseqs.
  - destruct (decode_block_tables gs); [| discriminate Hlen]; auto.
  - simpl map; cbv iota; rewrite Hdesc.
    split; [reflexivity | apply Hcount, Hlen].
Qed.

(** Scenario B: two descriptors, with 1 and 3 tokens in flight after 5 and
    7 tokens seen. *)
Lemma batch_descriptors_witness :
  exists batch,
    _prepare_inputs Scenario.worker4 Cases.step_B = Ok (Some batch)
    /\ im_atoms (input_metadata batch)
       = [mkSeqDescriptor 0 1 5 [3; 4]; mkSeqDescriptor 1 3 7 [5; 6; 7]].
Proof.
  destruct (_prepare_inputs Scenario.worker4 Cases.step_B)
    as [[batch |] | e] eqn:Hrun;
    [| vm_compute in Hrun; discriminate Hrun
     | vm_compute in Hrun; discriminate Hrun].
  exists batch; split; [reflexivity |].
  destruct (batch_descriptors Scenario.worker4 Cases.step_B batch
              step_B_dicts Hrun) as (H & _).
  exact H.
Defined.
